(** * DNS TSIG support (dns/tsig.py): a shallow embedding and its properties

    The module signs and validates DNS messages with a transaction
    signature.  Its engines ([HMACTSig], [GSSTSig]) are Python objects that
    are mutated in place by [update]; a digest context handed to [sign] or
    [validate] is such an object.  The embedding keeps the objects in a
    store and threads the store and the raised exception through every
    call, so that what a call feeds to which engine can be read off the
    final store.

    Times, identifiers and error codes are Python integers ([Z]); byte
    strings are lists of bytes.  Left out, as nothing in [sign],
    [validate] or the engines reads them: the [name] attribute of the
    engines, [GSSTSigAdapter], and [Key.__eq__]. *)

From Stdlib Require Import ZArith List Lia Bool String Ascii.
From Stdlib Require Import Strings.Byte.
From stdpp Require Import base list.
Import ListNotations.

Local Open Scope Z_scope.

(** ** Bytes *)

Definition bytes := list byte.

Definition Z_of_byte (b : byte) : Z := Z.of_N (Byte.to_N b).

Definition byte_of_Z (z : Z) : byte :=
  match Byte.of_N (Z.to_N (z mod 256)) with
  | Some b => b
  | None => x00
  end.

Fixpoint bytes_eqb (a b : bytes) : bool :=
  match a, b with
  | [], [] => true
  | x :: a', y :: b' => Byte.eqb x y && bytes_eqb a' b'
  | _, _ => false
  end.

(** Python's [len] as an integer. *)
Definition len {A} (l : list A) : Z := Z.of_nat (length l).

(** Python slicing [b[lo:hi]] with the two bounds given: a negative bound
    counts from the end, and both are clamped to the length. *)
Definition slice_index (n i : Z) : Z :=
  if i <? 0 then Z.max 0 (n + i) else Z.min i n.

Definition slice (b : bytes) (lo hi : Z) : bytes :=
  let l := slice_index (len b) lo in
  let h := slice_index (len b) hi in
  firstn (Z.to_nat (h - l)) (skipn (Z.to_nat l) b).

(** [b[lo:]] *)
Definition slice_from (b : bytes) (lo : Z) : bytes :=
  skipn (Z.to_nat (slice_index (len b) lo)) b.

(** ** Exceptions *)

(** A DNS name: its labels from left to right; every name is absolute and
    the root label is left implicit. *)
Definition Label := bytes.
Definition Name := list Label.

Inductive Exn : Type :=
  | FormError
  | BadTime
  | BadSignature
  | BadKey
  | BadAlgorithm
  | PeerError (unknown_code : Z)
  | PeerBadKey
  | PeerBadSignature
  | PeerBadTime
  | PeerBadTruncation
  | NotImplementedError (algorithm : Name)
  | ValueError
  | StructError
  | TypeError
  | AttributeError
  | EmptyLabel
  | LabelTooLong
  | Binascii_Error
  | OtherException (detail : string)
  | NonException (detail : string)
  | DanglingReference.

(** [except Exception] catches every exception class of this module and of
    the standard library used here; it does not catch the classes that
    derive from BaseException only (KeyboardInterrupt, SystemExit,
    GeneratorExit), which [NonException] stands for.  [DanglingReference]
    is not a Python exception: it is the outcome of following a reference
    that the store does not hold, which no Python state can do. *)
Definition is_Exception (e : Exn) : bool :=
  match e with
  | NonException _ | DanglingReference => false
  | _ => true
  end.

Inductive Res (A : Type) : Type :=
  | Ok (a : A)
  | Err (e : Exn).
Arguments Ok {A} a.
Arguments Err {A} e.

(** ** struct.pack and struct.unpack, network byte order *)

Definition in_range (v n : Z) : bool := (0 <=? v) && (v <? n).

Definition be16 (v : Z) : bytes :=
  [byte_of_Z (Z.shiftr v 8); byte_of_Z (Z.land v 255)].

Definition be32 (v : Z) : bytes :=
  [byte_of_Z (Z.shiftr v 24); byte_of_Z (Z.shiftr v 16);
   byte_of_Z (Z.shiftr v 8); byte_of_Z (Z.land v 255)].

(** [struct.pack('!H', v)] *)
Definition pack_H (v : Z) : Res bytes :=
  if in_range v 65536 then Ok (be16 v) else Err StructError.

(** [struct.pack('!I', v)] *)
Definition pack_I (v : Z) : Res bytes :=
  if in_range v 4294967296 then Ok (be32 v) else Err StructError.

(** [struct.pack('!HH', a, b)] *)
Definition pack_HH (a b : Z) : Res bytes :=
  if in_range a 65536 && in_range b 65536
  then Ok (be16 a ++ be16 b) else Err StructError.

(** [struct.pack('!HIH', a, b, c)] *)
Definition pack_HIH (a b c : Z) : Res bytes :=
  if in_range a 65536 && in_range b 4294967296 && in_range c 65536
  then Ok (be16 a ++ be32 b ++ be16 c) else Err StructError.

(** [struct.unpack('!H', b)]: the buffer must hold exactly two bytes. *)
Definition unpack_H (b : bytes) : Res Z :=
  match b with
  | [hi; lo] => Ok (Z_of_byte hi * 256 + Z_of_byte lo)
  | _ => Err StructError
  end.

(** ** Names *)

(** Modelled from the spec: dns.name is not under src/.  A name is
    "compared case-insensitively per DNS name equality", the digest takes
    it "in canonical digestible form" (the wire form of the lower-cased
    labels, closed by the root label), and [from_text] reads the dotted
    text form (escapes are not modelled). *)
Definition lower_byte (b : byte) : byte :=
  let z := Z_of_byte b in
  if (65 <=? z) && (z <=? 90) then byte_of_Z (z + 32) else b.

Definition canonical (n : Name) : Name := map (map lower_byte) n.

Fixpoint labels_eqb (a b : list Label) : bool :=
  match a, b with
  | [], [] => true
  | x :: a', y :: b' => bytes_eqb x y && labels_eqb a' b'
  | _, _ => false
  end.

Definition name_eqb (a b : Name) : bool :=
  labels_eqb (canonical a) (canonical b).

Definition to_digestable (n : Name) : bytes :=
  flat_map (fun l => byte_of_Z (len l) :: map lower_byte l) n ++ [x00].

Fixpoint split_labels (s : string) (cur : Label) : list Label :=
  match s with
  | EmptyString => [rev cur]
  | String c s' =>
      if Ascii.eqb c "."%char then rev cur :: split_labels s' []
      else split_labels s' (byte_of_ascii c :: cur)
  end.

Fixpoint check_labels (ls : list Label) : Res Name :=
  match ls with
  | [] => Ok []
  | [[]] => Ok []
  | l :: ls' =>
      if (len l =? 0) then Err EmptyLabel
      else if (63 <? len l) then Err LabelTooLong
      else match check_labels ls' with
           | Ok n => Ok (l :: n)
           | Err e => Err e
           end
  end.

Definition from_text (text : string) : Res Name :=
  if String.eqb text "@" || String.eqb text "." then Ok []
  else check_labels (split_labels text []).

Definition label (s : string) : Label := list_byte_of_string s.

(** TSIG algorithms *)
Definition HMAC_MD5 : Name :=
  [label "HMAC-MD5"; label "SIG-ALG"; label "REG"; label "INT"].
Definition HMAC_SHA1 : Name := [label "hmac-sha1"].
Definition HMAC_SHA224 : Name := [label "hmac-sha224"].
Definition HMAC_SHA256 : Name := [label "hmac-sha256"].
Definition HMAC_SHA256_128 : Name := [label "hmac-sha256-128"].
Definition HMAC_SHA384 : Name := [label "hmac-sha384"].
Definition HMAC_SHA384_192 : Name := [label "hmac-sha384-192"].
Definition HMAC_SHA512 : Name := [label "hmac-sha512"].
Definition HMAC_SHA512_256 : Name := [label "hmac-sha512-256"].
Definition GSS_TSIG : Name := [label "gss-tsig"].

Definition default_algorithm : Name := HMAC_SHA256.

(** Modelled from the spec: dns.rcode and dns.rdataclass are not under
    src/; the values are those of the TSIG error codes and of class ANY. *)
Definition BADSIG : Z := 16.
Definition BADKEY : Z := 17.
Definition BADTIME : Z := 18.
Definition BADTRUNC : Z := 22.
Definition rdataclass_ANY : Z := 255.
Definition rdatatype_TSIG : Z := 250.

(** ** Hash primitives, keys and TSIG records *)

Inductive HashAlg : Type := md5 | sha1 | sha224 | sha256 | sha384 | sha512.

(** The digest length of each hashlib primitive, in bytes. *)
Definition digest_size (a : HashAlg) : nat :=
  match a with
  | md5 => 16 | sha1 => 20 | sha224 => 28
  | sha256 => 32 | sha384 => 48 | sha512 => 64
  end%nat.

(** An entry of [HMACTSig._hashes]: a hash constructor, or a pair of a
    constructor and a truncation length in bits. *)
Inductive HashInfo : Type :=
  | Plain (h : HashAlg)
  | Truncated (h : HashAlg) (bits : Z).

Definition _hashes : list (Name * HashInfo) :=
  [ (HMAC_SHA1, Plain sha1);
    (HMAC_SHA224, Plain sha224);
    (HMAC_SHA256, Plain sha256);
    (HMAC_SHA256_128, Truncated sha256 128);
    (HMAC_SHA384, Plain sha384);
    (HMAC_SHA384_192, Truncated sha384 192);
    (HMAC_SHA512, Plain sha512);
    (HMAC_SHA512_256, Truncated sha512 256);
    (HMAC_MD5, Plain md5) ].

(** Dictionary lookup with a name as the key: names hash and compare
    without regard to case. *)
Fixpoint dict_get {V} (d : list (Name * V)) (k : Name) : option V :=
  match d with
  | [] => None
  | (k', v) :: d' => if name_eqb k' k then Some v else dict_get d' k
  end.

(** The security context injected by the caller of the GSS engine: an
    object with two methods, either of which may raise. *)
Record GSSContext : Type := {
  get_signature : bytes -> Res bytes;
  verify_signature : bytes -> bytes -> Res Z
}.

(** What a key holds as its secret: raw bytes, or the security context. *)
Inductive Secret : Type :=
  | SecretBytes (b : bytes)
  | SecretContext (g : GSSContext).

Record Key : Type := {
  key_name : Name;
  key_secret : Secret;
  key_algorithm : Name
}.

(** The TSIG rdata.  [time_signed] is an integer on every record that was
    parsed from the wire; [None] is Python's None, which the constructor
    stores as it is given. *)
Record TSIG : Type := {
  rdclass : Z;
  rdtype : Z;
  algorithm : Name;
  time_signed : option Z;
  fudge : Z;
  mac : bytes;
  original_id : Z;
  error : Z;
  other : bytes
}.

(** Modelled from the spec: dns.rdtypes.ANY.TSIG is not under src/; the
    constructor keeps the fields of the record that [sign] produces ("the
    new TSIG record (with computed MAC)"). *)
Definition TSIG_init (rdclass rdtype : Z) (algorithm : Name)
    (time_signed : option Z) (fudge : Z) (mac : bytes)
    (original_id error : Z) (other : bytes) : TSIG :=
  {| rdclass := rdclass; rdtype := rdtype; algorithm := algorithm;
     time_signed := time_signed; fudge := fudge; mac := mac;
     original_id := original_id; error := error; other := other |}.

(** ** Engines *)

(** The state of an [HMACTSig]: the hmac context (its key, its hash and
    the bytes fed to it so far) and the truncation length. *)
Record HMACTSig : Type := {
  hmac_key : bytes;
  hmac_hash : HashAlg;
  hmac_fed : bytes;
  size : option Z
}.

Record GSSTSig : Type := {
  gssapi_context : Secret;
  data : bytes
}.

Inductive Engine : Type :=
  | EHMAC (e : HMACTSig)
  | EGSS (e : GSSTSig).

(** The bytes an engine has been fed since it was created. *)
Definition fed (e : Engine) : bytes :=
  match e with
  | EHMAC e => hmac_fed e
  | EGSS e => data e
  end.

Definition HMACTSig_update (e : HMACTSig) (d : bytes) : HMACTSig :=
  {| hmac_key := hmac_key e; hmac_hash := hmac_hash e;
     hmac_fed := hmac_fed e ++ d; size := size e |}.

Definition GSSTSig_update (e : GSSTSig) (d : bytes) : GSSTSig :=
  {| gssapi_context := gssapi_context e; data := data e ++ d |}.

Definition engine_update (e : Engine) (d : bytes) : Engine :=
  match e with
  | EHMAC e => EHMAC (HMACTSig_update e d)
  | EGSS e => EGSS (GSSTSig_update e d)
  end.

Definition GSSTSig_init (gssapi_context : Secret) : GSSTSig :=
  {| gssapi_context := gssapi_context; data := [] |}.

(** [GSSTSig.sign]: the call is passed on to the context; a secret that is
    not a context has no such method. *)
Definition GSSTSig_sign (e : GSSTSig) : Res bytes :=
  match gssapi_context e with
  | SecretContext g => get_signature g (data e)
  | SecretBytes _ => Err AttributeError
  end.

(** [GSSTSig.verify]: whatever the context returns is returned; an
    exception caught by [except Exception] becomes BadSignature. *)
Definition GSSTSig_verify (e : GSSTSig) (expected : bytes) : Res (option Z) :=
  let r := match gssapi_context e with
           | SecretContext g => verify_signature g (data e) expected
           | SecretBytes _ => Err AttributeError
           end in
  match r with
  | Ok v => Ok (Some v)
  | Err x => if is_Exception x then Err BadSignature else Err x
  end.

(** [HMACTSig.__init__]: the table is consulted first, then the hmac
    context is created, which needs a bytes key. *)
Definition HMACTSig_init (key : Secret) (algorithm : Name) : Res HMACTSig :=
  match dict_get _hashes algorithm with
  | None => Err (NotImplementedError algorithm)
  | Some hashinfo =>
      match key with
      | SecretContext _ => Err TypeError
      | SecretBytes k =>
          match hashinfo with
          | Truncated h bits =>
              Ok {| hmac_key := k; hmac_hash := h; hmac_fed := [];
                    size := Some bits |}
          | Plain h =>
              Ok {| hmac_key := k; hmac_hash := h; hmac_fed := [];
                    size := None |}
          end
      end
  end.

(** [hmac.compare_digest] on two byte strings: equal lengths and equal
    contents. *)
Definition compare_digest (a b : bytes) : bool := bytes_eqb a b.

(** ** The store of engines and the monad of the module's code *)

(** Engines live in a store and are named by their position in it; a
    digest context passed to or returned by a function is such a name, so
    that an update through one name is seen through every other. *)
Abbreviation Ref := nat (only parsing).
Abbreviation Store := (list Engine) (only parsing).

(** A computation reads and changes the store, and ends with a value or
    with a raised exception; the changes made before the exception stay. *)
Definition M (A : Type) : Type := Store -> Store * Res A.

Definition ret {A} (a : A) : M A := fun s => (s, Ok a).

Definition raise {A} (e : Exn) : M A := fun s => (s, Err e).

Definition bind {A B} (m : M A) (k : A -> M B) : M B :=
  fun s =>
    match m s with
    | (s', Ok a) => k a s'
    | (s', Err e) => (s', Err e)
    end.

(** A pure step that may raise. *)
Definition lift {A} (r : Res A) : M A := fun s => (s, r).

Notation "'do' x <- c ; k" := (bind c (fun x => k))
  (at level 10, x name, c at level 100, k at level 200,
   format "'[v' 'do'  x  <-  c ; '/' k ']'").
Notation "'run' c ; k" := (bind c (fun _ => k))
  (at level 10, c at level 100, k at level 200,
   format "'[v' 'run'  c ; '/' k ']'").

(** Creating an object: it is put at the end of the store. *)
Definition alloc (e : Engine) : M Ref :=
  fun s => (s ++ [e], Ok (length s)).

(** [ctx.update(data)] *)
Definition ctx_update (ctx : Ref) (d : bytes) : M unit :=
  fun s =>
    match s !! ctx with
    | Some e => (<[ctx := engine_update e d]> s, Ok tt)
    | None => (s, Err DanglingReference)
    end.

(** The result of running a computation, and the store it leaves. *)
Definition result {A} (r : Store * Res A) : Res A := snd r.
Definition final {A} (r : Store * Res A) : Store := fst r.

(** Arguments that the constructor of a key takes as text or as the
    object itself. *)
Inductive NameArg : Type :=
  | NameText (text : string)
  | NameObject (n : Name).

Inductive SecretArg : Type :=
  | SecretText (text : string)
  | SecretObject (s : Secret).

Section TSIG.

(** The two operations of Python's standard library that the module
    calls and that are not modelled further: the HMAC of a message under
    a key for a hash ([hmac.new(key, digestmod=h)], fed the message, then
    [digest()]), and [base64.decodebytes]. *)
Variable hmac_digest : HashAlg -> bytes -> bytes -> bytes.
Variable base64_decodebytes : bytes -> Res bytes.

(** [HMACTSig.sign] *)
Definition HMACTSig_sign (e : HMACTSig) : bytes :=
  let digest := hmac_digest (hmac_hash e) (hmac_key e) (hmac_fed e) in
  match size e with
  | Some n => if n =? 0 then digest else slice digest 0 (n / 8)
  | None => digest
  end.

(** [HMACTSig.verify] *)
Definition HMACTSig_verify (e : HMACTSig) (expected : bytes)
    : Res (option Z) :=
  let mac := HMACTSig_sign e in
  if negb (compare_digest mac expected) then Err BadSignature
  else Ok None.

Definition engine_sign (e : Engine) : Res bytes :=
  match e with
  | EHMAC e => Ok (HMACTSig_sign e)
  | EGSS e => GSSTSig_sign e
  end.

Definition engine_verify (e : Engine) (expected : bytes)
    : Res (option Z) :=
  match e with
  | EHMAC e => HMACTSig_verify e expected
  | EGSS e => GSSTSig_verify e expected
  end.

(** [ctx.sign()] *)
Definition ctx_sign (ctx : Ref) : M bytes :=
  fun s =>
    match s !! ctx with
    | Some e => (s, engine_sign e)
    | None => (s, Err DanglingReference)
    end.

(** [ctx.verify(expected)] *)
Definition ctx_verify (ctx : Ref) (expected : bytes) : M (option Z) :=
  fun s =>
    match s !! ctx with
    | Some e => (s, engine_verify e expected)
    | None => (s, Err DanglingReference)
    end.

Definition get_context (key : Key) : M Ref :=
  if name_eqb (key_algorithm key) GSS_TSIG
  then alloc (EGSS (GSSTSig_init (key_secret key)))
  else
    do e <- lift (HMACTSig_init (key_secret key) (key_algorithm key));
    alloc (EHMAC e).

(** Truth value of an optional byte string: None and the empty string
    are false. *)
Definition truthy (b : option bytes) : bool :=
  match b with
  | Some (_ :: _) => true
  | _ => false
  end.

Definition bytes_of (b : option bytes) : bytes :=
  match b with
  | Some b => b
  | None => []
  end.

(** The block under the first [if first:] of [_digest]: a new context,
    fed the request MAC when there is one. *)
Definition _digest_start (key : Key) (request_mac : option bytes)
    : M Ref :=
  do ctx <- get_context key;
  run (if truthy request_mac then
         do l <- lift (pack_H (len (bytes_of request_mac)));
         run ctx_update ctx l;
         ctx_update ctx (bytes_of request_mac)
       else ret tt);
  ret ctx.

(** [first = not (ctx and multi)]: an engine object is always true, so
    the context counts when one is passed and [multi] is true. *)
Definition _digest (wire : bytes) (key : Key) (rdata : TSIG)
    (time : option Z) (request_mac : option bytes) (ctx : option Ref)
    (multi : bool) : M Ref :=
  let first := negb (match ctx with Some _ => multi | None => false end) in
  do ctx <- match ctx with
            | Some c =>
                if multi then ret c else _digest_start key request_mac
            | None => _digest_start key request_mac
            end;
  do id <- lift (pack_H (original_id rdata));
  run ctx_update ctx id;
  run ctx_update ctx (slice_from wire 2);
  run (if first then
         run ctx_update ctx (to_digestable (key_name key));
         do c <- lift (pack_H rdataclass_ANY);
         run ctx_update ctx c;
         do t <- lift (pack_I 0);
         ctx_update ctx t
       else ret tt);
  let time := match time with Some _ => time | None => time_signed rdata end in
  do time <- lift (match time with Some t => Ok t | None => Err TypeError end);
  let upper_time := Z.land (Z.shiftr time 32) 65535 in
  let lower_time := Z.land time 4294967295 in
  do time_encoded <- lift (pack_HIH upper_time lower_time (fudge rdata));
  let other_len := len (other rdata) in
  run (if 65535 <? other_len then raise ValueError else ret tt);
  run (if first then
         run ctx_update ctx (to_digestable (key_algorithm key) ++ time_encoded);
         do eo <- lift (pack_HH (error rdata) other_len);
         ctx_update ctx (eo ++ other rdata)
       else ctx_update ctx time_encoded);
  ret ctx.

Definition _maybe_start_digest (key : Key) (mac : bytes) (multi : bool)
    : M (option Ref) :=
  if multi then
    do ctx <- get_context key;
    do l <- lift (pack_H (len mac));
    run ctx_update ctx l;
    run ctx_update ctx mac;
    ret (Some ctx)
  else ret None.

Definition sign (wire : bytes) (key : Key) (rdata : TSIG)
    (time : option Z) (request_mac : option bytes) (ctx : option Ref)
    (multi : bool) : M (TSIG * option Ref) :=
  do ctx <- _digest wire key rdata time request_mac ctx multi;
  do mac <- ctx_sign ctx;
  let tsig := TSIG_init rdataclass_ANY rdatatype_TSIG (key_algorithm key)
                time (fudge rdata) mac (original_id rdata) (error rdata)
                (other rdata) in
  do c <- _maybe_start_digest key mac multi;
  ret (tsig, c).

(** The exception that [validate] raises for a nonzero error code. *)
Definition peer_error (code : Z) : Exn :=
  if code =? BADSIG then PeerBadSignature
  else if code =? BADKEY then PeerBadKey
  else if code =? BADTIME then PeerBadTime
  else if code =? BADTRUNC then PeerBadTruncation
  else PeerError code.

Definition validate (wire : bytes) (key : Key) (owner : Name)
    (rdata : TSIG) (now : Z) (request_mac : option bytes)
    (tsig_start : Z) (ctx : option Ref) (multi : bool)
    : M (option Ref) :=
  do adcount <- lift (unpack_H (slice wire 10 12));
  run (if adcount =? 0 then raise FormError else ret tt);
  let adcount := adcount - 1 in
  do count <- lift (pack_H adcount);
  let new_wire := slice wire 0 10 ++ count ++ slice wire 12 tsig_start in
  run (if negb (error rdata =? 0) then raise (peer_error (error rdata))
       else ret tt);
  do signed <- lift (match time_signed rdata with
                     | Some t => Ok t
                     | None => Err TypeError
                     end);
  run (if fudge rdata <? Z.abs (signed - now) then raise BadTime
       else ret tt);
  run (if negb (name_eqb (key_name key) owner) then raise BadKey
       else ret tt);
  run (if negb (name_eqb (key_algorithm key) (algorithm rdata))
       then raise BadAlgorithm else ret tt);
  do ctx <- _digest new_wire key rdata None request_mac ctx multi;
  run ctx_verify ctx (mac rdata);
  _maybe_start_digest key (mac rdata) multi.

(** [Key.__init__]: text arguments are converted, nothing else is
    looked at. *)
Definition Key_init (name : NameArg) (secret : SecretArg)
    (algorithm : option NameArg) : Res Key :=
  match (match name with
         | NameText t => from_text t
         | NameObject n => Ok n
         end) with
  | Err e => Err e
  | Ok name =>
      match (match secret with
             | SecretText t =>
                 match base64_decodebytes (list_byte_of_string t) with
                 | Ok b => Ok (SecretBytes b)
                 | Err e => Err e
                 end
             | SecretObject s => Ok s
             end) with
      | Err e => Err e
      | Ok secret =>
          match (match algorithm with
                 | None => Ok default_algorithm
                 | Some (NameText t) => from_text t
                 | Some (NameObject n) => Ok n
                 end) with
          | Err e => Err e
          | Ok algorithm =>
              Ok {| key_name := name; key_secret := secret;
                    key_algorithm := algorithm |}
          end
      end
  end.

(** The last stage of [validate]: the digest is rebuilt, the MAC is
    verified, and a context for the next message is started. *)
Definition verification (new_wire : bytes) (key : Key) (rdata : TSIG)
    (request_mac : option bytes) (ctx : option nat) (multi : bool)
    : M (option nat) :=
  do ctx <- _digest new_wire key rdata None request_mac ctx multi;
  run ctx_verify ctx (mac rdata);
  _maybe_start_digest key (mac rdata) multi.

(** The wire that [validate] digests: the count of additional records
    one lower, and the part from the TSIG record on cut off. *)
Definition stripped_wire (wire : bytes) (adcount tsig_start : Z) : bytes :=
  slice wire 0 10 ++ be16 (adcount - 1) ++ slice wire 12 tsig_start.

End TSIG.

(** ** The byte streams of the digest, as the specification words them *)

(** The timestamp block: the upper 16 bits of the signing time, its lower
    32 bits, and the fudge. *)
Definition timestamp_block (time fudge : Z) : bytes :=
  be16 (Z.land (Z.shiftr time 32) 65535) ++ be32 (Z.land time 4294967295)
  ++ be16 fudge.

(** The wire with the original message ID put in place of its first two
    bytes. *)
Definition id_substituted_wire (rdata : TSIG) (wire : bytes) : bytes :=
  be16 (original_id rdata) ++ slice_from wire 2.

(** The request MAC with its length in front; nothing when there is no
    request MAC. *)
Definition length_prefixed_mac (request_mac : option bytes) : bytes :=
  if truthy request_mac
  then be16 (len (bytes_of request_mac)) ++ bytes_of request_mac
  else [].

(** What is digested for a continuation message. *)
Definition continuation_stream (wire : bytes) (rdata : TSIG) (time : Z)
    : bytes :=
  id_substituted_wire rdata wire ++ timestamp_block time (fudge rdata).

(** What is digested for the first message of a sequence. *)
Definition first_stream (wire : bytes) (key : Key) (rdata : TSIG) (time : Z)
    (request_mac : option bytes) : bytes :=
  length_prefixed_mac request_mac
  ++ id_substituted_wire rdata wire
  ++ to_digestable (key_name key)
  ++ be16 rdataclass_ANY
  ++ be32 0
  ++ to_digestable (key_algorithm key)
  ++ timestamp_block time (fudge rdata)
  ++ be16 (error rdata) ++ be16 (len (other rdata))
  ++ other rdata.

(** The engine that [get_context] creates for a key. *)
Definition new_engine (key : Key) : Res Engine :=
  if name_eqb (key_algorithm key) GSS_TSIG
  then Ok (EGSS (GSSTSig_init (key_secret key)))
  else match HMACTSig_init (key_secret key) (key_algorithm key) with
       | Ok e => Ok (EHMAC e)
       | Err x => Err x
       end.

(** Modelled from the spec: the message layer that appends the TSIG record
    is not under src/.  The signed message is the wire with "the
    additional-record count" one higher and the rendered record appended;
    the record begins where the unsigned wire ended. *)
Definition wire_with_tsig (wire tsig_record : bytes) : Res bytes :=
  match unpack_H (slice wire 10 12) with
  | Ok adcount =>
      match pack_H (adcount + 1) with
      | Ok count =>
          Ok (slice wire 0 10 ++ count ++ slice_from wire 12 ++ tsig_record)
      | Err e => Err e
      end
  | Err e => Err e
  end.

(** Flipping bit [i] of a byte, and of byte [j] of a byte string. *)
Definition flip_bit (i : nat) (b : byte) : byte :=
  byte_of_Z (Z.lxor (Z_of_byte b) (Z.shiftl 1 (Z.of_nat i))).

Definition flip_bit_at (j i : nat) (m : list byte) : list byte :=
  match m !! j with
  | Some b => <[j := flip_bit i b]> m
  | None => m
  end.

(** A computation that raises nothing but exceptions satisfying [P]. *)
Definition raises_only {A} (P : Exn -> Prop) (m : M A) : Prop :=
  forall s e, result (m s) = Err e -> P e.

(** The time that [_digest] encodes: the one given, else the one of the
    rdata. *)
Definition effective_time (time : option Z) (rdata : TSIG) : option Z :=
  match time with
  | Some _ => time
  | None => time_signed rdata
  end.

(** The fields of an rdata that [struct.pack] has to fit in 16 bits. *)
Definition packable (rdata : TSIG) : Prop :=
  0 <= original_id rdata < 65536 /\ 0 <= fudge rdata < 65536 /\
  0 <= error rdata < 65536 /\ len (other rdata) <= 65535.

(** The rdata with another MAC field. *)
Definition with_mac (rdata : TSIG) (m : bytes) : TSIG :=
  {| rdclass := rdclass rdata; rdtype := rdtype rdata;
     algorithm := algorithm rdata; time_signed := time_signed rdata;
     fudge := fudge rdata; mac := m; original_id := original_id rdata;
     error := error rdata; other := other rdata |}.

(** Whether [_digest] treats the message as the first of a sequence. *)
Definition is_first (ctx : option nat) (multi : bool) : bool :=
  negb (match ctx with Some _ => multi | None => false end).

(** The identifiers of the table that ask for the whole digest, and those
    that ask for a truncated one, with the length in bytes. *)
Definition untruncated : list (Name * HashAlg) :=
  [ (HMAC_SHA1, sha1); (HMAC_SHA224, sha224); (HMAC_SHA256, sha256);
    (HMAC_SHA384, sha384); (HMAC_SHA512, sha512); (HMAC_MD5, md5) ].

Definition truncated : list (Name * (HashAlg * nat)) :=
  [ (HMAC_SHA256_128, (sha256, 16%nat)); (HMAC_SHA384_192, (sha384, 24%nat));
    (HMAC_SHA512_256, (sha512, 32%nat)) ].

(** An HMAC engine of [key] and [algorithm] that was fed [chunks], one
    [update] per chunk. *)
Definition fed_engine (key : bytes) (algorithm : Name)
    (chunks : list bytes) : Res HMACTSig :=
  match HMACTSig_init (SecretBytes key) algorithm with
  | Ok e => Ok (fold_left HMACTSig_update chunks e)
  | Err x => Err x
  end.

(** The exceptions that creating an engine and feeding it can raise. *)
Definition digest_error (e : Exn) : Prop :=
  e = StructError \/ e = TypeError \/ e = ValueError \/
  (exists n, e = NotImplementedError n) \/ e = DanglingReference.

(** The exceptions that can leave an engine's [verify]. *)
Definition verify_error (e : Exn) : Prop :=
  e = BadSignature \/ is_Exception e = false.

(** ** Stand-ins for running the model *)

(** A keyed checksum of the right length, standing in for HMAC where the
    model is run on concrete inputs. *)
Definition checksum_mac (h : HashAlg) (k d : bytes) : bytes :=
  let sum := fold_left (fun a b => a + Z_of_byte b) (k ++ d) 7 in
  map (fun i => byte_of_Z (sum + Z.of_nat i)) (seq 0 (digest_size h)).

Definition plain_decodebytes (b : bytes) : Res bytes := Ok b.

(** A security context that fails on every call, and one that signs with
    a fixed token. *)
Definition failing_context : GSSContext :=
  {| get_signature := fun _ => Err (OtherException "expired");
     verify_signature := fun _ _ => Err (OtherException "expired") |}.

Definition fixed_context : GSSContext :=
  {| get_signature := fun _ => Ok [x2a];
     verify_signature := fun _ m =>
       if bytes_eqb m [x2a] then Ok 0 else Err (OtherException "bad token") |}.

Definition sample_wire : bytes :=
  [x12; x34; x01; x00; x00; x01; x00; x00; x00; x00; x00; x00;
   x03; x77; x77; x77; x00; x00; x01; x00; x01].

Definition sample_key : Key :=
  {| key_name := [label "key"; label "example"];
     key_secret := SecretBytes [x01; x02; x03];
     key_algorithm := HMAC_SHA256 |}.

Definition sample_rdata : TSIG :=
  {| rdclass := rdataclass_ANY; rdtype := rdatatype_TSIG;
     algorithm := HMAC_SHA256; time_signed := Some 1600000000;
     fudge := 300; mac := []; original_id := 4660; error := 0;
     other := [] |}.

(** The sample message as it arrives with a TSIG record behind it, and
    an rdata in which the peer reports that it does not know the key. *)
Definition sample_signed_wire : bytes :=
  [x12; x34; x01; x00; x00; x01; x00; x00; x00; x00; x00; x01;
   x03; x77; x77; x77; x00; x00; x01; x00; x01; xff].

Definition sample_peer_rdata : TSIG :=
  {| rdclass := rdataclass_ANY; rdtype := rdatatype_TSIG;
     algorithm := HMAC_SHA256; time_signed := Some 1600000000;
     fudge := 300; mac := []; original_id := 4660; error := BADKEY;
     other := [] |}.

Definition sample_engine : Engine :=
  EHMAC {| hmac_key := [x01; x02; x03]; hmac_hash := sha256;
           hmac_fed := [x00; x01; x2a]; size := None |}.

(** ** The rest of the module *)

(** [Key.__eq__].  The secrets are compared with Python's [==], which is
    byte-string equality on two byte strings and is up to the injected
    object otherwise; [secret_eq] stands for it. *)
Definition Key_eq (secret_eq : Secret -> Secret -> bool) (self other : Key)
    : bool :=
  name_eqb (key_name self) (key_name other)
  && secret_eq (key_secret self) (key_secret other)
  && name_eqb (key_algorithm self) (key_algorithm other).

(** Python's [==] on secrets where the injected contexts compare by
    identity and no two of them are the same object. *)
Definition bytes_secret_eq (a b : Secret) : bool :=
  match a, b with
  | SecretBytes x, SecretBytes y => bytes_eqb x y
  | _, _ => false
  end.

(** The record with another algorithm name. *)
Definition with_algorithm (rdata : TSIG) (n : Name) : TSIG :=
  {| rdclass := rdclass rdata; rdtype := rdtype rdata;
     algorithm := n; time_signed := time_signed rdata;
     fudge := fudge rdata; mac := mac rdata;
     original_id := original_id rdata;
     error := error rdata; other := other rdata |}.

(** The outcome of [sign] with the algorithm name of its record
    replaced. *)
Definition renamed (n : Name) (r : list Engine * Res (TSIG * option nat))
    : list Engine * Res (TSIG * option nat) :=
  match r with
  | (s, Ok (tsig, c)) => (s, Ok (with_algorithm tsig n, c))
  | (s, Err e) => (s, Err e)
  end.

(** A big-endian byte string as a number. *)
Definition be_decode (b : bytes) : Z :=
  fold_left (fun a x => a * 256 + Z_of_byte x) b 0.

(** The exceptions that can leave [validate]: those of its own checks,
    those of building the digest, and those of the engine's [verify]. *)
Definition validate_error (e : Exn) : Prop :=
  e = FormError \/ e = BadTime \/ e = BadKey \/ e = BadAlgorithm \/
  e = BadSignature \/
  e = PeerBadSignature \/ e = PeerBadKey \/ e = PeerBadTime \/
  e = PeerBadTruncation \/ (exists c, e = PeerError c) \/
  e = StructError \/ e = TypeError \/ e = ValueError \/
  (exists n, e = NotImplementedError n) \/
  is_Exception e = false.

(** *** Outcomes of [sign] and [validate] *)

(** The outcome of starting the next context behind a store. *)
Definition next_context (key : Key) (m : bytes) (multi : bool)
    (s : list Engine) : list Engine * Res (option nat) :=
  if multi then
    match new_engine key with
    | Err x => (s, Err x)
    | Ok e =>
        if in_range (len m) 65536
        then (s ++ [engine_update e (be16 (len m) ++ m)],
              Ok (Some (length s)))
        else (s ++ [e], Err StructError)
    end
  else (s, Ok None).

(** The outcome of [sign] once the digest has been built in engine [e1]
    of store [s1]. *)
Definition signed_outcome
    (hmac_digest : HashAlg -> bytes -> bytes -> bytes) (key : Key) (rdata : TSIG) (time : option Z)
    (multi : bool) (s1 : list Engine) (e1 : Engine)
    : list Engine * Res (TSIG * option nat) :=
  match engine_sign hmac_digest e1 with
  | Err x => (s1, Err x)
  | Ok m =>
      match next_context key m multi s1 with
      | (s2, Ok c) =>
          (s2, Ok (TSIG_init rdataclass_ANY rdatatype_TSIG
                     (key_algorithm key) time (fudge rdata) m
                     (original_id rdata) (error rdata) (other rdata), c))
      | (s2, Err x) => (s2, Err x)
      end
  end.

(** The outcome of [validate]'s last stage once the digest has been
    rebuilt in engine [e1] of store [s1]. *)
Definition verified_outcome
    (hmac_digest : HashAlg -> bytes -> bytes -> bytes) (key : Key) (rdata : TSIG) (multi : bool)
    (s1 : list Engine) (e1 : Engine) : list Engine * Res (option nat) :=
  match engine_verify hmac_digest e1 (mac rdata) with
  | Err x => (s1, Err x)
  | Ok _ => next_context key (mac rdata) multi s1
  end.

(** The checks of [validate] that come before the digest, all passed. *)
Definition checks_pass (key : Key) (owner : Name) (rdata : TSIG)
    (now : Z) (adcount : Z) : Prop :=
  1 <= adcount /\ error rdata = 0 /\
  (exists signed, time_signed rdata = Some signed /\
                  Z.abs (signed - now) <= fudge rdata) /\
  name_eqb (key_name key) owner = true /\
  name_eqb (key_algorithm key) (algorithm rdata) = true.

(** *** What a call leaves alone *)

(** From store [s] to store [s'], no engine was removed and every engine
    of [s] other than the one named by [spare] is in the state it had. *)
Definition untouched (spare : option nat) (s s' : list Engine) : Prop :=
  (length s <= length s')%nat /\
  forall i, (i < length s)%nat -> spare <> Some i -> s' !! i = s !! i.

(** A computation that, started in any store of at least [n] engines,
    leaves the first [n] alone apart from [spare], and whose value
    satisfies [Q]. *)
Definition keeps {A} (n : nat) (spare : option nat) (Q : A -> Prop)
    (m : M A) : Prop :=
  forall s, (n <= length s)%nat ->
    (n <= length (final (m s)))%nat /\
    (forall i, (i < n)%nat -> spare <> Some i ->
               final (m s) !! i = s !! i) /\
    (forall a, result (m s) = Ok a -> Q a).

(** The context that a call may feed: the one passed, when it counts. *)
Definition fed_context (ctx : option nat) (multi : bool) : option nat :=
  if is_first ctx multi then None else ctx.

(** *** [GSSTSigAdapter] *)

(** What a keyring holds under a name: a [Key], or something else (a raw
    secret). *)
Inductive KeyringEntry : Type :=
  | EntryKey (k : Key)
  | EntryRaw (secret : bytes).

(** The outcome of [message.find_rrset(message.answer, keyname, ANY,
    TKEY)]: the rrset, as the [key] fields of its rdatas; KeyError when
    the message has no such rrset; or another exception. *)
Inductive Found : Type :=
  | FoundRRset (tokens : list bytes)
  | FoundKeyError
  | FoundRaised (e : Exn).

(** The outcome of [gssapi_context.step(token)]: a value, KeyError, or
    another exception. *)
Inductive Stepped : Type :=
  | StepValue (v : Z)
  | StepKeyError
  | StepRaised (e : Exn).

Section Adapter.

(** Modelled as parameters: dns.message is not under src/, and the
    security context is the caller's object. *)
Variable Message : Type.
Variable find_rrset : Message -> Name -> Found.
Variable step : Secret -> bytes -> Stepped.

(** [GSSTSigAdapter.parse_tkey_and_step]: the tokens handed to [step],
    in order, and the value returned or the exception raised.  The whole
    body is under [try: ... except KeyError: pass]. *)
Definition parse_tkey_and_step (key : Key) (message : Message)
    (keyname : Name) : list bytes * Res (option Z) :=
  match find_rrset message keyname with
  | FoundKeyError => ([], Ok None)
  | FoundRaised e => ([], Err e)
  | FoundRRset [] => ([], Ok None)
  | FoundRRset (token :: _) =>
      match step (key_secret key) token with
      | StepValue v => ([token], Ok (Some v))
      | StepKeyError => ([token], Ok None)
      | StepRaised e => ([token], Err e)
      end
  end.

(** [GSSTSigAdapter.__call__]; [message] is None or a message. *)
Definition GSSTSigAdapter_call (keyring : list (Name * KeyringEntry))
    (message : option Message) (keyname : Name)
    : list bytes * Res (option KeyringEntry) :=
  match dict_get keyring keyname with
  | Some key =>
      match key, message with
      | EntryKey k, Some m =>
          if name_eqb (key_algorithm k) GSS_TSIG then
            match parse_tkey_and_step k m keyname with
            | (tokens, Ok _) => (tokens, Ok (Some key))
            | (tokens, Err e) => (tokens, Err e)
            end
          else ([], Ok (Some key))
      | _, _ => ([], Ok (Some key))
      end
  | None => ([], Ok None)
  end.

End Adapter.

(** More sample data. *)
Definition sample_wire2 : bytes :=
  [x56; x78; x81; x00; x00; x01; x00; x01; x00; x00; x00; x00;
   x03; x77; x77; x77; x00; x00; x01; x00; x01; x0a; x00; x00; x01].

Definition sample_gss_key : Key :=
  {| key_name := [label "gss"; label "example"];
     key_secret := SecretContext fixed_context;
     key_algorithm := GSS_TSIG |}.

Definition sample_hmac_engine : HMACTSig :=
  {| hmac_key := [x01; x02; x03]; hmac_hash := sha256;
     hmac_fed := []; size := None |}.

(** A message as the TKEY tokens of its answer section by owner name,
    and a context whose [step] accepts every token. *)
Definition sample_message : list (Name * list bytes) :=
  [ ([label "gss"; label "example"], [[x0a; x0b]; [x0c]]) ].

Definition sample_find_rrset (m : list (Name * list bytes)) (n : Name)
    : Found :=
  match dict_get m n with
  | Some tokens => FoundRRset tokens
  | None => FoundKeyError
  end.

Definition sample_step (_ : Secret) (token : bytes) : Stepped :=
  StepValue (len token).

Definition sample_keyring : list (Name * KeyringEntry) :=
  [ ([label "key"; label "example"], EntryKey sample_key);
    ([label "gss"; label "example"], EntryKey sample_gss_key);
    ([label "raw"], EntryRaw [x01]) ].

(** The sample key spelled in another case. *)
Definition sample_key_upper : Key :=
  {| key_name := [label "KEY"; label "Example"];
     key_secret := SecretBytes [x01; x02; x03];
     key_algorithm := [label "HMAC-SHA256"] |}.


(** * Properties *)

(** ** Bytes and struct *)

Lemma Z_of_byte_range (b : byte) : 0 <= Z_of_byte b < 256.
Proof.
  unfold Z_of_byte. pose proof (Byte.to_N_bounded b) as H.
  lia.
Qed.

Lemma byte_of_Z_of_byte (b : byte) : byte_of_Z (Z_of_byte b) = b.
Proof.
  unfold byte_of_Z. pose proof (Z_of_byte_range b) as H.
  rewrite Z.mod_small by lia. unfold Z_of_byte. rewrite N2Z.id.
  now rewrite Byte.of_to_N.
Qed.

Lemma Z_of_byte_of_Z (z : Z) : Z_of_byte (byte_of_Z z) = z mod 256.
Proof.
  unfold byte_of_Z, Z_of_byte.
  pose proof (Z.mod_pos_bound z 256 ltac:(lia)) as H.
  destruct (Byte.of_N (Z.to_N (z mod 256))) as [b|] eqn:E.
  - apply Byte.to_of_N in E. rewrite E. lia.
  - apply Byte.of_N_None_iff in E. lia.
Qed.

Lemma bytes_eqb_eq (a b : bytes) : bytes_eqb a b = true <-> a = b.
Proof.
  revert b. induction a as [|x a IH]; intros [|y b]; simpl; split;
    try congruence; try discriminate; auto.
  - intros H. apply andb_prop in H as [H1 H2].
    apply Byte.byte_dec_bl in H1. apply IH in H2. congruence.
  - intros H. injection H as -> ->. apply andb_true_intro. split.
    + now apply Byte.byte_dec_lb.
    + now apply IH.
Qed.

Lemma bytes_eqb_refl (a : bytes) : bytes_eqb a a = true.
Proof. now apply bytes_eqb_eq. Qed.

Lemma bytes_eqb_neq (a b : bytes) : bytes_eqb a b = false <-> a <> b.
Proof.
  pose proof (bytes_eqb_eq a b) as H.
  destruct (bytes_eqb a b); split; intros; try congruence.
  - exfalso. apply H0. now apply H.
  - intros E. apply H in E. discriminate.
Qed.

Lemma labels_eqb_eq (a b : list Label) : labels_eqb a b = true <-> a = b.
Proof.
  revert b. induction a as [|x a IH]; intros [|y b]; simpl; split;
    try congruence; try discriminate; auto.
  - intros H. apply andb_prop in H as [H1 H2].
    apply bytes_eqb_eq in H1. apply IH in H2. congruence.
  - intros H. injection H as -> ->. apply andb_true_intro. split.
    + apply bytes_eqb_refl.
    + now apply IH.
Qed.

Lemma name_eqb_canonical (a b : Name) :
  name_eqb a b = true <-> canonical a = canonical b.
Proof. unfold name_eqb. apply labels_eqb_eq. Qed.

Lemma name_eqb_refl (a : Name) : name_eqb a a = true.
Proof. now apply name_eqb_canonical. Qed.

Lemma name_eqb_sym (a b : Name) : name_eqb a b = name_eqb b a.
Proof.
  destruct (name_eqb a b) eqn:E1, (name_eqb b a) eqn:E2; auto.
  - apply name_eqb_canonical in E1. symmetry in E1.
    apply name_eqb_canonical in E1. congruence.
  - apply name_eqb_canonical in E2. symmetry in E2.
    apply name_eqb_canonical in E2. congruence.
Qed.

(** Names that compare equal are looked up alike in a dictionary. *)
Lemma name_eqb_right (k a b : Name) :
  name_eqb a b = true -> name_eqb k a = name_eqb k b.
Proof.
  intros H. apply name_eqb_canonical in H. unfold name_eqb. now rewrite H.
Qed.

Lemma dict_get_name_eqb {V} (d : list (Name * V)) (a b : Name) :
  name_eqb a b = true -> dict_get d a = dict_get d b.
Proof.
  intros H. induction d as [|[k v] d IH]; simpl; auto.
  rewrite (name_eqb_right k a b H). now rewrite IH.
Qed.

Lemma in_range_true (v n : Z) : 0 <= v < n -> in_range v n = true.
Proof. intros H. unfold in_range. apply andb_true_intro. split; lia. Qed.

Lemma in_range_spec (v n : Z) : in_range v n = true <-> 0 <= v < n.
Proof.
  unfold in_range. rewrite andb_true_iff, Z.leb_le, Z.ltb_lt. tauto.
Qed.

Lemma pack_H_ok (v : Z) : 0 <= v < 65536 -> pack_H v = Ok (be16 v).
Proof. intros H. unfold pack_H. now rewrite in_range_true. Qed.

Lemma pack_I_ok (v : Z) : 0 <= v < 4294967296 -> pack_I v = Ok (be32 v).
Proof. intros H. unfold pack_I. now rewrite in_range_true. Qed.

Lemma pack_HH_ok (a b : Z) :
  0 <= a < 65536 -> 0 <= b < 65536 -> pack_HH a b = Ok (be16 a ++ be16 b).
Proof. intros Ha Hb. unfold pack_HH. now rewrite !in_range_true. Qed.

Lemma land_ones_range (v n : Z) : 0 <= n -> 0 <= Z.land v (Z.ones n) < 2 ^ n.
Proof. intros H. rewrite Z.land_ones by lia. apply Z.mod_pos_bound. lia. Qed.

Lemma pack_HIH_time (t f : Z) :
  0 <= f < 65536 ->
  pack_HIH (Z.land (Z.shiftr t 32) 65535) (Z.land t 4294967295) f
  = Ok (timestamp_block t f).
Proof.
  intros Hf. unfold pack_HIH, timestamp_block.
  pose proof (land_ones_range (Z.shiftr t 32) 16 ltac:(lia)) as H1.
  pose proof (land_ones_range t 32 ltac:(lia)) as H2.
  change (Z.ones 16) with 65535 in H1. change (Z.ones 32) with 4294967295 in H2.
  change (2 ^ 16) with 65536 in H1. change (2 ^ 32) with 4294967296 in H2.
  now rewrite !in_range_true.
Qed.

Lemma unpack_H_range (b : bytes) (n : Z) :
  unpack_H b = Ok n -> 0 <= n < 65536.
Proof.
  destruct b as [|hi [|lo [|x b]]]; simpl; try discriminate.
  intros H. injection H as <-.
  pose proof (Z_of_byte_range hi). pose proof (Z_of_byte_range lo). lia.
Qed.

Lemma be16_unpack (hi lo : byte) :
  be16 (Z_of_byte hi * 256 + Z_of_byte lo) = [hi; lo].
Proof.
  pose proof (Z_of_byte_range hi) as Hh. pose proof (Z_of_byte_range lo) as Hl.
  unfold be16. change 255 with (Z.ones 8).
  rewrite Z.land_ones, Z.shiftr_div_pow2 by lia. change (2 ^ 8) with 256.
  replace ((Z_of_byte hi * 256 + Z_of_byte lo) / 256) with (Z_of_byte hi)
    by (apply Z.div_unique with (r := Z_of_byte lo); lia).
  replace ((Z_of_byte hi * 256 + Z_of_byte lo) mod 256) with (Z_of_byte lo)
    by (apply Z.mod_unique with (q := Z_of_byte hi); lia).
  now rewrite !byte_of_Z_of_byte.
Qed.

(** Packing the count that was unpacked gives the two bytes back. *)
Lemma pack_unpack_H (b : bytes) (n : Z) :
  unpack_H b = Ok n -> be16 n = b.
Proof.
  destruct b as [|hi [|lo [|x b]]]; simpl; try discriminate.
  intros H. injection H as <-. apply be16_unpack.
Qed.

Lemma unpack_be16 (v : Z) : 0 <= v < 65536 -> unpack_H (be16 v) = Ok v.
Proof.
  intros H. unfold be16, unpack_H. f_equal. rewrite !Z_of_byte_of_Z.
  change 255 with (Z.ones 8).
  rewrite Z.land_ones, Z.shiftr_div_pow2 by lia. change (2 ^ 8) with 256.
  rewrite Z.mod_mod by lia.
  rewrite (Z.mod_small (v / 256)).
  - pose proof (Z.div_mod v 256 ltac:(lia)). lia.
  - split; [apply Z.div_pos; lia | apply Z.div_lt_upper_bound; lia].
Qed.

(** ** Running the monad *)

Lemma bind_ok {A B} (m : M A) (k : A -> M B) s s' a :
  m s = (s', Ok a) -> bind m k s = k a s'.
Proof. intros H. unfold bind. now rewrite H. Qed.

Lemma bind_err {A B} (m : M A) (k : A -> M B) s s' e :
  m s = (s', Err e) -> bind m k s = (s', Err e).
Proof. intros H. unfold bind. now rewrite H. Qed.

Lemma fed_engine_update (e : Engine) (d : bytes) :
  fed (engine_update e d) = fed e ++ d.
Proof. now destruct e. Qed.

Lemma engine_update_app (e : Engine) (a b : bytes) :
  engine_update (engine_update e a) b = engine_update e (a ++ b).
Proof.
  destruct e as [e|e]; simpl; unfold HMACTSig_update, GSSTSig_update; simpl;
    now rewrite app_assoc.
Qed.

Lemma engine_update_nil (e : Engine) : engine_update e [] = e.
Proof.
  destruct e as [[]|[]]; simpl; unfold HMACTSig_update, GSSTSig_update;
    simpl; now rewrite app_nil_r.
Qed.

Lemma get_context_new (key : Key) (s : list Engine) :
  get_context key s =
  match new_engine key with
  | Ok e => (s ++ [e], Ok (length s))
  | Err x => (s, Err x)
  end.
Proof.
  unfold get_context, new_engine.
  destruct (name_eqb (key_algorithm key) GSS_TSIG); [reflexivity|].
  unfold bind, lift, alloc.
  now destruct (HMACTSig_init (key_secret key) (key_algorithm key)).
Qed.

(** A new engine has been fed nothing. *)
Lemma new_engine_fed (key : Key) (e : Engine) :
  new_engine key = Ok e -> fed e = [].
Proof.
  unfold new_engine, HMACTSig_init.
  destruct (name_eqb _ _); [intros H; injection H as <-; reflexivity|].
  destruct (dict_get _ _) as [[h|h n]|]; [| |discriminate];
    destruct (key_secret key); try discriminate;
    intros H; injection H as <-; reflexivity.
Qed.

Lemma ctx_update_last (s : list Engine) (e : Engine) (d : bytes) :
  ctx_update (length s) d (s ++ [e]) = (s ++ [engine_update e d], Ok tt).
Proof.
  unfold ctx_update.
  rewrite lookup_app_r by lia. rewrite Nat.sub_diag. simpl.
  rewrite insert_app_r_alt by lia. now rewrite Nat.sub_diag.
Qed.

Lemma ctx_update_insert (s : list Engine) (c : nat) (e : Engine) (d : bytes) :
  (c < length s)%nat ->
  ctx_update c d (<[c:=e]> s) = (<[c:=engine_update e d]> s, Ok tt).
Proof.
  intros H. unfold ctx_update.
  rewrite list_lookup_insert_eq by lia.
  now rewrite list_insert_insert_eq.
Qed.

(** ** What [_digest] feeds *)

Lemma _digest_start_ok (key : Key) (rm : option bytes) (s : list Engine)
    (e : Engine) :
  new_engine key = Ok e ->
  len (bytes_of rm) < 65536 ->
  _digest_start key rm s
  = (s ++ [engine_update e (length_prefixed_mac rm)], Ok (length s)).
Proof.
  intros He Hrm. unfold _digest_start.
  unfold bind at 1. rewrite get_context_new, He.
  unfold length_prefixed_mac. destruct (truthy rm).
  - unfold bind, lift, ret. rewrite pack_H_ok by (unfold len in *; lia).
    rewrite !ctx_update_last. now rewrite engine_update_app.
  - unfold bind, ret. now rewrite engine_update_nil.
Qed.

Lemma _digest_first (wire : bytes) (key : Key) (rdata : TSIG)
    (time : option Z) (rm : option bytes) (ctx : option nat) (multi : bool)
    (s : list Engine) (e : Engine) (t : Z) :
  match ctx with Some _ => multi | None => false end = false ->
  new_engine key = Ok e ->
  effective_time time rdata = Some t ->
  len (bytes_of rm) < 65536 ->
  packable rdata ->
  _digest wire key rdata time rm ctx multi s
  = (s ++ [engine_update e (first_stream wire key rdata t rm)],
     Ok (length s)).
Proof.
  intros Hfirst He Ht Hrm (Hid & Hf & Herr & Hother).
  unfold effective_time in Ht.
  unfold _digest. rewrite Hfirst, Ht. simpl negb. cbv iota.
  assert (Hs : forall k : nat -> M nat,
    bind (match ctx with
          | Some c => if multi then ret c else _digest_start key rm
          | None => _digest_start key rm
          end) k s
    = k (length s) (s ++ [engine_update e (length_prefixed_mac rm)])).
  { intros k. pose proof (_digest_start_ok key rm s e He Hrm) as H.
    destruct ctx as [c|]; [destruct multi; [discriminate|]|];
      apply (bind_ok _ _ _ _ _ H). }
  rewrite Hs. unfold bind, lift, ret, raise.
  rewrite (pack_H_ok (original_id rdata)) by lia.
  rewrite !ctx_update_last.
  unfold rdataclass_ANY at 1. rewrite pack_H_ok, pack_I_ok by lia.
  rewrite !ctx_update_last.
  rewrite pack_HIH_time by lia.
  replace (65535 <? len (other rdata)) with false
    by (symmetry; apply Z.ltb_ge; lia).
  rewrite !ctx_update_last.
  rewrite pack_HH_ok by (unfold len in *; lia).
  rewrite !ctx_update_last, !engine_update_app.
  unfold first_stream, id_substituted_wire, rdataclass_ANY.
  repeat rewrite <- app_assoc. reflexivity.
Qed.

Lemma _digest_continuation (wire : bytes) (key : Key) (rdata : TSIG)
    (time : option Z) (rm : option bytes) (c : nat) (s : list Engine)
    (e : Engine) (t : Z) :
  s !! c = Some e ->
  effective_time time rdata = Some t ->
  0 <= original_id rdata < 65536 ->
  0 <= fudge rdata < 65536 ->
  len (other rdata) <= 65535 ->
  _digest wire key rdata time rm (Some c) true s
  = (<[c := engine_update e (continuation_stream wire rdata t)]> s, Ok c).
Proof.
  intros Hc Ht Hid Hf Hother. unfold effective_time in Ht.
  pose proof (lookup_lt_Some _ _ _ Hc) as Hlt.
  unfold _digest. rewrite Ht. simpl negb. cbv iota.
  rewrite <- (list_insert_id s c e Hc) at 1.
  unfold bind, lift, ret, raise.
  rewrite (pack_H_ok (original_id rdata)) by lia.
  rewrite !ctx_update_insert by lia.
  rewrite pack_HIH_time by lia.
  replace (65535 <? len (other rdata)) with false
    by (symmetry; apply Z.ltb_ge; lia).
  rewrite !ctx_update_insert by lia.
  rewrite !engine_update_app.
  unfold continuation_stream, id_substituted_wire.
  repeat rewrite <- app_assoc. reflexivity.
Qed.

(** ** The engines *)

Lemma slice_prefix (b : bytes) (n : Z) :
  0 <= n -> slice b 0 n = firstn (Z.to_nat n) b.
Proof.
  intros Hn. unfold slice, slice_index, len.
  assert (Hn' : (n <? 0) = false) by (apply Z.ltb_ge; lia). rewrite Hn'.
  change (0 <? 0) with false. cbv iota.
  rewrite (Z.min_l 0) by lia. simpl skipn. rewrite Z.sub_0_r.
  destruct (Z.le_gt_cases n (Z.of_nat (length b))) as [Hle|Hgt].
  - now rewrite Z.min_l by lia.
  - rewrite Z.min_r by lia. rewrite Nat2Z.id.
    rewrite !firstn_all2; auto; lia.
Qed.

Lemma fold_update_fields (chunks : list bytes) (e : HMACTSig) :
  fold_left HMACTSig_update chunks e
  = {| hmac_key := hmac_key e; hmac_hash := hmac_hash e;
       hmac_fed := hmac_fed e ++ concat chunks; size := size e |}.
Proof.
  revert e. induction chunks as [|c chunks IH]; intros e; simpl.
  - rewrite app_nil_r. now destruct e.
  - rewrite IH. simpl. now rewrite app_assoc.
Qed.

Lemma flip_bit_neq (i : nat) (b : byte) : (i < 8)%nat -> flip_bit i b <> b.
Proof.
  intros Hi.
  do 8 (destruct i as [|i]; [destruct b; vm_compute; discriminate|]).
  lia.
Qed.

Lemma flip_bit_at_neq (j i : nat) (m : list byte) :
  (j < length m)%nat -> (i < 8)%nat -> flip_bit_at j i m <> m.
Proof.
  intros Hj Hi. unfold flip_bit_at.
  destruct (lookup_lt_is_Some_2 m j Hj) as [b Hb]. rewrite Hb.
  intros E. apply (f_equal (fun l => l !! j)) in E.
  rewrite list_lookup_insert_eq in E by lia. rewrite Hb in E.
  injection E as E. now apply (flip_bit_neq i b).
Qed.

Lemma flip_bit_at_length (j i : nat) (m : list byte) :
  length (flip_bit_at j i m) = length m.
Proof.
  unfold flip_bit_at. destruct (m !! j); auto. apply length_insert.
Qed.

Section Engines.

Context (hmac_digest : HashAlg -> bytes -> bytes -> bytes).

(** hashlib's primitives return digests of their native length. *)
Hypothesis hmac_digest_length :
  forall h k d, length (hmac_digest h k d) = digest_size h.

Lemma HMACTSig_sign_truncated (k d : bytes) (h : HashAlg) (n : Z) :
  0 < n ->
  HMACTSig_sign hmac_digest
    {| hmac_key := k; hmac_hash := h; hmac_fed := d; size := Some n |}
  = firstn (Z.to_nat (n / 8)) (hmac_digest h k d).
Proof.
  intros Hn. unfold HMACTSig_sign. cbn [size hmac_key hmac_hash hmac_fed].
  replace (n =? 0) with false by (symmetry; apply Z.eqb_neq; lia).
  apply slice_prefix. apply Z.div_pos; lia.
Qed.

(** C6.  Whatever bytes an HMAC engine was fed, [sign] returns the first
    16 bytes of the SHA-256 digest for hmac-sha256-128, the first 24 of
    the SHA-384 digest for hmac-sha384-192 and the first 32 of the
    SHA-512 digest for hmac-sha512-256, of exactly that length; for
    every other identifier of the table it returns the whole digest, of
    the native length of the primitive. *)
Theorem hmac_sign_length (key : bytes) (algorithm : Name)
    (chunks : list bytes) :
  (forall n h bytelen,
      In (n, (h, bytelen)) truncated ->
      name_eqb algorithm n = true ->
      exists e,
        fed_engine key algorithm chunks = Ok e /\
        HMACTSig_sign hmac_digest e
        = firstn bytelen (hmac_digest h key (concat chunks)) /\
        length (HMACTSig_sign hmac_digest e) = bytelen) /\
  (forall n h,
      In (n, h) untruncated ->
      name_eqb algorithm n = true ->
      exists e,
        fed_engine key algorithm chunks = Ok e /\
        HMACTSig_sign hmac_digest e = hmac_digest h key (concat chunks) /\
        length (HMACTSig_sign hmac_digest e) = digest_size h).
Proof using hmac_digest_length.
  split.
  - intros n h bytelen Hin Hn. unfold fed_engine, HMACTSig_init.
    rewrite (dict_get_name_eqb _hashes algorithm n Hn).
    simpl in Hin.
    destruct Hin as [H|[H|[H|[]]]]; injection H as <- <- <-;
      (eexists; split; [reflexivity|]);
      rewrite fold_update_fields; cbn [size hmac_key hmac_hash hmac_fed];
      rewrite HMACTSig_sign_truncated by lia;
      (split; [reflexivity|]);
      rewrite length_firstn, hmac_digest_length; reflexivity.
  - intros n h Hin Hn. unfold fed_engine, HMACTSig_init.
    rewrite (dict_get_name_eqb _hashes algorithm n Hn).
    simpl in Hin.
    destruct Hin as [H|[H|[H|[H|[H|[H|[]]]]]]]; injection H as <- <-;
      (eexists; split; [reflexivity|]);
      rewrite fold_update_fields; unfold HMACTSig_sign; simpl;
      (split; [reflexivity|]); apply hmac_digest_length.
Qed.

(** C8.  Whatever bytes an HMAC engine was fed, [verify(expected)]
    raises BadSignature exactly when [expected] is not the digest that
    [sign] recomputes, returns normally when it is, rejects a candidate
    of another length, and rejects the produced MAC with any one bit
    flipped. *)
Theorem hmac_verify_iff (e0 : HMACTSig) (chunks : list bytes)
    (expected : bytes) :
  let e := fold_left HMACTSig_update chunks e0 in
  let mac := HMACTSig_sign hmac_digest e in
  (HMACTSig_verify hmac_digest e expected = Err BadSignature
   <-> expected <> mac) /\
  (HMACTSig_verify hmac_digest e expected = Ok None <-> expected = mac) /\
  (length expected <> length mac ->
   HMACTSig_verify hmac_digest e expected = Err BadSignature) /\
  (forall j i : nat,
      (j < length mac)%nat -> (i < 8)%nat ->
      HMACTSig_verify hmac_digest e (flip_bit_at j i mac)
      = Err BadSignature).
Proof.
  intros e mac.
  assert (Hv : forall x,
    HMACTSig_verify hmac_digest e x
    = if bytes_eqb mac x then Ok None else Err BadSignature).
  { intros x. unfold HMACTSig_verify, compare_digest. fold mac.
    now destruct (bytes_eqb mac x). }
  assert (Hne : forall x, x <> mac ->
    HMACTSig_verify hmac_digest e x = Err BadSignature).
  { intros x Hx. rewrite Hv.
    destruct (bytes_eqb mac x) eqn:E; auto.
    apply bytes_eqb_eq in E. congruence. }
  repeat split.
  - intros H E. rewrite Hv, E, bytes_eqb_refl in H. discriminate.
  - apply Hne.
  - rewrite Hv. destruct (bytes_eqb mac expected) eqn:E; [|discriminate].
    intros _. symmetry. now apply bytes_eqb_eq.
  - intros ->. now rewrite Hv, bytes_eqb_refl.
  - intros Hlen. apply Hne. congruence.
  - intros j i Hj Hi. apply Hne. now apply flip_bit_at_neq.
Qed.

End Engines.

(** C9, as the code has it.  While the GSS engine verifies, every
    exception of the security context that [except Exception] catches
    becomes BadSignature, so that the only exceptions that leave [verify]
    are BadSignature and those outside the Exception hierarchy; a value
    the context returns is returned.  While the engine signs, an
    exception of the context leaves [sign] as it is. *)
Theorem gss_verify_normalizes (g : GSSContext) (d expected : bytes) :
  let e := {| gssapi_context := SecretContext g; data := d |} in
  (forall x, verify_signature g d expected = Err x ->
             is_Exception x = true ->
             GSSTSig_verify e expected = Err BadSignature) /\
  (forall v, verify_signature g d expected = Ok v ->
             GSSTSig_verify e expected = Ok (Some v)) /\
  (forall x, GSSTSig_verify e expected = Err x ->
             x = BadSignature \/ is_Exception x = false) /\
  (forall x, get_signature g d = Err x -> GSSTSig_sign e = Err x).
Proof.
  intros e. unfold GSSTSig_verify, GSSTSig_sign. simpl.
  repeat split.
  - intros x -> Hx. now rewrite Hx.
  - now intros v ->.
  - intros x. destruct (verify_signature g d expected) as [v|y];
      [discriminate|].
    destruct (is_Exception y) eqn:Hy; intros H; injection H as <-; auto.
  - now intros x ->.
Qed.

(** C9 as stated fails: a fault of the security context during [sign] is
    not turned into BadSignature. *)
Lemma gss_sign_fault_not_normalized :
  ~ (forall (g : GSSContext) (d : bytes) (x : Exn),
        get_signature g d = Err x ->
        GSSTSig_sign {| gssapi_context := SecretContext g; data := d |}
        = Err BadSignature).
Proof.
  intros H.
  specialize (H failing_context [] (OtherException "expired") eq_refl).
  discriminate H.
Qed.

(** ** Which exceptions a computation can raise *)

Lemma raises_only_ret {A} (P : Exn -> Prop) (a : A) : raises_only P (ret a).
Proof. intros s e H. discriminate H. Qed.

Lemma raises_only_raise {A} (P : Exn -> Prop) (x : Exn) :
  P x -> raises_only P (@raise A x).
Proof. intros Hx s e H. injection H as <-. exact Hx. Qed.

Lemma raises_only_lift {A} (P : Exn -> Prop) (r : Res A) :
  (forall e, r = Err e -> P e) -> raises_only P (lift r).
Proof. intros Hr s e H. apply Hr. exact H. Qed.

Lemma raises_only_bind {A B} (P : Exn -> Prop) (m : M A) (k : A -> M B) :
  raises_only P m -> (forall a, raises_only P (k a)) ->
  raises_only P (bind m k).
Proof.
  intros Hm Hk s e. unfold bind, result.
  destruct (m s) as [s' [a|x]] eqn:E.
  - apply Hk.
  - simpl. intros H. injection H as <-. apply (Hm s). unfold result.
    now rewrite E.
Qed.

Lemma raises_only_weaken {A} (P Q : Exn -> Prop) (m : M A) :
  (forall e, P e -> Q e) -> raises_only P m -> raises_only Q m.
Proof. intros H Hm s e He. apply H. now apply (Hm s). Qed.

Lemma raises_only_ctx_update (P : Exn -> Prop) (c : nat) (d : bytes) :
  P DanglingReference -> raises_only P (ctx_update c d).
Proof.
  intros HP s e. unfold ctx_update, result.
  destruct (s !! c); simpl; [discriminate|]. intros H. now injection H as <-.
Qed.

Lemma pack_H_err (v : Z) (e : Exn) : pack_H v = Err e -> e = StructError.
Proof. unfold pack_H. destruct (in_range _ _); congruence. Qed.

Lemma pack_I_err (v : Z) (e : Exn) : pack_I v = Err e -> e = StructError.
Proof. unfold pack_I. destruct (in_range _ _); congruence. Qed.

Lemma pack_HH_err (a b : Z) (e : Exn) :
  pack_HH a b = Err e -> e = StructError.
Proof. unfold pack_HH. destruct (_ && _); congruence. Qed.

Lemma pack_HIH_err (a b c : Z) (e : Exn) :
  pack_HIH a b c = Err e -> e = StructError.
Proof. unfold pack_HIH. destruct (_ && _); congruence. Qed.

Lemma HMACTSig_init_err (k : Secret) (n : Name) (e : Exn) :
  HMACTSig_init k n = Err e -> e = NotImplementedError n \/ e = TypeError.
Proof.
  unfold HMACTSig_init. destruct (dict_get _ _) as [[h|h b]|];
    destruct k; intros H; try discriminate; injection H as <-; auto.
Qed.

Lemma raises_only_get_context (key : Key) :
  raises_only digest_error (get_context key).
Proof.
  intros s e. rewrite get_context_new. unfold new_engine, result.
  destruct (name_eqb _ _); [discriminate|].
  destruct (HMACTSig_init _ _) eqn:E; [discriminate|].
  simpl. intros H. injection H as <-.
  apply HMACTSig_init_err in E as [->| ->]; unfold digest_error; eauto 6.
Qed.

Ltac raises_step :=
  first
    [ apply raises_only_ret
    | apply raises_only_ctx_update; unfold digest_error; tauto
    | apply raises_only_get_context
    | apply raises_only_raise; unfold digest_error; tauto
    | apply raises_only_lift;
      let e := fresh "e" in
      let H := fresh "H" in
      intros e H;
      first [ apply pack_H_err in H | apply pack_I_err in H
            | apply pack_HH_err in H | apply pack_HIH_err in H
            | repeat match type of H with
                     | context [match ?x with _ => _ end] => destruct x
                     end;
              first [ discriminate H | injection H as H; symmetry in H ] ];
      unfold digest_error; tauto
    | apply raises_only_bind; [|intros ?]
    | match goal with
      | |- raises_only _ (if ?b then _ else _) => destruct b
      | |- raises_only _ (match ?x with _ => _ end) => destruct x
      end ].

Lemma raises_only__digest (wire : bytes) (key : Key) (rdata : TSIG)
    (time : option Z) (rm : option bytes) (ctx : option nat) (multi : bool) :
  raises_only digest_error (_digest wire key rdata time rm ctx multi).
Proof.
  unfold _digest, _digest_start. cbv zeta.
  repeat raises_step.
Qed.

Lemma raises_only__maybe_start_digest (key : Key) (m : bytes) (multi : bool) :
  raises_only digest_error (_maybe_start_digest key m multi).
Proof.
  unfold _maybe_start_digest. repeat raises_step.
Qed.

(** ** [validate] *)

Section Validation.

Context (hmac_digest : HashAlg -> bytes -> bytes -> bytes).

Lemma ctx_sign_last (s : list Engine) (e : Engine) :
  ctx_sign hmac_digest (length s) (s ++ [e])
  = (s ++ [e], engine_sign hmac_digest e).
Proof.
  unfold ctx_sign. rewrite lookup_app_r by lia.
  now rewrite Nat.sub_diag.
Qed.

Lemma ctx_verify_last (s : list Engine) (e : Engine) (expected : bytes) :
  ctx_verify hmac_digest (length s) expected (s ++ [e])
  = (s ++ [e], engine_verify hmac_digest e expected).
Proof.
  unfold ctx_verify. rewrite lookup_app_r by lia.
  now rewrite Nat.sub_diag.
Qed.

Lemma validate_unfold (wire : bytes) (key : Key) (owner : Name)
    (rdata : TSIG) (now : Z) (rm : option bytes) (tsig_start : Z)
    (ctx : option nat) (multi : bool) (s : list Engine) (adcount : Z) :
  unpack_H (slice wire 10 12) = Ok adcount ->
  validate hmac_digest wire key owner rdata now rm tsig_start ctx multi s
  = if adcount =? 0 then (s, Err FormError)
    else if negb (error rdata =? 0)
    then (s, Err (peer_error (error rdata)))
    else match time_signed rdata with
         | None => (s, Err TypeError)
         | Some signed =>
             if fudge rdata <? Z.abs (signed - now) then (s, Err BadTime)
             else if negb (name_eqb (key_name key) owner)
             then (s, Err BadKey)
             else if negb (name_eqb (key_algorithm key) (algorithm rdata))
             then (s, Err BadAlgorithm)
             else verification hmac_digest (stripped_wire wire adcount tsig_start)
                    key rdata rm ctx multi s
         end.
Proof.
  intros Hu. pose proof (unpack_H_range _ _ Hu) as Hr.
  unfold validate. unfold bind at 1. unfold lift at 1. rewrite Hu.
  unfold bind at 1. destruct (adcount =? 0) eqn:E0; [reflexivity|].
  apply Z.eqb_neq in E0. unfold ret at 1.
  unfold bind at 1. unfold lift at 1. rewrite pack_H_ok by lia.
  unfold bind at 1. destruct (negb (error rdata =? 0)); [reflexivity|].
  unfold ret at 1. unfold bind at 1. unfold lift at 1.
  destruct (time_signed rdata) as [signed|]; [|reflexivity].
  unfold bind at 1.
  destruct (fudge rdata <? Z.abs (signed - now)); [reflexivity|].
  unfold ret at 1. unfold bind at 1.
  destruct (negb (name_eqb (key_name key) owner)); [reflexivity|].
  unfold ret at 1. unfold bind at 1.
  destruct (negb (name_eqb (key_algorithm key) (algorithm rdata)));
    [reflexivity|].
  reflexivity.
Qed.

Lemma raises_only_ctx_verify (c : nat) (expected : bytes) :
  raises_only verify_error (ctx_verify hmac_digest c expected).
Proof.
  intros s e. unfold ctx_verify, result, verify_error.
  destruct (s !! c) as [[h|g]|]; simpl.
  - unfold HMACTSig_verify. destruct (negb _); [|discriminate].
    intros H. injection H as <-. now left.
  - unfold GSSTSig_verify.
    destruct (match gssapi_context g with
              | SecretBytes _ => Err AttributeError
              | SecretContext g0 => verify_signature g0 (data g) expected
              end) as [v|x]; [discriminate|].
    destruct (is_Exception x) eqn:Hx; intros H; injection H as <-; auto.
  - intros H. injection H as <-. now right.
Qed.

Lemma raises_only_verification (new_wire : bytes) (key : Key)
    (rdata : TSIG) (rm : option bytes) (ctx : option nat) (multi : bool) :
  raises_only (fun e => digest_error e \/ verify_error e)
    (verification hmac_digest new_wire key rdata rm ctx multi).
Proof.
  unfold verification.
  apply raises_only_bind.
  - eapply raises_only_weaken; [|apply raises_only__digest]. tauto.
  - intros c. apply raises_only_bind.
    + eapply raises_only_weaken; [|apply raises_only_ctx_verify]. tauto.
    + intros _. eapply raises_only_weaken;
        [|apply raises_only__maybe_start_digest]. tauto.
Qed.

(** C1.  With the count of additional records read from the wire,
    [validate] checks in this order, the first failing check raising its
    error and leaving every engine untouched: the count is at least one
    (FormError); the error code of the rdata is zero (else the peer error
    of the code: BADSIG, BADKEY, BADTIME, BADTRUNC, or the generic one);
    the time skew is within the fudge (BadTime); the owner is the key
    name (BadKey); the algorithm is the key's (BadAlgorithm); only then
    is the digest rebuilt and the MAC verified, and what the engine's
    [verify] raises on the rebuilt digest is what [validate] raises.  With
    a nonzero error code the peer error is raised whatever the MAC field
    holds. *)
Theorem validate_check_order (wire : bytes) (key : Key) (owner : Name)
    (rdata : TSIG) (now : Z) (rm : option bytes) (tsig_start : Z)
    (ctx : option nat) (multi : bool) (s : list Engine) (adcount : Z) :
  unpack_H (slice wire 10 12) = Ok adcount ->
  let v rdata :=
    validate hmac_digest wire key owner rdata now rm tsig_start ctx multi s
  in
  (adcount < 1 -> v rdata = (s, Err FormError)) /\
  (1 <= adcount -> error rdata = BADSIG ->
   v rdata = (s, Err PeerBadSignature)) /\
  (1 <= adcount -> error rdata = BADKEY -> v rdata = (s, Err PeerBadKey)) /\
  (1 <= adcount -> error rdata = BADTIME ->
   v rdata = (s, Err PeerBadTime)) /\
  (1 <= adcount -> error rdata = BADTRUNC ->
   v rdata = (s, Err PeerBadTruncation)) /\
  (1 <= adcount -> error rdata <> 0 ->
   error rdata <> BADSIG -> error rdata <> BADKEY ->
   error rdata <> BADTIME -> error rdata <> BADTRUNC ->
   v rdata = (s, Err (PeerError (error rdata)))) /\
  (1 <= adcount -> error rdata <> 0 ->
   forall m, v (with_mac rdata m) = v rdata /\
             exists e, v rdata = (s, Err e) /\
                       (e = PeerBadSignature \/ e = PeerBadKey \/
                        e = PeerBadTime \/ e = PeerBadTruncation \/
                        e = PeerError (error rdata))) /\
  (forall signed,
      1 <= adcount -> error rdata = 0 -> time_signed rdata = Some signed ->
      (fudge rdata < Z.abs (signed - now) -> v rdata = (s, Err BadTime)) /\
      (Z.abs (signed - now) <= fudge rdata ->
       name_eqb (key_name key) owner = false ->
       v rdata = (s, Err BadKey)) /\
      (Z.abs (signed - now) <= fudge rdata ->
       name_eqb (key_name key) owner = true ->
       name_eqb (key_algorithm key) (algorithm rdata) = false ->
       v rdata = (s, Err BadAlgorithm)) /\
      (Z.abs (signed - now) <= fudge rdata ->
       name_eqb (key_name key) owner = true ->
       name_eqb (key_algorithm key) (algorithm rdata) = true ->
       v rdata
       = verification hmac_digest (stripped_wire wire adcount tsig_start)
           key rdata rm ctx multi s) /\
      (forall e x,
          Z.abs (signed - now) <= fudge rdata ->
          name_eqb (key_name key) owner = true ->
          name_eqb (key_algorithm key) (algorithm rdata) = true ->
          is_first ctx multi = true ->
          new_engine key = Ok e ->
          len (bytes_of rm) < 65536 ->
          packable rdata ->
          let e' := engine_update e
                      (first_stream (stripped_wire wire adcount tsig_start)
                         key rdata signed rm) in
          engine_verify hmac_digest e' (mac rdata) = Err x ->
          v rdata = (s ++ [e'], Err x))).
Proof.
  intros Hu v. pose proof (unpack_H_range _ _ Hu) as Hr.
  assert (Hv : forall r, v r = _) by
    (intros r; exact (validate_unfold wire key owner r now rm tsig_start
                        ctx multi s adcount Hu)).
  assert (Hpeer : forall r, 1 <= adcount -> error r <> 0 ->
                    v r = (s, Err (peer_error (error r)))).
  { intros r Ha He. rewrite Hv.
    replace (adcount =? 0) with false by (symmetry; apply Z.eqb_neq; lia).
    now replace (error r =? 0) with false
      by (symmetry; apply Z.eqb_neq; lia). }
  repeat split.
  - intros Ha. rewrite Hv. now replace adcount with 0 by lia.
  - intros Ha He. rewrite Hpeer by (rewrite ?He; easy). now rewrite He.
  - intros Ha He. rewrite Hpeer by (rewrite ?He; easy). now rewrite He.
  - intros Ha He. rewrite Hpeer by (rewrite ?He; easy). now rewrite He.
  - intros Ha He. rewrite Hpeer by (rewrite ?He; easy). now rewrite He.
  - intros Ha H0 H1 H2 H3 H4. rewrite Hpeer by assumption.
    unfold peer_error.
    repeat match goal with
           | |- context [?a =? ?b] =>
               replace (a =? b) with false
                 by (symmetry; apply Z.eqb_neq; assumption)
           end.
    reflexivity.
  - rewrite !Hpeer by assumption. reflexivity.
  - exists (peer_error (error rdata)). split; [now apply Hpeer|].
    unfold peer_error.
    repeat match goal with
           | |- context [if ?b then _ else _] => destruct b; [tauto|]
           end.
    tauto.
  - intros Hskew. rewrite Hv.
    replace (adcount =? 0) with false by (symmetry; apply Z.eqb_neq; lia).
    rewrite H0, H1. simpl negb. cbv iota.
    now replace (fudge rdata <? Z.abs (signed - now)) with true
      by (symmetry; apply Z.ltb_lt; lia).
  - intros Hskew Hn. rewrite Hv.
    replace (adcount =? 0) with false by (symmetry; apply Z.eqb_neq; lia).
    rewrite H0, H1. simpl negb. cbv iota.
    replace (fudge rdata <? Z.abs (signed - now)) with false
      by (symmetry; apply Z.ltb_ge; lia).
    now rewrite Hn.
  - intros Hskew Hn Ha. rewrite Hv.
    replace (adcount =? 0) with false by (symmetry; apply Z.eqb_neq; lia).
    rewrite H0, H1. simpl negb. cbv iota.
    replace (fudge rdata <? Z.abs (signed - now)) with false
      by (symmetry; apply Z.ltb_ge; lia).
    now rewrite Hn, Ha.
  - intros Hskew Hn Ha. rewrite Hv.
    replace (adcount =? 0) with false by (symmetry; apply Z.eqb_neq; lia).
    rewrite H0, H1. simpl negb. cbv iota.
    replace (fudge rdata <? Z.abs (signed - now)) with false
      by (symmetry; apply Z.ltb_ge; lia).
    now rewrite Hn, Ha.
  - intros e x Hskew Hn Ha Hf He Hrm Hp e' Hx. rewrite Hv.
    replace (adcount =? 0) with false by (symmetry; apply Z.eqb_neq; lia).
    rewrite H0, H1. simpl negb. cbv iota.
    replace (fudge rdata <? Z.abs (signed - now)) with false
      by (symmetry; apply Z.ltb_ge; lia).
    rewrite Hn, Ha. simpl negb. cbv iota. unfold verification.
    assert (Hd : _digest (stripped_wire wire adcount tsig_start) key rdata
                   None rm ctx multi s = (s ++ [e'], Ok (length s))).
    { apply _digest_first; auto.
      unfold is_first in Hf. now destruct ctx, multi. }
    rewrite (bind_ok _ _ _ _ _ Hd).
    apply bind_err. now rewrite ctx_verify_last, Hx.
Qed.

(** C7.  Once the count of additional records and the error code have
    passed, [validate] raises BadTime exactly when the distance between
    the signing time and [now] is greater than the fudge: at a distance
    of exactly the fudge the time check passes, one second further it
    raises BadTime. *)
Theorem validate_bad_time_iff (wire : bytes) (key : Key) (owner : Name)
    (rdata : TSIG) (now : Z) (rm : option bytes) (tsig_start : Z)
    (ctx : option nat) (multi : bool) (s : list Engine)
    (adcount signed : Z) :
  unpack_H (slice wire 10 12) = Ok adcount ->
  1 <= adcount ->
  error rdata = 0 ->
  time_signed rdata = Some signed ->
  let v :=
    validate hmac_digest wire key owner rdata now rm tsig_start ctx multi s
  in
  (result v = Err BadTime <-> fudge rdata < Z.abs (signed - now)) /\
  (Z.abs (signed - now) = fudge rdata -> result v <> Err BadTime) /\
  (Z.abs (signed - now) = fudge rdata + 1 -> v = (s, Err BadTime)).
Proof.
  intros Hu Ha He Ht v.
  assert (Hv : v = _) by
    exact (validate_unfold wire key owner rdata now rm tsig_start
             ctx multi s adcount Hu).
  replace (adcount =? 0) with false in Hv
    by (symmetry; apply Z.eqb_neq; lia).
  rewrite He, Ht in Hv. simpl negb in Hv. cbv iota in Hv.
  assert (Hiff : result v = Err BadTime
                 <-> fudge rdata < Z.abs (signed - now)).
  { split.
    - intros Hr. destruct (fudge rdata <? Z.abs (signed - now)) eqn:E;
        [now apply Z.ltb_lt|]. exfalso.
      rewrite Hv in Hr.
      destruct (negb (name_eqb (key_name key) owner)); [discriminate|].
      destruct (negb (name_eqb (key_algorithm key) (algorithm rdata)));
        [discriminate|].
      apply raises_only_verification in Hr.
      destruct Hr as [[H|[H|[H|[[n H]|H]]]]|[H|H]]; discriminate.
    - intros Hlt. rewrite Hv.
      now replace (fudge rdata <? Z.abs (signed - now)) with true
        by (symmetry; apply Z.ltb_lt; lia). }
  split; [exact Hiff|]. split.
  - intros Heq Hr. apply Hiff in Hr. lia.
  - intros Heq. rewrite Hv.
    now replace (fudge rdata <? Z.abs (signed - now)) with true
      by (symmetry; apply Z.ltb_lt; lia).
Qed.

End Validation.

(** ** First messages and continuations *)

(** C3.  For a continuation message (an open context passed together
    with [multi]) [_digest] feeds that context exactly the original
    message ID, the wire from offset 2 and the timestamp block, and
    touches no other engine.  For a first message it feeds a new engine
    the length-prefixed request MAC (when there is one), the original
    message ID and the wire from offset 2, the key name, class ANY, a zero
    TTL, the algorithm name, the timestamp block, the error code, the
    length of the other data and the other data, in that order. *)
Theorem digest_feeds (wire : bytes) (key : Key) (rdata : TSIG)
    (time : option Z) (rm : option bytes) (s : list Engine) (t : Z) :
  effective_time time rdata = Some t ->
  0 <= original_id rdata < 65536 ->
  0 <= fudge rdata < 65536 ->
  len (other rdata) <= 65535 ->
  (forall c e,
      s !! c = Some e ->
      exists e',
        _digest wire key rdata time rm (Some c) true s = (<[c := e']> s, Ok c)
        /\ e' = engine_update e
                  ((be16 (original_id rdata) ++ slice_from wire 2)
                   ++ timestamp_block t (fudge rdata))
        /\ fed e' = fed e
                    ++ (be16 (original_id rdata) ++ slice_from wire 2)
                    ++ (be16 (Z.land (Z.shiftr t 32) 65535)
                        ++ be32 (Z.land t 4294967295)
                        ++ be16 (fudge rdata))) /\
  (forall ctx multi e,
      is_first ctx multi = true ->
      new_engine key = Ok e ->
      len (bytes_of rm) < 65536 ->
      0 <= error rdata < 65536 ->
      exists e',
        _digest wire key rdata time rm ctx multi s
        = (s ++ [e'], Ok (length s))
        /\ fed e' = length_prefixed_mac rm
                    ++ (be16 (original_id rdata) ++ slice_from wire 2)
                    ++ to_digestable (key_name key)
                    ++ be16 rdataclass_ANY
                    ++ be32 0
                    ++ to_digestable (key_algorithm key)
                    ++ timestamp_block t (fudge rdata)
                    ++ be16 (error rdata)
                    ++ be16 (len (other rdata))
                    ++ other rdata).
Proof.
  intros Ht Hid Hf Hother. split.
  - intros c e Hc. eexists. split; [|split; [reflexivity|]].
    + now apply _digest_continuation with (t := t).
    + now rewrite fed_engine_update.
  - intros ctx multi e Hfirst He Hrm Herr. eexists. split.
    + apply _digest_first with (t := t); try assumption.
      * unfold is_first in Hfirst. now destruct ctx, multi.
      * exact He.
      * unfold packable. tauto.
    + rewrite fed_engine_update, (new_engine_fed key e He).
      rewrite app_nil_l. reflexivity.
Qed.

(** Runs a first-message digest through all its outcomes. *)
Ltac run_first s :=
  unfold bind, lift, ret, raise;
  repeat first
    [ rewrite ctx_update_last
    | match goal with
      | |- context [match ?x with _ => _ end] =>
          lazymatch x with
          | context [match _ with _ => _ end] => fail
          | _ => destruct x
          end
      end ];
  simpl; try (exists []; now rewrite app_nil_r); eauto.

(** A first-message digest leaves the engines of the store as they are,
    whatever its outcome. *)
Lemma _digest_first_store (wire : bytes) (key : Key) (rdata : TSIG)
    (time : option Z) (rm : option bytes) (ctx : option nat) (multi : bool)
    (s : list Engine) :
  is_first ctx multi = true ->
  exists ext, final (_digest wire key rdata time rm ctx multi s) = s ++ ext.
Proof.
  intros Hfirst.
  assert (H0 : _digest wire key rdata time rm ctx multi s
               = _digest wire key rdata time rm None false s).
  { unfold is_first in Hfirst. destruct ctx as [c|]; [|reflexivity].
    destruct multi; [discriminate|reflexivity]. }
  rewrite H0. clear H0 Hfirst.
  unfold _digest, _digest_start, final. cbv zeta. simpl negb. cbv iota.
  unfold bind at 1. unfold bind at 1. rewrite get_context_new.
  destruct (new_engine key) as [e|x];
    [|exists []; now rewrite app_nil_r].
  run_first s.
Qed.

(** ** [sign], [validate] and the key *)

Section Orchestration.

Context (hmac_digest : HashAlg -> bytes -> bytes -> bytes).
Context (base64_decodebytes : bytes -> Res bytes).

(** The record that [sign] returns carries the [time] argument as it
    was passed. *)
Lemma sign_record_time (wire : bytes) (key : Key) (rdata : TSIG)
    (time : option Z) (rm : option bytes) (ctx : option nat)
    (multi : bool) (s : list Engine) (tsig : TSIG) (c : option nat) :
  result (sign hmac_digest wire key rdata time rm ctx multi s)
  = Ok (tsig, c) ->
  time_signed tsig = time.
Proof.
  unfold sign, result, bind, ret.
  destruct (_digest _ _ _ _ _ _ _ _) as [s1 [r|x]]; [|discriminate].
  destruct (ctx_sign _ _ _) as [s2 [m|x]]; [|discriminate].
  destruct (_maybe_start_digest _ _ _ _) as [s3 [o|x]]; [|discriminate].
  simpl. intros H. now injection H as <- _.
Qed.

(** C2, as the code has it.  The constructor of a key does not look at
    the algorithm: any name, given as an object or as text that parses,
    is stored.  The unsupported-algorithm error comes from creating an
    engine: for a key whose algorithm is neither gss-tsig nor in the
    table, [get_context] raises it, and so do [sign] on a first message
    and [validate] on a first message that has passed the five checks.
    For a key whose algorithm is gss-tsig or in the table, creating an
    engine never raises it. *)
Theorem unsupported_algorithm_at_engine_creation (name : Name)
    (secret : Secret) (alg : Name) :
  let key := {| key_name := name; key_secret := secret;
                key_algorithm := alg |} in
  Key_init base64_decodebytes (NameObject name) (SecretObject secret)
    (Some (NameObject alg)) = Ok key /\
  (forall text,
      from_text text = Ok alg ->
      Key_init base64_decodebytes (NameObject name) (SecretObject secret)
        (Some (NameText text)) = Ok key) /\
  (name_eqb alg GSS_TSIG = false ->
   dict_get _hashes alg = None ->
   forall s,
     get_context key s = (s, Err (NotImplementedError alg)) /\
     (forall wire rdata time rm ctx multi,
         is_first ctx multi = true ->
         sign hmac_digest wire key rdata time rm ctx multi s
         = (s, Err (NotImplementedError alg))) /\
     (forall wire rdata now rm tsig_start ctx multi adcount signed,
         is_first ctx multi = true ->
         unpack_H (slice wire 10 12) = Ok adcount ->
         1 <= adcount ->
         error rdata = 0 ->
         time_signed rdata = Some signed ->
         Z.abs (signed - now) <= fudge rdata ->
         name_eqb alg (algorithm rdata) = true ->
         validate hmac_digest wire key name rdata now rm tsig_start
           ctx multi s
         = (s, Err (NotImplementedError alg)))) /\
  (name_eqb alg GSS_TSIG = true \/ dict_get _hashes alg <> None ->
   raises_only (fun e => forall n, e <> NotImplementedError n)
     (get_context key)).
Proof.
  intros key.
  split; [reflexivity|]. split.
  { intros text Ht. unfold Key_init. now rewrite Ht. }
  split.
  - intros Hg Hd s.
    assert (Hnew : new_engine key = Err (NotImplementedError alg)).
    { unfold new_engine, HMACTSig_init, key.
      cbn [key_algorithm key_secret]. now rewrite Hg, Hd. }
    assert (Hget : get_context key s = (s, Err (NotImplementedError alg)))
      by now rewrite get_context_new, Hnew.
    assert (Hdig : forall wire rdata time rm ctx multi,
               is_first ctx multi = true ->
               _digest wire key rdata time rm ctx multi s
               = (s, Err (NotImplementedError alg))).
    { intros wire rdata time rm ctx multi Hf.
      assert (Hst : _digest_start key rm s
                    = (s, Err (NotImplementedError alg)))
        by (unfold _digest_start; now apply bind_err).
      unfold _digest. apply bind_err.
      unfold is_first in Hf. destruct ctx as [c|]; [|exact Hst].
      destruct multi; [discriminate|exact Hst]. }
    split; [exact Hget|]. split.
    + intros wire rdata time rm ctx multi Hf. unfold sign.
      apply bind_err. now apply Hdig.
    + intros wire rdata now rm tsig_start ctx multi adcount signed
        Hf Hu Ha He Ht Hskew Halg.
      rewrite (validate_unfold hmac_digest wire key name rdata now rm
                 tsig_start ctx multi s adcount Hu).
      replace (adcount =? 0) with false
        by (symmetry; apply Z.eqb_neq; lia).
      rewrite He, Ht. simpl negb. cbv iota.
      replace (fudge rdata <? Z.abs (signed - now)) with false
        by (symmetry; apply Z.ltb_ge; lia).
      simpl key_name. simpl key_algorithm.
      rewrite name_eqb_refl, Halg. simpl negb. cbv iota.
      unfold verification. apply bind_err. now apply Hdig.
  - intros Hsup s e. rewrite get_context_new. unfold new_engine, result.
    simpl key_algorithm. simpl key_secret.
    destruct (name_eqb alg GSS_TSIG) eqn:Hg; [discriminate|].
    destruct Hsup as [Hsup|Hsup]; [discriminate|].
    unfold HMACTSig_init.
    destruct (dict_get _hashes alg) as [[h|h b]|]; [| |congruence];
      destruct secret; simpl; intros H; try discriminate;
      injection H as <-; discriminate.
Qed.

End Orchestration.

(** C2 as stated fails: a key with an unrecognized algorithm name is
    constructed, and it is [sign] that raises the unsupported-algorithm
    error. *)
Lemma key_with_unknown_algorithm_constructed :
  exists key,
    Key_init plain_decodebytes (NameText "key.example")
      (SecretObject (SecretBytes [x01; x02; x03]))
      (Some (NameText "hmac-sha3-256")) = Ok key /\
    result (sign checksum_mac sample_wire key sample_rdata
              (Some 1600000000) None None false [])
    = Err (NotImplementedError [label "hmac-sha3-256"]).
Proof. eexists. split; reflexivity. Qed.

(** C4 on a concrete call.  With the signing time omitted the MAC is
    computed over the time of the rdata, but the record that [sign]
    returns carries no time at all; validating that record fails on the
    missing time. *)
Theorem sign_time_omitted_record :
  exists tsig s' signed_wire,
    sign checksum_mac sample_wire sample_key sample_rdata None None None
      false [] = (s', Ok (tsig, None)) /\
    time_signed sample_rdata = Some 1600000000 /\
    mac tsig = checksum_mac sha256 [x01; x02; x03]
                 (first_stream sample_wire sample_key sample_rdata
                    1600000000 None) /\
    time_signed tsig = None /\
    time_signed tsig <> time_signed sample_rdata /\
    wire_with_tsig sample_wire [] = Ok signed_wire /\
    result (validate checksum_mac signed_wire sample_key
              (key_name sample_key) tsig 1600000000 None
              (len sample_wire) None false [])
    = Err TypeError.
Proof.
  eexists. eexists. eexists. split; [vm_compute; reflexivity|].
  split; [reflexivity|]. split; [reflexivity|]. split; [reflexivity|].
  split; [discriminate|]. split; [vm_compute; reflexivity|].
  vm_compute. reflexivity.
Qed.

(** ** Signing, then validating *)

Lemma slice_in_range (b : bytes) (lo hi : Z) :
  0 <= lo <= hi -> hi <= len b ->
  slice b lo hi = take (Z.to_nat (hi - lo)) (drop (Z.to_nat lo) b).
Proof.
  intros Hlo Hhi. unfold slice, slice_index.
  replace (lo <? 0) with false by (symmetry; apply Z.ltb_ge; lia).
  replace (hi <? 0) with false by (symmetry; apply Z.ltb_ge; lia).
  now rewrite !Z.min_l by lia.
Qed.

Lemma slice_from_in_range (b : bytes) (lo : Z) :
  0 <= lo <= len b -> slice_from b lo = drop (Z.to_nat lo) b.
Proof.
  intros Hlo. unfold slice_from, slice_index.
  replace (lo <? 0) with false by (symmetry; apply Z.ltb_ge; lia).
  now rewrite Z.min_l by lia.
Qed.

Lemma length_slice_le (b : bytes) (lo hi : Z) :
  (length (slice b lo hi) <= length b)%nat.
Proof.
  unfold slice. rewrite length_take, length_drop. lia.
Qed.

(** The message with the TSIG record appended carries a count one higher,
    and stripping the record gives the unsigned wire back. *)
Lemma signed_wire_stripped (wire tsig_record : bytes) (adcount : Z) :
  12 <= len wire ->
  unpack_H (slice wire 10 12) = Ok adcount ->
  adcount < 65535 ->
  exists w,
    wire_with_tsig wire tsig_record = Ok w /\
    unpack_H (slice w 10 12) = Ok (adcount + 1) /\
    stripped_wire w (adcount + 1) (len wire) = wire.
Proof.
  intros Hlen Hu Hmax. pose proof (unpack_H_range _ _ Hu) as Hr.
  unfold len in Hlen.
  set (a := take 10 wire). set (m := take 2 (drop 10 wire)).
  set (c := drop 12 wire).
  assert (Hw : wire = a ++ m ++ c).
  { unfold a, m, c. rewrite <- (take_drop 10 wire) at 1. f_equal.
    rewrite <- (take_drop 2 (drop 10 wire)) at 1. f_equal.
    now rewrite drop_drop. }
  assert (Ha : length a = 10%nat) by (unfold a; rewrite length_take; lia).
  assert (Hm : length m = 2%nat)
    by (unfold m; rewrite length_take, length_drop; lia).
  assert (Hc : length c = (length wire - 12)%nat)
    by (unfold c; now rewrite length_drop).
  assert (Hs1 : slice wire 10 12 = m)
    by (rewrite slice_in_range by (unfold len; lia); reflexivity).
  assert (Hs0 : slice wire 0 10 = a)
    by (rewrite slice_in_range by (unfold len; lia); reflexivity).
  assert (Hs2 : slice_from wire 12 = c)
    by (rewrite slice_from_in_range by (unfold len; lia); reflexivity).
  unfold wire_with_tsig. rewrite Hu, pack_H_ok by lia.
  rewrite Hs0, Hs2.
  set (w := a ++ be16 (adcount + 1) ++ c ++ tsig_record).
  assert (Hwl : length w = (length wire + length tsig_record)%nat).
  { unfold w. rewrite !length_app, Ha, Hc. simpl. lia. }
  exists w. split; [reflexivity|].
  assert (Hd10 : drop 10 w = be16 (adcount + 1) ++ c ++ tsig_record)
    by (unfold w; now apply drop_app_length').
  assert (Hd12 : drop 12 w = c ++ tsig_record)
    by (change 12%nat with (10 + 2)%nat; rewrite <- drop_drop, Hd10;
        reflexivity).
  split.
  - rewrite slice_in_range by (unfold len; lia).
    change (Z.to_nat 10) with 10%nat. rewrite Hd10.
    change (Z.to_nat (12 - 10)) with 2%nat. simpl take.
    apply unpack_be16. lia.
  - unfold stripped_wire.
    rewrite !slice_in_range by (unfold len; lia).
    change (Z.to_nat 12) with 12%nat. rewrite Hd12.
    replace (Z.to_nat (len wire - 12)) with (length c)
      by (rewrite Hc; unfold len; lia).
    rewrite take_app_length.
    change (Z.to_nat (10 - 0)) with 10%nat. change (Z.to_nat 0) with 0%nat.
    rewrite drop_0. unfold w. rewrite take_app_length' by (now rewrite Ha).
    replace (adcount + 1 - 1) with adcount by lia.
    rewrite (pack_unpack_H _ _ Hu), Hs1. symmetry. exact Hw.
Qed.

Lemma table_key_not_gss (alg : Name) (v : HashInfo) :
  dict_get _hashes alg = Some v -> name_eqb alg GSS_TSIG = false.
Proof.
  intros H. destruct (name_eqb alg GSS_TSIG) eqn:E; [|reflexivity].
  rewrite (dict_get_name_eqb _hashes alg GSS_TSIG E) in H. discriminate H.
Qed.

Lemma _maybe_start_digest_ok (key : Key) (m : bytes) (s : list Engine)
    (e : Engine) :
  new_engine key = Ok e ->
  len m < 65536 ->
  _maybe_start_digest key m true s
  = (s ++ [engine_update e (be16 (len m) ++ m)], Ok (Some (length s))).
Proof.
  intros He Hm. unfold _maybe_start_digest.
  unfold bind at 1. rewrite get_context_new, He.
  unfold bind, lift, ret. rewrite pack_H_ok by (unfold len in *; lia).
  now rewrite !ctx_update_last, engine_update_app.
Qed.

Section RoundTrip.

Context (hmac_digest : HashAlg -> bytes -> bytes -> bytes).

Hypothesis hmac_digest_length :
  forall h k d, length (hmac_digest h k d) = digest_size h.

Lemma HMACTSig_sign_short (e : HMACTSig) :
  len (HMACTSig_sign hmac_digest e) < 65536.
Proof using hmac_digest_length.
  assert (H : (length (hmac_digest (hmac_hash e) (hmac_key e) (hmac_fed e))
               <= 64)%nat)
    by (rewrite hmac_digest_length; destruct (hmac_hash e); simpl; lia).
  unfold HMACTSig_sign, len.
  destruct (size e) as [n|]; [destruct (n =? 0)|]; try lia.
  pose proof (length_slice_le
                (hmac_digest (hmac_hash e) (hmac_key e) (hmac_fed e))
                0 (n / 8)). lia.
Qed.

Lemma HMACTSig_verify_own (e : HMACTSig) :
  HMACTSig_verify hmac_digest e (HMACTSig_sign hmac_digest e) = Ok None.
Proof.
  unfold HMACTSig_verify, compare_digest. now rewrite bytes_eqb_refl.
Qed.

(** The engine of a key with bytes for a secret and an algorithm of the
    table. *)
Lemma new_engine_hmac (key : Key) (k : bytes) (hashinfo : HashInfo) :
  key_secret key = SecretBytes k ->
  dict_get _hashes (key_algorithm key) = Some hashinfo ->
  exists h0, new_engine key = Ok (EHMAC h0) /\ hmac_fed h0 = [].
Proof.
  intros Hk Hd. unfold new_engine, HMACTSig_init.
  rewrite (table_key_not_gss _ _ Hd), Hd, Hk.
  destruct hashinfo; eexists; split; reflexivity.
Qed.

(** What [sign] does for a first message under an HMAC key. *)
Lemma sign_first (wire : bytes) (key : Key) (rdata : TSIG) (t : Z)
    (rm : option bytes) (ctx : option nat) (multi : bool)
    (s : list Engine) (h0 : HMACTSig) :
  is_first ctx multi = true ->
  new_engine key = Ok (EHMAC h0) ->
  len (bytes_of rm) < 65536 ->
  packable rdata ->
  let h1 := HMACTSig_update h0 (first_stream wire key rdata t rm) in
  let m := HMACTSig_sign hmac_digest h1 in
  let tsig := TSIG_init rdataclass_ANY rdatatype_TSIG (key_algorithm key)
                (Some t) (fudge rdata) m (original_id rdata) (error rdata)
                (other rdata) in
  sign hmac_digest wire key rdata (Some t) rm ctx multi s
  = if multi
    then (s ++ [EHMAC h1; EHMAC (HMACTSig_update h0 (be16 (len m) ++ m))],
          Ok (tsig, Some (S (length s))))
    else (s ++ [EHMAC h1], Ok (tsig, None)).
Proof using hmac_digest_length.
  intros Hf He Hrm Hp h1 m tsig. unfold sign.
  assert (Hd : _digest wire key rdata (Some t) rm ctx multi s
               = (s ++ [EHMAC h1], Ok (length s))).
  { apply (_digest_first wire key rdata (Some t) rm ctx multi s
             (EHMAC h0) t); auto.
    unfold is_first in Hf. now destruct ctx, multi. }
  rewrite (bind_ok _ _ _ _ _ Hd).
  unfold bind at 1. rewrite ctx_sign_last. simpl engine_sign. fold m.
  destruct multi.
  - pose proof (_maybe_start_digest_ok key m (s ++ [EHMAC h1]) _ He
                  (HMACTSig_sign_short h1)) as Hs.
    rewrite (bind_ok _ _ _ _ _ Hs). unfold ret. fold tsig.
    rewrite length_app, <- app_assoc. simpl. now rewrite Nat.add_1_r.
  - reflexivity.
Qed.

(** Signing at a given time, then validating.  Under a key with bytes
    for a secret and an algorithm of the table, for a wire with a header
    whose count of additional records can grow by one, and for rdata
    fields that fit their wire fields with error code 0: [sign], called
    with a signing time, returns a record, and [validate] accepts the
    message with that record appended, given the same key, the key name
    as the owner, the same request MAC and a [now] within the fudge of
    the signing time. *)
Theorem sign_then_validate (wire tsig_record : bytes) (key : Key)
    (rdata : TSIG) (t now : Z) (rm : option bytes)
    (ctx ctx' : option nat) (multi : bool) (s s' : list Engine)
    (k : bytes) (hashinfo : HashInfo) (adcount : Z) :
  key_secret key = SecretBytes k ->
  dict_get _hashes (key_algorithm key) = Some hashinfo ->
  12 <= len wire ->
  unpack_H (slice wire 10 12) = Ok adcount ->
  adcount < 65535 ->
  error rdata = 0 ->
  0 <= original_id rdata < 65536 ->
  0 <= fudge rdata < 65536 ->
  len (other rdata) <= 65535 ->
  len (bytes_of rm) < 65536 ->
  is_first ctx multi = true ->
  is_first ctx' multi = true ->
  Z.abs (t - now) <= fudge rdata ->
  exists tsig c s1 signed_wire c' s2,
    sign hmac_digest wire key rdata (Some t) rm ctx multi s
    = (s1, Ok (tsig, c)) /\
    mac tsig
    = match hashinfo with
      | Plain h => hmac_digest h k (first_stream wire key rdata t rm)
      | Truncated h bits =>
          slice (hmac_digest h k (first_stream wire key rdata t rm))
            0 (bits / 8)
      end /\
    wire_with_tsig wire tsig_record = Ok signed_wire /\
    validate hmac_digest signed_wire key (key_name key) tsig now rm
      (len wire) ctx' multi s'
    = (s2, Ok c').
Proof using hmac_digest_length.
  intros Hk Hd Hlen Hu Hmax Herr Hid Hfu Hoth Hrm Hf Hf' Hskew.
  assert (Hp : packable rdata) by (unfold packable; lia).
  destruct (new_engine_hmac key k hashinfo Hk Hd) as (h0 & He & Hfed0).
  pose proof (sign_first wire key rdata t rm ctx multi s h0 Hf He Hrm Hp)
    as Hsign. cbv zeta in Hsign.
  set (h1 := HMACTSig_update h0 (first_stream wire key rdata t rm)) in *.
  set (m := HMACTSig_sign hmac_digest h1) in *.
  set (tsig := TSIG_init rdataclass_ANY rdatatype_TSIG (key_algorithm key)
                 (Some t) (fudge rdata) m (original_id rdata)
                 (error rdata) (other rdata)) in *.
  destruct (signed_wire_stripped wire tsig_record adcount Hlen Hu Hmax)
    as (w & Hw & Hu' & Hstrip).
  assert (Hver : verification hmac_digest wire key tsig rm ctx' multi s'
                 = if multi
                   then (s' ++ [EHMAC h1;
                                EHMAC (HMACTSig_update h0
                                         (be16 (len m) ++ m))],
                         Ok (Some (S (length s'))))
                   else (s' ++ [EHMAC h1], Ok None)).
  { unfold verification.
    assert (Hdg : _digest wire key tsig None rm ctx' multi s'
                  = (s' ++ [EHMAC h1], Ok (length s'))).
    { apply (_digest_first wire key tsig None rm ctx' multi s'
               (EHMAC h0) t); auto.
      unfold is_first in Hf'. now destruct ctx', multi. }
    rewrite (bind_ok _ _ _ _ _ Hdg).
    unfold bind at 1. rewrite ctx_verify_last.
    simpl engine_verify. simpl mac. unfold m at 1.
    rewrite HMACTSig_verify_own.
    destruct multi; [|reflexivity].
    pose proof (_maybe_start_digest_ok key m (s' ++ [EHMAC h1]) _ He
                  (HMACTSig_sign_short h1)) as Hs.
    rewrite Hs. rewrite length_app, <- app_assoc. simpl.
    now rewrite Nat.add_1_r. }
  assert (Hval : validate hmac_digest w key (key_name key) tsig now rm
                   (len wire) ctx' multi s'
                 = verification hmac_digest wire key tsig rm ctx' multi s').
  { rewrite (validate_unfold hmac_digest w key (key_name key) tsig now rm
               (len wire) ctx' multi s' (adcount + 1) Hu').
    pose proof (unpack_H_range _ _ Hu) as Hr.
    replace (adcount + 1 =? 0) with false
      by (symmetry; apply Z.eqb_neq; lia).
    simpl error. rewrite Herr. simpl negb. cbv iota. simpl time_signed.
    cbv iota. simpl fudge.
    replace (fudge rdata <? Z.abs (t - now)) with false
      by (symmetry; apply Z.ltb_ge; lia).
    simpl algorithm. rewrite !name_eqb_refl. simpl negb. cbv iota.
    now rewrite Hstrip. }
  assert (Hmac : mac tsig
                 = match hashinfo with
                   | Plain h =>
                       hmac_digest h k (first_stream wire key rdata t rm)
                   | Truncated h bits =>
                       slice (hmac_digest h k
                                (first_stream wire key rdata t rm))
                         0 (bits / 8)
                   end).
  { simpl mac. unfold m, h1, HMACTSig_sign. simpl.
    revert He. unfold new_engine, HMACTSig_init.
    rewrite (table_key_not_gss _ _ Hd), Hd, Hk.
    destruct hashinfo as [h|h bits]; intros E; injection E as <-; simpl.
    - reflexivity.
    - revert Hd. unfold _hashes. simpl.
      repeat (destruct (name_eqb _ (key_algorithm key));
              [intros E; injection E as <- <- + discriminate E;
               reflexivity|]).
      discriminate. }
  destruct multi.
  - do 6 eexists. split; [exact Hsign|]. split; [exact Hmac|].
    split; [exact Hw|]. rewrite Hval. exact Hver.
  - do 6 eexists. split; [exact Hsign|]. split; [exact Hmac|].
    split; [exact Hw|]. rewrite Hval. exact Hver.
Qed.

End RoundTrip.

(** ** The properties on the sample message *)

Lemma checksum_mac_length (h : HashAlg) (k d : bytes) :
  length (checksum_mac h k d) = digest_size h.
Proof. unfold checksum_mac. now rewrite length_map, length_seq. Qed.

Lemma validate_check_order_witness :
  unpack_H (slice sample_signed_wire 10 12) = Ok 1 /\
  validate checksum_mac sample_signed_wire sample_key (key_name sample_key)
    sample_peer_rdata 1600000000 None 21 None false []
  = ([], Err PeerBadKey).
Proof.
  split; [reflexivity|].
  destruct (validate_check_order checksum_mac sample_signed_wire sample_key
              (key_name sample_key) sample_peer_rdata 1600000000 None 21
              None false [] 1 eq_refl) as (_ & _ & H & _).
  apply H; [lia | reflexivity].
Defined.

Lemma unsupported_algorithm_at_engine_creation_witness :
  name_eqb [label "hmac-sha3-256"] GSS_TSIG = false /\
  dict_get _hashes [label "hmac-sha3-256"] = None /\
  get_context
    {| key_name := [label "key"]; key_secret := SecretBytes [x01];
       key_algorithm := [label "hmac-sha3-256"] |} []
  = ([], Err (NotImplementedError [label "hmac-sha3-256"])).
Proof.
  split; [reflexivity|]. split; [reflexivity|].
  destruct (unsupported_algorithm_at_engine_creation checksum_mac
              plain_decodebytes [label "key"] (SecretBytes [x01])
              [label "hmac-sha3-256"]) as (_ & _ & H & _).
  apply (H eq_refl eq_refl []).
Defined.

Lemma digest_feeds_witness :
  effective_time None sample_rdata = Some 1600000000 /\
  0 <= original_id sample_rdata < 65536 /\
  0 <= fudge sample_rdata < 65536 /\
  len (other sample_rdata) <= 65535 /\
  _digest sample_wire sample_key sample_rdata None None (Some 0%nat) true
    [sample_engine]
  = ([engine_update sample_engine
        ((be16 4660 ++ slice_from sample_wire 2)
         ++ timestamp_block 1600000000 300)], Ok 0%nat).
Proof.
  split; [reflexivity|]. split; [unfold len; simpl; lia|]. split; [unfold len; simpl; lia|].
  split; [unfold len; simpl; lia|].
  destruct (digest_feeds sample_wire sample_key sample_rdata None None
              [sample_engine] 1600000000 eq_refl
              ltac:(unfold len; simpl; lia) ltac:(unfold len; simpl; lia) ltac:(unfold len; simpl; lia))
    as [H _].
  destruct (H 0%nat sample_engine eq_refl) as (e' & H1 & H2 & _).
  rewrite H1, H2. reflexivity.
Defined.

Lemma sign_then_validate_witness :
  (forall h k d, length (checksum_mac h k d) = digest_size h) /\
  key_secret sample_key = SecretBytes [x01; x02; x03] /\
  dict_get _hashes (key_algorithm sample_key) = Some (Plain sha256) /\
  unpack_H (slice sample_wire 10 12) = Ok 0 /\
  Z.abs (1600000000 - 1600000300) <= fudge sample_rdata /\
  exists tsig c s1 signed_wire c' s2,
    sign checksum_mac sample_wire sample_key sample_rdata (Some 1600000000)
      None None false [] = (s1, Ok (tsig, c)) /\
    wire_with_tsig sample_wire [xff] = Ok signed_wire /\
    validate checksum_mac signed_wire sample_key (key_name sample_key) tsig
      1600000300 None (len sample_wire) None false [] = (s2, Ok c').
Proof.
  split; [exact checksum_mac_length|]. split; [reflexivity|].
  split; [reflexivity|]. split; [reflexivity|]. split; [unfold len; simpl; lia|].
  destruct (sign_then_validate checksum_mac checksum_mac_length
              sample_wire [xff] sample_key sample_rdata
              1600000000 1600000300 None None None false [] []
              [x01; x02; x03] (Plain sha256) 0
              eq_refl eq_refl ltac:(unfold len; simpl; lia) eq_refl
              ltac:(lia) eq_refl ltac:(unfold len; simpl; lia) ltac:(unfold len; simpl; lia)
              ltac:(unfold len; simpl; lia) ltac:(unfold len; simpl; lia)
              eq_refl eq_refl ltac:(unfold len; simpl; lia))
    as (tsig & c & s1 & w & c' & s2 & H1 & _ & H2 & H3).
  exists tsig, c, s1, w, c', s2. auto.
Defined.

Lemma hmac_sign_length_witness :
  (forall h k d, length (checksum_mac h k d) = digest_size h) /\
  In (HMAC_SHA256_128, (sha256, 16%nat)) truncated /\
  name_eqb [label "HMAC-SHA256-128"] HMAC_SHA256_128 = true /\
  exists e,
    fed_engine [x01] [label "HMAC-SHA256-128"] [[x61]; [x62; x63]] = Ok e /\
    HMACTSig_sign checksum_mac e
    = firstn 16 (checksum_mac sha256 [x01] [x61; x62; x63]) /\
    length (HMACTSig_sign checksum_mac e) = 16%nat.
Proof.
  split; [exact checksum_mac_length|]. split; [now left|].
  split; [reflexivity|].
  exact (proj1 (hmac_sign_length checksum_mac checksum_mac_length [x01]
                  [label "HMAC-SHA256-128"] [[x61]; [x62; x63]])
           HMAC_SHA256_128 sha256 16%nat (or_introl eq_refl) eq_refl).
Defined.

Lemma validate_bad_time_iff_witness :
  unpack_H (slice sample_signed_wire 10 12) = Ok 1 /\
  error sample_rdata = 0 /\
  time_signed sample_rdata = Some 1600000000 /\
  Z.abs (1600000000 - 1600000300) = fudge sample_rdata /\
  result (validate checksum_mac sample_signed_wire sample_key
            (key_name sample_key) sample_rdata 1600000300 None 21 None
            false []) <> Err BadTime /\
  Z.abs (1600000000 - 1600000301) = fudge sample_rdata + 1 /\
  validate checksum_mac sample_signed_wire sample_key
    (key_name sample_key) sample_rdata 1600000301 None 21 None false []
  = ([], Err BadTime).
Proof.
  split; [reflexivity|]. split; [reflexivity|]. split; [reflexivity|].
  split; [reflexivity|]. split; [|split; [reflexivity|]].
  - apply (validate_bad_time_iff checksum_mac sample_signed_wire sample_key
             (key_name sample_key) sample_rdata 1600000300 None 21 None
             false [] 1 1600000000 eq_refl ltac:(lia) eq_refl eq_refl).
    reflexivity.
  - apply (validate_bad_time_iff checksum_mac sample_signed_wire sample_key
             (key_name sample_key) sample_rdata 1600000301 None 21 None
             false [] 1 1600000000 eq_refl ltac:(lia) eq_refl eq_refl).
    reflexivity.
Defined.

Lemma hmac_verify_iff_witness :
  let e := {| hmac_key := [x01]; hmac_hash := md5; hmac_fed := [];
              size := None |} in
  let m := HMACTSig_sign checksum_mac (fold_left HMACTSig_update [[x61]] e) in
  (3 < length m)%nat /\ (7 < 8)%nat /\
  HMACTSig_verify checksum_mac (fold_left HMACTSig_update [[x61]] e)
    (flip_bit_at 3 7 m) = Err BadSignature.
Proof.
  intros e m. split; [vm_compute; lia|]. split; [lia|].
  destruct (hmac_verify_iff checksum_mac e [[x61]] []) as (_ & _ & _ & H).
  apply H; [vm_compute; lia | lia].
Defined.

Lemma gss_verify_normalizes_witness :
  verify_signature failing_context [x01] [x02]
  = Err (OtherException "expired") /\
  is_Exception (OtherException "expired") = true /\
  GSSTSig_verify
    {| gssapi_context := SecretContext failing_context; data := [x01] |}
    [x02] = Err BadSignature.
Proof.
  split; [reflexivity|]. split; [reflexivity|].
  destruct (gss_verify_normalizes failing_context [x01] [x02]) as (H & _).
  apply (H (OtherException "expired") eq_refl eq_refl).
Defined.

(** * Further properties of the module *)

(** ** Starting the next context *)

Lemma _maybe_start_digest_eq (key : Key) (m : bytes) (s : list Engine) :
  _maybe_start_digest key m true s
  = match new_engine key with
    | Err x => (s, Err x)
    | Ok e =>
        if in_range (len m) 65536
        then (s ++ [engine_update e (be16 (len m) ++ m)],
              Ok (Some (length s)))
        else (s ++ [e], Err StructError)
    end.
Proof.
  unfold _maybe_start_digest. unfold bind at 1. rewrite get_context_new.
  destruct (new_engine key) as [e|x]; [|reflexivity].
  unfold bind, lift, ret, pack_H.
  destruct (in_range (len m) 65536); [|reflexivity].
  now rewrite !ctx_update_last, engine_update_app.
Qed.

(** [_maybe_start_digest]: without [multi] nothing is created and nothing
    is returned.  With [multi], a new engine for the key is put behind
    the engines of the store, which stay as they are; when the MAC is
    shorter than 65536 bytes the new engine has been fed the length of
    the MAC on two bytes and then the MAC, and is returned; a longer MAC
    raises struct.error after the engine was created. *)
Theorem maybe_start_digest_seeds (key : Key) (m : bytes)
    (s : list Engine) :
  _maybe_start_digest key m false s = (s, Ok None) /\
  (forall e,
      new_engine key = Ok e ->
      (len m < 65536 ->
       exists e',
         _maybe_start_digest key m true s
         = (s ++ [e'], Ok (Some (length s))) /\
         fed e' = be16 (len m) ++ m /\
         (s ++ [e']) !! length s = Some e') /\
      (65536 <= len m ->
       _maybe_start_digest key m true s = (s ++ [e], Err StructError))) /\
  (forall x,
      new_engine key = Err x ->
      _maybe_start_digest key m true s = (s, Err x)).
Proof.
  split; [reflexivity|]. split.
  - intros e He. split.
    + intros Hm. eexists. split; [|split].
      * rewrite _maybe_start_digest_eq, He.
        rewrite in_range_true by (unfold len in *; lia). reflexivity.
      * now rewrite fed_engine_update, (new_engine_fed key e He).
      * rewrite lookup_app_r by lia. now rewrite Nat.sub_diag.
    + intros Hm. rewrite _maybe_start_digest_eq, He.
      replace (in_range (len m) 65536) with false; [reflexivity|].
      symmetry. unfold in_range. apply andb_false_iff. right.
      apply Z.ltb_ge. lia.
  - intros x Hx. now rewrite _maybe_start_digest_eq, Hx.
Qed.

(** ** What [sign] and [validate] come to *)

Section Outcomes.

Context (hmac_digest : HashAlg -> bytes -> bytes -> bytes).

Lemma ctx_sign_insert (s : list Engine) (c : nat) (e : Engine) :
  (c < length s)%nat ->
  ctx_sign hmac_digest c (<[c:=e]> s)
  = (<[c:=e]> s, engine_sign hmac_digest e).
Proof.
  intros H. unfold ctx_sign. now rewrite list_lookup_insert_eq by lia.
Qed.


Lemma _maybe_start_digest_next (key : Key) (m : bytes) (multi : bool)
    (s : list Engine) :
  _maybe_start_digest key m multi s = next_context key m multi s.
Proof.
  unfold next_context. destruct multi; [|reflexivity].
  apply _maybe_start_digest_eq.
Qed.

Lemma sign_first_eq (wire : bytes) (key : Key) (rdata : TSIG)
    (time : option Z) (rm : option bytes) (ctx : option nat)
    (multi : bool) (s : list Engine) (e : Engine) (t : Z) :
  is_first ctx multi = true ->
  new_engine key = Ok e ->
  effective_time time rdata = Some t ->
  len (bytes_of rm) < 65536 ->
  packable rdata ->
  let e1 := engine_update e (first_stream wire key rdata t rm) in
  sign hmac_digest wire key rdata time rm ctx multi s
  = signed_outcome hmac_digest key rdata time multi (s ++ [e1]) e1.
Proof.
  intros Hf He Ht Hrm Hp e1. unfold sign, signed_outcome.
  assert (Hd : _digest wire key rdata time rm ctx multi s
               = (s ++ [e1], Ok (length s))).
  { apply _digest_first; auto. unfold is_first in Hf.
    now destruct ctx, multi. }
  rewrite (bind_ok _ _ _ _ _ Hd). unfold bind at 1.
  rewrite ctx_sign_last.
  destruct (engine_sign hmac_digest e1) as [m|x]; [|reflexivity].
  unfold bind, ret. rewrite _maybe_start_digest_next.
  now destruct (next_context key m multi (s ++ [e1])) as [s2 [c|x]].
Qed.

Lemma sign_continuation_eq (wire : bytes) (key : Key) (rdata : TSIG)
    (time : option Z) (rm : option bytes) (c : nat) (s : list Engine)
    (e : Engine) (t : Z) :
  s !! c = Some e ->
  effective_time time rdata = Some t ->
  0 <= original_id rdata < 65536 ->
  0 <= fudge rdata < 65536 ->
  len (other rdata) <= 65535 ->
  let e1 := engine_update e (continuation_stream wire rdata t) in
  sign hmac_digest wire key rdata time rm (Some c) true s
  = signed_outcome hmac_digest key rdata time true (<[c := e1]> s) e1.
Proof.
  intros Hc Ht Hid Hfu Hoth e1. unfold sign, signed_outcome.
  pose proof (lookup_lt_Some _ _ _ Hc) as Hlt.
  rewrite (bind_ok _ _ _ _ _
             (_digest_continuation wire key rdata time rm c s e t
                Hc Ht Hid Hfu Hoth)).
  fold e1. unfold bind at 1. rewrite ctx_sign_insert by lia.
  destruct (engine_sign hmac_digest e1) as [m|x]; [|reflexivity].
  unfold bind, ret. rewrite _maybe_start_digest_next.
  now destruct (next_context key m true (<[c:=e1]> s)) as [s2 [c2|x]].
Qed.

Lemma verification_first_eq (wire : bytes) (key : Key) (rdata : TSIG)
    (rm : option bytes) (ctx : option nat) (multi : bool)
    (s : list Engine) (e : Engine) (t : Z) :
  is_first ctx multi = true ->
  new_engine key = Ok e ->
  time_signed rdata = Some t ->
  len (bytes_of rm) < 65536 ->
  packable rdata ->
  let e1 := engine_update e (first_stream wire key rdata t rm) in
  verification hmac_digest wire key rdata rm ctx multi s
  = verified_outcome hmac_digest key rdata multi (s ++ [e1]) e1.
Proof.
  intros Hf He Ht Hrm Hp e1. unfold verification, verified_outcome.
  assert (Hd : _digest wire key rdata None rm ctx multi s
               = (s ++ [e1], Ok (length s))).
  { apply _digest_first; auto. unfold is_first in Hf.
    now destruct ctx, multi. }
  rewrite (bind_ok _ _ _ _ _ Hd). unfold bind at 1.
  rewrite ctx_verify_last.
  destruct (engine_verify hmac_digest e1 (mac rdata)) as [v|x];
    [|reflexivity].
  apply _maybe_start_digest_next.
Qed.


Lemma validate_checks_pass (wire : bytes) (key : Key) (owner : Name)
    (rdata : TSIG) (now : Z) (rm : option bytes) (tsig_start : Z)
    (ctx : option nat) (multi : bool) (s : list Engine) (adcount : Z) :
  unpack_H (slice wire 10 12) = Ok adcount ->
  checks_pass key owner rdata now adcount ->
  validate hmac_digest wire key owner rdata now rm tsig_start ctx multi s
  = verification hmac_digest (stripped_wire wire adcount tsig_start)
      key rdata rm ctx multi s.
Proof.
  intros Hu (Ha & He & (signed & Ht & Hskew) & Hn & Halg).
  rewrite (validate_unfold hmac_digest wire key owner rdata now rm
             tsig_start ctx multi s adcount Hu).
  replace (adcount =? 0) with false by (symmetry; apply Z.eqb_neq; lia).
  rewrite He, Ht. simpl negb. cbv iota.
  replace (fudge rdata <? Z.abs (signed - now)) with false
    by (symmetry; apply Z.ltb_ge; lia).
  now rewrite Hn, Halg.
Qed.

End Outcomes.

(** ** What [sign] returns, and sequences of messages *)

Lemma HMACTSig_update_app (h : HMACTSig) (a b : bytes) :
  HMACTSig_update (HMACTSig_update h a) b = HMACTSig_update h (a ++ b).
Proof. unfold HMACTSig_update. simpl. now rewrite app_assoc. Qed.

Section Sequences.

Context (hmac_digest : HashAlg -> bytes -> bytes -> bytes).

Hypothesis hmac_digest_length :
  forall h k d, length (hmac_digest h k d) = digest_size h.

(** Whenever [sign] returns, its record carries the key's algorithm, the
    [time] argument, and the fudge, original ID, error code and other
    data of the rdata it was given.  Without [multi] no context is
    returned; with [multi] the context returned is the last engine of the
    store, and it has been fed the length of the record's MAC on two
    bytes and then that MAC, nothing else. *)
Theorem sign_returns (wire : bytes) (key : Key) (rdata : TSIG)
    (time : option Z) (rm : option bytes) (ctx : option nat)
    (multi : bool) (s s2 : list Engine) (tsig : TSIG) (c : option nat) :
  sign hmac_digest wire key rdata time rm ctx multi s = (s2, Ok (tsig, c)) ->
  algorithm tsig = key_algorithm key /\
  time_signed tsig = time /\
  fudge tsig = fudge rdata /\
  original_id tsig = original_id rdata /\
  error tsig = error rdata /\
  other tsig = other rdata /\
  (multi = false -> c = None) /\
  (multi = true ->
   exists r e,
     c = Some r /\ length s2 = S r /\ s2 !! r = Some e /\
     fed e = be16 (len (mac tsig)) ++ mac tsig).
Proof.
  unfold sign, bind, ret.
  destruct (_digest _ _ _ _ _ _ _ _) as [s0 [r0|x]]; [|discriminate].
  destruct (ctx_sign _ _ _) as [s1 [m|x]]; [|discriminate].
  rewrite _maybe_start_digest_next. unfold next_context.
  destruct multi.
  - destruct (new_engine key) as [e|x] eqn:He; [|discriminate].
    destruct (in_range (len m) 65536); [|discriminate].
    intros H. injection H as <- <- <-. simpl.
    repeat split; try discriminate.
    intros _. exists (length s1), (engine_update e (be16 (len m) ++ m)).
    split; [reflexivity|]. split; [rewrite length_app; simpl; lia|].
    split.
    + rewrite lookup_app_r by lia. now rewrite Nat.sub_diag.
    + now rewrite fed_engine_update, (new_engine_fed key e He).
  - intros H. injection H as <- <- <-. simpl.
    repeat split; discriminate.
Qed.

(** The engine of an HMAC key after a first-message digest, and the
    engine that seeds the next message. *)
Lemma sign_first_multi (wire : bytes) (key : Key) (rdata : TSIG) (t : Z)
    (rm : option bytes) (s : list Engine) (h0 : HMACTSig) :
  new_engine key = Ok (EHMAC h0) ->
  len (bytes_of rm) < 65536 ->
  packable rdata ->
  let h1 := HMACTSig_update h0 (first_stream wire key rdata t rm) in
  let m := HMACTSig_sign hmac_digest h1 in
  sign hmac_digest wire key rdata (Some t) rm None true s
  = (s ++ [EHMAC h1; EHMAC (HMACTSig_update h0 (be16 (len m) ++ m))],
     Ok (TSIG_init rdataclass_ANY rdatatype_TSIG (key_algorithm key)
           (Some t) (fudge rdata) m (original_id rdata) (error rdata)
           (other rdata), Some (S (length s)))).
Proof using hmac_digest_length.
  intros He Hrm Hp h1 m.
  exact (sign_first hmac_digest hmac_digest_length wire key rdata t rm
           None true s h0 eq_refl He Hrm Hp).
Qed.

(** Signing a continuation under an HMAC context. *)
Lemma sign_continuation_hmac (wire : bytes) (key : Key) (rdata : TSIG)
    (t : Z) (rm : option bytes) (c : nat) (s : list Engine)
    (h h0 : HMACTSig) :
  s !! c = Some (EHMAC h) ->
  new_engine key = Ok (EHMAC h0) ->
  0 <= original_id rdata < 65536 ->
  0 <= fudge rdata < 65536 ->
  len (other rdata) <= 65535 ->
  let h1 := HMACTSig_update h (continuation_stream wire rdata t) in
  let m := HMACTSig_sign hmac_digest h1 in
  sign hmac_digest wire key rdata (Some t) rm (Some c) true s
  = (<[c := EHMAC h1]> s
     ++ [EHMAC (HMACTSig_update h0 (be16 (len m) ++ m))],
     Ok (TSIG_init rdataclass_ANY rdatatype_TSIG (key_algorithm key)
           (Some t) (fudge rdata) m (original_id rdata) (error rdata)
           (other rdata), Some (length s))).
Proof using hmac_digest_length.
  intros Hc He Hid Hfu Hoth h1 m.
  rewrite (sign_continuation_eq hmac_digest wire key rdata (Some t) rm c s
             (EHMAC h) t Hc eq_refl Hid Hfu Hoth).
  unfold signed_outcome, next_context. simpl engine_update.
  simpl engine_sign. fold h1. fold m. rewrite He.
  rewrite in_range_true
    by (split; [unfold len; lia|apply HMACTSig_sign_short; auto]).
  now rewrite length_insert.
Qed.

(** Two messages signed in sequence with [multi], the context returned
    for the first handed to the second: the first MAC is the HMAC of the
    first-message stream; the second MAC is the HMAC, under the same key,
    of the first MAC with its length in front, followed by the original
    ID, the wire from offset 2 and the timestamp block of the second
    message.  A request MAC passed with the second message is not
    digested. *)
Theorem sign_sequence_macs (wire1 wire2 : bytes) (key : Key)
    (rdata1 rdata2 : TSIG) (t1 t2 : Z) (rm rm2 : option bytes)
    (s : list Engine) (h0 : HMACTSig) :
  new_engine key = Ok (EHMAC h0) ->
  len (bytes_of rm) < 65536 ->
  packable rdata1 ->
  0 <= original_id rdata2 < 65536 ->
  0 <= fudge rdata2 < 65536 ->
  len (other rdata2) <= 65535 ->
  exists tsig1 c1 s1 tsig2 c2 s2,
    sign hmac_digest wire1 key rdata1 (Some t1) rm None true s
    = (s1, Ok (tsig1, Some c1)) /\
    mac tsig1
    = HMACTSig_sign hmac_digest
        (HMACTSig_update h0 (first_stream wire1 key rdata1 t1 rm)) /\
    sign hmac_digest wire2 key rdata2 (Some t2) rm2 (Some c1) true s1
    = (s2, Ok (tsig2, Some c2)) /\
    mac tsig2
    = HMACTSig_sign hmac_digest
        (HMACTSig_update h0
           ((be16 (len (mac tsig1)) ++ mac tsig1)
            ++ (be16 (original_id rdata2) ++ slice_from wire2 2)
            ++ timestamp_block t2 (fudge rdata2))).
Proof using hmac_digest_length.
  intros He Hrm Hp Hid Hfu Hoth.
  pose proof (sign_first_multi wire1 key rdata1 t1 rm s h0 He Hrm Hp) as H1.
  cbv zeta in H1.
  set (h1 := HMACTSig_update h0 (first_stream wire1 key rdata1 t1 rm)) in *.
  set (m1 := HMACTSig_sign hmac_digest h1) in *.
  set (seed := HMACTSig_update h0 (be16 (len m1) ++ m1)) in *.
  assert (Hc : (s ++ [EHMAC h1; EHMAC seed]) !! S (length s)
               = Some (EHMAC seed)).
  { change [EHMAC h1; EHMAC seed] with ([EHMAC h1] ++ [EHMAC seed]).
    rewrite app_assoc, lookup_app_r by (rewrite length_app; simpl; lia).
    rewrite length_app. simpl.
    now replace (S (length s) - (length s + 1))%nat with 0%nat by lia. }
  pose proof (sign_continuation_hmac wire2 key rdata2 t2 rm2 _ _ seed h0
                Hc He Hid Hfu Hoth) as H2.
  cbv zeta in H2.
  do 6 eexists. split; [exact H1|]. split; [reflexivity|].
  split; [exact H2|].
  simpl mac. unfold seed, continuation_stream, id_substituted_wire.
  now rewrite HMACTSig_update_app.
Qed.

End Sequences.

(** ** Signer and verifier over a sequence *)

Section Exchanges.

Context (hmac_digest : HashAlg -> bytes -> bytes -> bytes).

Hypothesis hmac_digest_length :
  forall h k d, length (hmac_digest h k d) = digest_size h.

Lemma next_context_hmac (key : Key) (h0 h1 : HMACTSig) (s : list Engine) :
  new_engine key = Ok (EHMAC h0) ->
  let m := HMACTSig_sign hmac_digest h1 in
  next_context key m true s
  = (s ++ [EHMAC (HMACTSig_update h0 (be16 (len m) ++ m))],
     Ok (Some (length s))).
Proof using hmac_digest_length.
  intros He m. unfold next_context. rewrite He.
  now rewrite in_range_true
    by (split; [unfold len; lia|apply HMACTSig_sign_short; auto]).
Qed.

Lemma lookup_last_engine (s : list Engine) (e : Engine) :
  (s ++ [e]) !! length s = Some e.
Proof. rewrite lookup_app_r by lia. now rewrite Nat.sub_diag. Qed.

(** The first message of a sequence, signed and validated with [multi]
    under an HMAC key: the signer's [sign] and the verifier's [validate]
    both succeed, and the contexts they return for the next message are
    engines in the same state. *)
Theorem first_exchange_in_sync (wire tsig_record : bytes) (key : Key)
    (rdata : TSIG) (t now : Z) (rm : option bytes) (s s' : list Engine)
    (h0 : HMACTSig) (adcount : Z) :
  new_engine key = Ok (EHMAC h0) ->
  12 <= len wire ->
  unpack_H (slice wire 10 12) = Ok adcount ->
  adcount < 65535 ->
  error rdata = 0 ->
  0 <= original_id rdata < 65536 ->
  0 <= fudge rdata < 65536 ->
  len (other rdata) <= 65535 ->
  len (bytes_of rm) < 65536 ->
  Z.abs (t - now) <= fudge rdata ->
  exists tsig c s1 signed_wire c' s2 next,
    sign hmac_digest wire key rdata (Some t) rm None true s
    = (s1, Ok (tsig, Some c)) /\
    wire_with_tsig wire tsig_record = Ok signed_wire /\
    validate hmac_digest signed_wire key (key_name key) tsig now rm
      (len wire) None true s'
    = (s2, Ok (Some c')) /\
    s1 !! c = Some next /\ s2 !! c' = Some next /\
    fed next = be16 (len (mac tsig)) ++ mac tsig.
Proof using hmac_digest_length.
  intros He Hlen Hu Hmax Herr Hid Hfu Hoth Hrm Hskew.
  assert (Hp : packable rdata) by (unfold packable; lia).
  pose proof (sign_first_multi hmac_digest hmac_digest_length wire key
                rdata t rm s h0 He Hrm Hp) as Hs. cbv zeta in Hs.
  set (h1 := HMACTSig_update h0 (first_stream wire key rdata t rm)) in *.
  set (m := HMACTSig_sign hmac_digest h1) in *.
  set (seed := EHMAC (HMACTSig_update h0 (be16 (len m) ++ m))) in *.
  set (tsig := TSIG_init rdataclass_ANY rdatatype_TSIG (key_algorithm key)
                 (Some t) (fudge rdata) m (original_id rdata)
                 (error rdata) (other rdata)) in *.
  destruct (signed_wire_stripped wire tsig_record adcount Hlen Hu Hmax)
    as (w & Hw & Hu' & Hstrip).
  pose proof (unpack_H_range _ _ Hu) as Hr.
  assert (Hchk : checks_pass key (key_name key) tsig now (adcount + 1)).
  { unfold checks_pass. simpl. rewrite !name_eqb_refl.
    repeat split; try lia; try assumption. exists t. split; auto. }
  assert (Hv : validate hmac_digest w key (key_name key) tsig now rm
                 (len wire) None true s'
               = ((s' ++ [EHMAC h1]) ++ [seed],
                  Ok (Some (length (s' ++ [EHMAC h1]))))).
  { rewrite (validate_checks_pass hmac_digest w key (key_name key) tsig
               now rm (len wire) None true s' (adcount + 1) Hu' Hchk).
    rewrite Hstrip.
    rewrite (verification_first_eq hmac_digest wire key tsig rm None true
               s' (EHMAC h0) t eq_refl He eq_refl Hrm Hp).
    unfold verified_outcome. simpl engine_update. fold h1.
    simpl engine_verify. simpl mac. unfold m at 1.
    rewrite HMACTSig_verify_own.
    apply (next_context_hmac key h0 h1 _ He). }
  exists tsig, (S (length s)), (s ++ [EHMAC h1; seed]), w,
    (length (s' ++ [EHMAC h1])), ((s' ++ [EHMAC h1]) ++ [seed]), seed.
  split; [exact Hs|]. split; [exact Hw|]. split; [exact Hv|].
  split; [|split].
  - change [EHMAC h1; seed] with ([EHMAC h1] ++ [seed]).
    rewrite app_assoc.
    replace (S (length s)) with (length (s ++ [EHMAC h1]))
      by (rewrite length_app; simpl; lia).
    apply lookup_last_engine.
  - apply lookup_last_engine.
  - unfold seed. simpl. rewrite app_nil_l || idtac.
    pose proof (new_engine_fed key _ He) as Hfed. simpl in Hfed.
    now rewrite Hfed.
Qed.


End Exchanges.

(** ** Acceptance and failure of [validate] and [_digest] *)

Section Acceptance.

Context (hmac_digest : HashAlg -> bytes -> bytes -> bytes).

Hypothesis hmac_digest_length :
  forall h k d, length (hmac_digest h k d) = digest_size h.

(** Under an HMAC key, for a first message that has passed the checks
    before the digest: [validate] returns exactly when the MAC of the
    rdata is the HMAC of the first-message stream over the stripped wire,
    and raises BadSignature for every other MAC, leaving the engine it
    built behind the store; in particular for the right MAC with any one
    bit flipped. *)
Theorem validate_accepts_exactly (wire : bytes) (key : Key) (owner : Name)
    (rdata : TSIG) (now : Z) (rm : option bytes) (tsig_start : Z)
    (ctx : option nat) (multi : bool) (s : list Engine) (adcount t : Z)
    (h0 : HMACTSig) :
  unpack_H (slice wire 10 12) = Ok adcount ->
  checks_pass key owner rdata now adcount ->
  is_first ctx multi = true ->
  new_engine key = Ok (EHMAC h0) ->
  time_signed rdata = Some t ->
  len (bytes_of rm) < 65536 ->
  packable rdata ->
  let h1 := HMACTSig_update h0
              (first_stream (stripped_wire wire adcount tsig_start)
                 key rdata t rm) in
  let expected := HMACTSig_sign hmac_digest h1 in
  let v m := validate hmac_digest wire key owner (with_mac rdata m) now rm
               tsig_start ctx multi s in
  (exists s2 c, v expected = (s2, Ok c)) /\
  (forall m, m <> expected -> v m = (s ++ [EHMAC h1], Err BadSignature)) /\
  (forall j i : nat,
      (j < length expected)%nat -> (i < 8)%nat ->
      v (flip_bit_at j i expected) = (s ++ [EHMAC h1], Err BadSignature)).
Proof using hmac_digest_length.
  intros Hu Hchk Hf He Ht Hrm Hp h1 expected v.
  assert (Hv : forall m,
             v m = verified_outcome hmac_digest key (with_mac rdata m)
                     multi (s ++ [EHMAC h1]) (EHMAC h1)).
  { intros m. unfold v.
    rewrite (validate_checks_pass hmac_digest wire key owner
               (with_mac rdata m) now rm tsig_start ctx multi s adcount
               Hu Hchk).
    exact (verification_first_eq hmac_digest _ key (with_mac rdata m) rm
             ctx multi s (EHMAC h0) t Hf He Ht Hrm Hp). }
  assert (Hne : forall m, m <> expected ->
                  v m = (s ++ [EHMAC h1], Err BadSignature)).
  { intros m Hm. rewrite Hv. unfold verified_outcome. simpl.
    unfold HMACTSig_verify, compare_digest. fold expected.
    destruct (bytes_eqb expected m) eqn:E; [|reflexivity].
    apply bytes_eqb_eq in E. congruence. }
  split; [|split].
  - rewrite Hv. unfold verified_outcome. simpl engine_verify.
    simpl mac. unfold expected. rewrite HMACTSig_verify_own.
    destruct multi.
    + rewrite (next_context_hmac hmac_digest hmac_digest_length key h0 h1
                 _ He). eauto.
    + simpl. eauto.
  - exact Hne.
  - intros j i Hj Hi. apply Hne. now apply flip_bit_at_neq.
Qed.

End Acceptance.


(** Whatever its arguments and whatever the injected security context
    does, [validate] raises nothing but FormError, a peer error, BadTime,
    BadKey, BadAlgorithm, BadSignature, the errors of building the digest
    (struct.error, TypeError, ValueError, NotImplementedError), or an
    exception outside the Exception hierarchy; no other exception of the
    security context comes out of it. *)
Theorem validate_raises_only
    (hmac_digest : HashAlg -> bytes -> bytes -> bytes) (wire : bytes)
    (key : Key) (owner : Name) (rdata : TSIG) (now : Z)
    (rm : option bytes) (tsig_start : Z) (ctx : option nat)
    (multi : bool) :
  raises_only validate_error
    (validate hmac_digest wire key owner rdata now rm tsig_start ctx multi).
Proof.
  intros s e. unfold validate_error.
  destruct (unpack_H (slice wire 10 12)) as [adcount|x] eqn:Hu.
  - rewrite (validate_unfold hmac_digest wire key owner rdata now rm
               tsig_start ctx multi s adcount Hu).
    destruct (adcount =? 0);
      [intros H; injection H as <-; tauto|].
    destruct (negb (error rdata =? 0)).
    { unfold peer_error.
      repeat match goal with
             | |- context [if ?b then _ else _] => destruct b
             end; intros H; injection H as <-; eauto 12. }
    destruct (time_signed rdata) as [signed|];
      [|intros H; injection H as <-; tauto].
    destruct (fudge rdata <? Z.abs (signed - now));
      [intros H; injection H as <-; tauto|].
    destruct (negb (name_eqb (key_name key) owner));
      [intros H; injection H as <-; tauto|].
    destruct (negb (name_eqb (key_algorithm key) (algorithm rdata)));
      [intros H; injection H as <-; tauto|].
    intros H. apply raises_only_verification in H.
    unfold digest_error, verify_error in H.
    destruct H as [[H|[H|[H|[[n H]|H]]]]|[H|H]]; subst; eauto 20.
  - unfold validate, result, bind, lift. rewrite Hu. simpl.
    intros H. injection H as <-.
    assert (x = StructError) as ->; [|tauto].
    unfold unpack_H in Hu.
    destruct (slice wire 10 12) as [|b0 [|b1 [|b2 l]]];
      try discriminate; now injection Hu as <-.
Qed.

(** ** The message ID on the wire *)

Lemma _digest_wire (w1 w2 : bytes) (key : Key) (rdata : TSIG)
    (time : option Z) (rm : option bytes) (ctx : option nat) (multi : bool) :
  slice_from w1 2 = slice_from w2 2 ->
  _digest w1 key rdata time rm ctx multi
  = _digest w2 key rdata time rm ctx multi.
Proof. intros H. unfold _digest. now rewrite H. Qed.

Lemma len_app_id (id rest : bytes) :
  length id = 2%nat -> len (id ++ rest) = 2 + len rest.
Proof. intros H. unfold len. rewrite length_app, H. lia. Qed.

Lemma slice_from_2_id (id rest : bytes) :
  length id = 2%nat -> slice_from (id ++ rest) 2 = rest.
Proof.
  intros H. unfold slice_from, slice_index. rewrite len_app_id by assumption.
  change (2 <? 0) with false. cbv iota.
  rewrite Z.min_l by (unfold len; lia).
  change (Z.to_nat 2) with 2%nat. now apply drop_app_length'.
Qed.

Lemma slice_id_from (id rest : bytes) (lo hi : Z) :
  length id = 2%nat -> 2 <= lo ->
  slice (id ++ rest) lo hi
  = take (Z.to_nat (slice_index (2 + len rest) hi
                    - slice_index (2 + len rest) lo))
      (drop (Z.to_nat (slice_index (2 + len rest) lo) - 2) rest).
Proof.
  intros H Hlo. unfold slice. rewrite len_app_id by assumption.
  f_equal. rewrite drop_app, H.
  assert (Hl : 2 <= slice_index (2 + len rest) lo).
  { unfold slice_index.
    replace (lo <? 0) with false by (symmetry; apply Z.ltb_ge; lia).
    unfold len. lia. }
  rewrite (drop_ge id) by lia. reflexivity.
Qed.

Lemma slice_id_0_10 (id rest : bytes) :
  length id = 2%nat ->
  slice (id ++ rest) 0 10 = id ++ take (Z.to_nat (Z.min 8 (len rest))) rest.
Proof.
  intros H. unfold slice, slice_index. rewrite len_app_id by assumption.
  change (0 <? 0) with false. change (10 <? 0) with false. cbv iota.
  rewrite (Z.min_l 0) by (unfold len; lia). rewrite Z.sub_0_r.
  change (Z.to_nat 0) with 0%nat. rewrite drop_0.
  rewrite take_app, H.
  rewrite take_ge by (unfold len; lia). f_equal. f_equal. unfold len. lia.
Qed.

(** The first two bytes of the wire, the message ID, are not digested:
    two wires that differ in them only are signed with the same outcome
    and validated with the same outcome.  What is digested in their place
    is the original ID of the rdata. *)
Theorem message_id_not_digested
    (hmac_digest : HashAlg -> bytes -> bytes -> bytes) (id1 id2 rest : bytes)
    (key : Key) (owner : Name) (rdata : TSIG) (time : option Z) (now : Z)
    (rm : option bytes) (tsig_start : Z) (ctx : option nat) (multi : bool)
    (s : list Engine) :
  length id1 = 2%nat ->
  length id2 = 2%nat ->
  sign hmac_digest (id1 ++ rest) key rdata time rm ctx multi s
  = sign hmac_digest (id2 ++ rest) key rdata time rm ctx multi s /\
  validate hmac_digest (id1 ++ rest) key owner rdata now rm tsig_start
    ctx multi s
  = validate hmac_digest (id2 ++ rest) key owner rdata now rm tsig_start
      ctx multi s.
Proof.
  intros H1 H2. split.
  - unfold sign.
    rewrite (_digest_wire (id1 ++ rest) (id2 ++ rest)); [reflexivity|].
    now rewrite !slice_from_2_id.
  - assert (Hc : slice (id1 ++ rest) 10 12 = slice (id2 ++ rest) 10 12)
      by (rewrite !slice_id_from by (assumption || lia); reflexivity).
    destruct (unpack_H (slice (id1 ++ rest) 10 12)) as [adcount|x] eqn:Hu.
    + rewrite (validate_unfold hmac_digest (id1 ++ rest) key owner rdata
                 now rm tsig_start ctx multi s adcount Hu).
      rewrite Hc in Hu.
      rewrite (validate_unfold hmac_digest (id2 ++ rest) key owner rdata
                 now rm tsig_start ctx multi s adcount Hu).
      unfold verification.
      rewrite (_digest_wire (stripped_wire (id1 ++ rest) adcount tsig_start)
                 (stripped_wire (id2 ++ rest) adcount tsig_start));
        [reflexivity|].
      unfold stripped_wire. rewrite !slice_id_0_10 by assumption.
      rewrite <- !app_assoc, !slice_from_2_id by assumption.
      f_equal. f_equal.
      unfold slice. rewrite !len_app_id by assumption.
      f_equal. rewrite !drop_app, H1, H2.
      assert (Hl : 2 <= slice_index (2 + len rest) 12)
        by (unfold slice_index, len; simpl; lia).
      rewrite (drop_ge id1), (drop_ge id2) by lia. reflexivity.
    + unfold validate, bind, lift. rewrite <- Hc, Hu. reflexivity.
Qed.

(** ** Keys that compare equal *)

Lemma name_eqb_left (a b c : Name) :
  name_eqb a b = true -> name_eqb a c = name_eqb b c.
Proof.
  intros H. apply name_eqb_canonical in H. unfold name_eqb. now rewrite H.
Qed.

Lemma to_digestable_canonical (n : Name) :
  to_digestable n
  = flat_map (fun l => byte_of_Z (len l) :: l) (canonical n) ++ [x00].
Proof.
  unfold to_digestable, canonical. f_equal.
  induction n as [|l n IH]; simpl; [reflexivity|].
  rewrite IH. unfold len. now rewrite length_map.
Qed.

Lemma to_digestable_name_eqb (a b : Name) :
  name_eqb a b = true -> to_digestable a = to_digestable b.
Proof.
  intros H. apply name_eqb_canonical in H.
  now rewrite !to_digestable_canonical, H.
Qed.

(** [Key.__eq__] holds between two keys with byte-string secrets exactly
    when the names agree up to case, the secrets are the same bytes and
    the algorithm names agree up to case.  Two such keys for which an
    engine can be created are interchangeable: they create the same
    engine, [sign] has the same outcome but for the spelling of the
    algorithm name in the record, and [validate] has the same outcome. *)
Theorem equal_keys_interchangeable
    (hmac_digest : HashAlg -> bytes -> bytes -> bytes)
    (secret_eq : Secret -> Secret -> bool) (k1 k2 : Key) (b1 b2 : bytes)
    (e : Engine) :
  (forall a b, secret_eq (SecretBytes a) (SecretBytes b) = bytes_eqb a b) ->
  key_secret k1 = SecretBytes b1 ->
  key_secret k2 = SecretBytes b2 ->
  (Key_eq secret_eq k1 k2 = true
   <-> canonical (key_name k1) = canonical (key_name k2) /\ b1 = b2 /\
       canonical (key_algorithm k1) = canonical (key_algorithm k2)) /\
  (Key_eq secret_eq k1 k2 = true ->
   new_engine k1 = Ok e ->
   new_engine k2 = Ok e /\
   (forall wire rdata time rm ctx multi s,
       sign hmac_digest wire k2 rdata time rm ctx multi s
       = renamed (key_algorithm k2)
           (sign hmac_digest wire k1 rdata time rm ctx multi s)) /\
   (forall wire owner rdata now rm tsig_start ctx multi s,
       validate hmac_digest wire k2 owner rdata now rm tsig_start
         ctx multi s
       = validate hmac_digest wire k1 owner rdata now rm tsig_start
           ctx multi s)).
Proof.
  intros Hse Hs1 Hs2.
  assert (Hiff : Key_eq secret_eq k1 k2 = true
                 <-> canonical (key_name k1) = canonical (key_name k2) /\
                     b1 = b2 /\
                     canonical (key_algorithm k1)
                     = canonical (key_algorithm k2)).
  { unfold Key_eq. rewrite Hs1, Hs2, Hse, !andb_true_iff.
    rewrite !name_eqb_canonical, bytes_eqb_eq. tauto. }
  split; [exact Hiff|].
  intros Heq He. apply Hiff in Heq as (Hn & <- & Ha).
  apply name_eqb_canonical in Hn, Ha.
  assert (Hg : name_eqb (key_algorithm k2) GSS_TSIG
               = name_eqb (key_algorithm k1) GSS_TSIG)
    by (symmetry; now apply name_eqb_left).
  assert (Hinit : HMACTSig_init (SecretBytes b1) (key_algorithm k2)
                  = HMACTSig_init (SecretBytes b1) (key_algorithm k1)
                  \/ name_eqb (key_algorithm k1) GSS_TSIG = true).
  { destruct (name_eqb (key_algorithm k1) GSS_TSIG) eqn:E; [now right|].
    left. revert He. unfold new_engine, HMACTSig_init. rewrite E, Hs1.
    rewrite <- (dict_get_name_eqb _hashes _ _ Ha).
    destruct (dict_get _hashes (key_algorithm k1)); [reflexivity|].
    discriminate. }
  assert (Hctx : get_context k2 = get_context k1).
  { unfold get_context. rewrite Hg, Hs1, Hs2.
    destruct Hinit as [-> | ->]; reflexivity. }
  assert (Hnew : new_engine k2 = new_engine k1).
  { unfold new_engine. rewrite Hg, Hs1, Hs2.
    destruct Hinit as [-> | ->]; reflexivity. }
  assert (Hdig : forall wire rdata time rm ctx multi,
             _digest wire k2 rdata time rm ctx multi
             = _digest wire k1 rdata time rm ctx multi).
  { intros. unfold _digest, _digest_start.
    now rewrite Hctx, <- (to_digestable_name_eqb _ _ Hn),
      <- (to_digestable_name_eqb _ _ Ha). }
  assert (Hnext : forall m multi,
             _maybe_start_digest k2 m multi = _maybe_start_digest k1 m multi).
  { intros. unfold _maybe_start_digest. now rewrite Hctx. }
  split; [now rewrite Hnew|]. split.
  - intros. unfold sign, bind, ret. rewrite Hdig.
    destruct (_digest wire k1 rdata time rm ctx multi s) as [s0 [r|x]];
      [|reflexivity].
    destruct (ctx_sign hmac_digest r s0) as [s1 [m|x]]; [|reflexivity].
    rewrite Hnext.
    now destruct (_maybe_start_digest k1 m multi s1) as [s2 [c|x]].
  - intros.
    destruct (unpack_H (slice wire 10 12)) as [adcount|x] eqn:Hu.
    + rewrite !(validate_unfold hmac_digest wire _ owner rdata now rm
                  tsig_start ctx multi s adcount Hu).
      rewrite <- (name_eqb_left _ _ owner Hn).
      rewrite <- (name_eqb_left _ _ (algorithm rdata) Ha).
      unfold verification. now rewrite Hdig, Hnext.
    + unfold validate, bind, lift. now rewrite Hu.
Qed.

(** ** The GSS engine and keys of gss-tsig *)

Lemma fold_GSSTSig_update (chunks : list bytes) (e : GSSTSig) :
  fold_left GSSTSig_update chunks e
  = {| gssapi_context := gssapi_context e;
       data := data e ++ concat chunks |}.
Proof.
  revert e. induction chunks as [|c chunks IH]; intros e; simpl.
  - rewrite app_nil_r. now destruct e.
  - rewrite IH. simpl. now rewrite app_assoc.
Qed.

(** A GSS engine hands the security context exactly what it was fed,
    the chunks of all [update] calls in order, and on [verify] the
    candidate as well; [sign] returns or raises what [get_signature]
    does.  When the secret it was built from is not a context object,
    [sign] raises AttributeError while [verify] raises BadSignature. *)
Theorem gss_engine_passes_fed_bytes (secret : Secret)
    (chunks : list bytes) (expected : bytes) :
  let e := fold_left GSSTSig_update chunks (GSSTSig_init secret) in
  (forall g,
      secret = SecretContext g ->
      GSSTSig_sign e = get_signature g (concat chunks) /\
      GSSTSig_verify e expected
      = match verify_signature g (concat chunks) expected with
        | Ok v => Ok (Some v)
        | Err x => if is_Exception x then Err BadSignature else Err x
        end) /\
  (forall b,
      secret = SecretBytes b ->
      GSSTSig_sign e = Err AttributeError /\
      GSSTSig_verify e expected = Err BadSignature).
Proof.
  intros e. unfold e. rewrite fold_GSSTSig_update.
  unfold GSSTSig_sign, GSSTSig_verify. simpl.
  split; intros x ->; split; reflexivity.
Qed.

(** [get_context]: for a key of gss-tsig a GSS engine holding the key's
    secret, whatever that is, is created and no error is possible; for a
    key of the HMAC table an HMAC engine over the secret bytes is created,
    truncating as the table says, and a secret that is not bytes raises
    TypeError.  The new engine has been fed nothing, is put behind the
    engines of the store, which stay as they are, and its position is
    returned; an error leaves the store as it is. *)
Theorem get_context_outcomes (key : Key) (s : list Engine) :
  (name_eqb (key_algorithm key) GSS_TSIG = true ->
   get_context key s
   = (s ++ [EGSS {| gssapi_context := key_secret key; data := [] |}],
      Ok (length s))) /\
  (forall hashinfo,
      name_eqb (key_algorithm key) GSS_TSIG = false ->
      dict_get _hashes (key_algorithm key) = Some hashinfo ->
      (forall k,
          key_secret key = SecretBytes k ->
          get_context key s
          = (s ++ [EHMAC
                     {| hmac_key := k;
                        hmac_hash := match hashinfo with
                                     | Plain h | Truncated h _ => h
                                     end;
                        hmac_fed := [];
                        size := match hashinfo with
                                | Plain _ => None
                                | Truncated _ bits => Some bits
                                end |}],
             Ok (length s))) /\
      (forall g,
          key_secret key = SecretContext g ->
          get_context key s = (s, Err TypeError))) /\
  (forall r s', get_context key s = (s', Ok r) ->
                r = length s /\ length s' = S r /\
                forall i, (i < length s)%nat -> s' !! i = s !! i) /\
  (forall x s', get_context key s = (s', Err x) -> s' = s).
Proof.
  rewrite get_context_new. unfold new_engine, HMACTSig_init.
  split; [now intros ->|]. split.
  - intros hashinfo Hg Hd. rewrite Hg, Hd. split.
    + intros k ->. now destruct hashinfo.
    + now intros g ->.
  - split.
    + intros r s' H.
      destruct (if name_eqb (key_algorithm key) GSS_TSIG then _ else _)
        as [e|x]; [|discriminate].
      injection H as <- <-. split; [reflexivity|].
      split; [rewrite length_app; simpl; lia|].
      intros i Hi. now rewrite lookup_app_l.
    + intros x s' H.
      destruct (if name_eqb (key_algorithm key) GSS_TSIG then _ else _)
        as [e|y]; [discriminate|]. now injection H as <- _.
Qed.

Section GSSKeys.

Context (hmac_digest : HashAlg -> bytes -> bytes -> bytes).

(** Under a key of gss-tsig whose secret is a security context, for a
    first message with fields that fit: [sign] asks the context for a
    signature over the first-message stream and puts it in the record as
    the MAC, and an exception of the context comes out of [sign] as it
    is.  [validate], once the checks before the digest have passed, asks
    the context to verify the MAC of the rdata over the stream of the
    stripped wire: it returns whenever the context returns, whatever
    value that is, and raises BadSignature when the context raises an
    exception of the Exception hierarchy. *)
Theorem gss_key_sign_validate (wire : bytes) (key : Key) (owner : Name)
    (rdata : TSIG) (time : option Z) (now : Z) (rm : option bytes)
    (tsig_start : Z) (ctx : option nat) (s : list Engine)
    (g : GSSContext) (t adcount : Z) :
  name_eqb (key_algorithm key) GSS_TSIG = true ->
  key_secret key = SecretContext g ->
  len (bytes_of rm) < 65536 ->
  packable rdata ->
  let fresh := EGSS (GSSTSig_init (SecretContext g)) in
  (effective_time time rdata = Some t ->
   let stream := first_stream wire key rdata t rm in
   (forall m,
       get_signature g stream = Ok m ->
       sign hmac_digest wire key rdata time rm ctx false s
       = (s ++ [engine_update fresh stream],
          Ok (TSIG_init rdataclass_ANY rdatatype_TSIG (key_algorithm key)
                time (fudge rdata) m (original_id rdata) (error rdata)
                (other rdata), None))) /\
   (forall x,
       get_signature g stream = Err x ->
       sign hmac_digest wire key rdata time rm ctx false s
       = (s ++ [engine_update fresh stream], Err x))) /\
  (unpack_H (slice wire 10 12) = Ok adcount ->
   checks_pass key owner rdata now adcount ->
   time_signed rdata = Some t ->
   let stream := first_stream (stripped_wire wire adcount tsig_start)
                   key rdata t rm in
   (forall v,
       verify_signature g stream (mac rdata) = Ok v ->
       validate hmac_digest wire key owner rdata now rm tsig_start ctx
         false s
       = (s ++ [engine_update fresh stream], Ok None)) /\
   (forall x,
       verify_signature g stream (mac rdata) = Err x ->
       is_Exception x = true ->
       validate hmac_digest wire key owner rdata now rm tsig_start ctx
         false s
       = (s ++ [engine_update fresh stream], Err BadSignature))).
Proof.
  intros Hg Hs Hrm Hp fresh.
  assert (Hf : is_first ctx false = true) by now destruct ctx.
  assert (He : new_engine key = Ok fresh)
    by (unfold new_engine; now rewrite Hg, Hs).
  split.
  - intros Ht stream.
    rewrite (sign_first_eq hmac_digest wire key rdata time rm ctx false s
               fresh t Hf He Ht Hrm Hp).
    unfold signed_outcome, next_context. fold stream.
    assert (Hsig : engine_sign hmac_digest (engine_update fresh stream)
                   = get_signature g stream) by reflexivity.
    rewrite Hsig. split.
    + now intros m ->.
    + now intros x ->.
  - intros Hu Hchk Ht stream.
    rewrite (validate_checks_pass hmac_digest wire key owner rdata now rm
               tsig_start ctx false s adcount Hu Hchk).
    rewrite (verification_first_eq hmac_digest _ key rdata rm ctx false s
               fresh t Hf He Ht Hrm Hp).
    unfold verified_outcome, next_context. fold stream.
    assert (Hver : engine_verify hmac_digest (engine_update fresh stream)
                     (mac rdata)
                   = match verify_signature g stream (mac rdata) with
                     | Ok v => Ok (Some v)
                     | Err x =>
                         if is_Exception x then Err BadSignature else Err x
                     end) by reflexivity.
    rewrite Hver. split.
    + now intros v ->.
    + intros x -> Hx. now rewrite Hx.
Qed.

End GSSKeys.

(** ** The keyring adapter *)

Section AdapterProperties.

Context (Message : Type).
Context (find_rrset : Message -> Name -> Found).
Context (step : Secret -> bytes -> Stepped).

(** [GSSTSigAdapter.__call__]: a name that the keyring does not hold
    gives None.  For a name it holds, the call returns the entry itself
    unless an exception comes out of it, and the only exceptions that
    come out are those that [find_rrset] or [step] raise and that are not
    KeyError: a message without a TKEY rrset for the name, and a KeyError
    raised by [step], are passed over in silence. *)
Theorem adapter_returns_entry (keyring : list (Name * KeyringEntry))
    (message : option Message) (keyname : Name) :
  let call := GSSTSigAdapter_call Message find_rrset step keyring message
                keyname in
  (dict_get keyring keyname = None -> call = ([], Ok None)) /\
  (forall entry,
      dict_get keyring keyname = Some entry ->
      snd call = Ok (Some entry) \/
      exists k m e,
        entry = EntryKey k /\ message = Some m /\
        name_eqb (key_algorithm k) GSS_TSIG = true /\
        snd call = Err e /\
        (find_rrset m keyname = FoundRaised e \/
         exists token rest,
           find_rrset m keyname = FoundRRset (token :: rest) /\
           step (key_secret k) token = StepRaised e)) /\
  (forall k m,
      dict_get keyring keyname = Some (EntryKey k) ->
      message = Some m ->
      name_eqb (key_algorithm k) GSS_TSIG = true ->
      (find_rrset m keyname = FoundKeyError ->
       call = ([], Ok (Some (EntryKey k)))) /\
      (forall token rest,
          find_rrset m keyname = FoundRRset (token :: rest) ->
          step (key_secret k) token = StepKeyError ->
          call = ([token], Ok (Some (EntryKey k))))).
Proof.
  intros call. unfold call, GSSTSigAdapter_call. split; [|split].
  - now intros ->.
  - intros entry ->. destruct entry as [k|raw]; [|now left].
    destruct message as [m|]; [|now left].
    destruct (name_eqb (key_algorithm k) GSS_TSIG) eqn:Hg; [|now left].
    unfold parse_tkey_and_step.
    destruct (find_rrset m keyname) as [[|token rest]| |e] eqn:Hfind;
      try (now left).
    + destruct (step (key_secret k) token) as [v| |e] eqn:Hstep;
        try (now left).
      right. exists k, m, e. repeat split; auto. right. eauto.
    + right. exists k, m, e. repeat split; auto.
  - intros k m -> -> Hg. rewrite Hg. unfold parse_tkey_and_step. split.
    + now intros ->.
    + now intros token rest -> ->.
Qed.

(** [GSSTSigAdapter.__call__] hands at most one token to [step], the
    [key] field of the first rdata of the TKEY rrset, and it does so
    exactly when the entry under the name is a key of gss-tsig, a message
    is given, and the message holds a non-empty TKEY rrset for the name;
    the context stepped is the secret of that key.  No key of another
    algorithm, and no entry that is not a key, is ever stepped. *)
Theorem adapter_steps_once (keyring : list (Name * KeyringEntry))
    (message : option Message) (keyname : Name) :
  let tokens := fst (GSSTSigAdapter_call Message find_rrset step keyring
                       message keyname) in
  (tokens = [] \/ exists token, tokens = [token]) /\
  (forall token,
      tokens = [token] <->
      exists k m rest,
        dict_get keyring keyname = Some (EntryKey k) /\
        name_eqb (key_algorithm k) GSS_TSIG = true /\
        message = Some m /\
        find_rrset m keyname = FoundRRset (token :: rest)).
Proof.
  intros tokens. unfold tokens, GSSTSigAdapter_call, parse_tkey_and_step.
  destruct (dict_get keyring keyname) as [[k|raw]|] eqn:Hd.
  - destruct message as [m|].
    + destruct (name_eqb (key_algorithm k) GSS_TSIG) eqn:Hg.
      * destruct (find_rrset m keyname) as [[|tok rest]| |e] eqn:Hfind.
        -- simpl. split; [now left|]. intros token. split; [discriminate|].
           intros (k' & m' & rest' & _ & _ & Hm & Hf).
           injection Hm as <-. congruence.
        -- assert (Hfst : fst (match
                            match step (key_secret k) tok with
                            | StepValue v => ([tok], Ok (Some v))
                            | StepKeyError => ([tok], Ok None)
                            | StepRaised e => ([tok], Err e)
                            end
                          with
                          | (toks, Ok _) => (toks, Ok (Some (EntryKey k)))
                          | (toks, Err e) => (toks, Err e)
                          end) = [tok])
             by now destruct (step (key_secret k) tok).
           rewrite Hfst. split; [right; eauto|]. intros token. split.
           ++ intros H. injection H as <-. exists k, m, rest. auto.
           ++ intros (k' & m' & rest' & Hk & _ & Hm & Hf).
              injection Hm as <-. congruence.
        -- simpl. split; [now left|]. intros token. split; [discriminate|].
           intros (k' & m' & rest' & _ & _ & Hm & Hf).
           injection Hm as <-. congruence.
        -- simpl. split; [now left|]. intros token. split; [discriminate|].
           intros (k' & m' & rest' & _ & _ & Hm & Hf).
           injection Hm as <-. congruence.
      * simpl. split; [now left|]. intros token. split; [discriminate|].
        intros (k' & m' & rest' & Hk & Hg' & _).
        injection Hk as <-. congruence.
    + simpl. split; [now left|]. intros token. split; [discriminate|].
      intros (k' & m' & rest' & _ & _ & Hm & _). discriminate.
  - destruct message; simpl; (split; [now left|]); intros token;
      (split; [discriminate|]); intros (k' & m' & rest' & Hk & _);
      discriminate.
  - simpl. split; [now left|]. intros token. split; [discriminate|].
    intros (k' & m' & rest' & Hk & _). discriminate.
Qed.

End AdapterProperties.

(** ** The signing time in the digest *)

Lemma be_decode_from (b : bytes) (z : Z) :
  fold_left (fun a x => a * 256 + Z_of_byte x) b z
  = z * 256 ^ len b + be_decode b.
Proof.
  unfold be_decode. revert z. induction b as [|x b IH]; intros z.
  - change (len (@nil byte)) with 0. simpl. lia.
  - simpl fold_left. rewrite (IH (z * 256 + Z_of_byte x)).
    rewrite (IH (0 * 256 + Z_of_byte x)).
    replace (len (x :: b)) with (len b + 1)
      by (unfold len; simpl length; lia).
    rewrite Z.pow_add_r by (unfold len; lia). lia.
Qed.

Lemma be_decode_app (a b : bytes) :
  be_decode (a ++ b) = be_decode a * 256 ^ len b + be_decode b.
Proof.
  unfold be_decode at 1. rewrite fold_left_app. apply be_decode_from.
Qed.

Lemma be_decode_be16 (v : Z) : 0 <= v < 65536 -> be_decode (be16 v) = v.
Proof.
  intros H. pose proof (unpack_be16 v H) as Hu.
  unfold unpack_H, be16 in Hu. injection Hu as Hu.
  unfold be_decode, be16. simpl. lia.
Qed.

Lemma be_decode_be32 (v : Z) :
  0 <= v < 4294967296 -> be_decode (be32 v) = v.
Proof.
  intros H. unfold be_decode, be32. simpl. rewrite !Z_of_byte_of_Z.
  change 255 with (Z.ones 8).
  rewrite Z.land_ones, !Z.shiftr_div_pow2 by lia.
  change (2 ^ 8) with 256. change (2 ^ 16) with 65536.
  change (2 ^ 24) with 16777216. rewrite Z.mod_mod by lia.
  assert (H24 : 0 <= v / 16777216 < 256)
    by (split; [apply Z.div_pos; lia|apply Z.div_lt_upper_bound; lia]).
  rewrite (Z.mod_small (v / 16777216)) by lia.
  pose proof (Z.div_mod v 256 ltac:(lia)).
  pose proof (Z.div_mod (v / 256) 256 ltac:(lia)).
  pose proof (Z.div_mod (v / 256 / 256) 256 ltac:(lia)).
  rewrite !Z.div_div in * by lia.
  change (256 * 256) with 65536 in *.
  change (65536 * 256) with 16777216 in *.
  pose proof (Z.mod_pos_bound v 256 ltac:(lia)).
  pose proof (Z.mod_pos_bound (v / 256) 256 ltac:(lia)).
  pose proof (Z.mod_pos_bound (v / 65536) 256 ltac:(lia)).
  assert (Hlast : (v / 16777216) mod 256 = v / 16777216)
    by (apply Z.mod_small; lia).
  lia.
Qed.

Lemma time_upper_shift (t k : Z) :
  Z.land (Z.shiftr (t + k * 2 ^ 48) 32) 65535
  = Z.land (Z.shiftr t 32) 65535.
Proof.
  change 65535 with (Z.ones 16).
  rewrite !Z.land_ones, !Z.shiftr_div_pow2 by lia.
  replace (t + k * 2 ^ 48) with (t + (k * 2 ^ 16) * 2 ^ 32)
    by (change (2 ^ 48) with (2 ^ 16 * 2 ^ 32); lia).
  rewrite Z.div_add by lia. now rewrite Z.mod_add by lia.
Qed.

Lemma time_lower_shift (t k : Z) :
  Z.land (t + k * 2 ^ 48) 4294967295 = Z.land t 4294967295.
Proof.
  change 4294967295 with (Z.ones 32).
  rewrite !Z.land_ones by lia.
  replace (t + k * 2 ^ 48) with (t + (k * 2 ^ 16) * 2 ^ 32)
    by (change (2 ^ 48) with (2 ^ 16 * 2 ^ 32); lia).
  now rewrite Z.mod_add by lia.
Qed.

(** Any integer is taken as a signing time: [_digest] never raises on
    its size or sign, and digests it modulo 2^48.  The six bytes it packs
    for the time are the big-endian form of the time modulo 2^48, the two
    bytes after them are the fudge, and two times that differ by a
    multiple of 2^48 give the same digest. *)
Theorem signing_time_modulo_2_48 (wire : bytes) (key : Key) (rdata : TSIG)
    (t k : Z) (rm : option bytes) (ctx : option nat) (multi : bool) :
  _digest wire key rdata (Some (t + k * 2 ^ 48)) rm ctx multi
  = _digest wire key rdata (Some t) rm ctx multi /\
  (0 <= fudge rdata < 65536 ->
   exists b,
     pack_HIH (Z.land (Z.shiftr t 32) 65535) (Z.land t 4294967295)
       (fudge rdata) = Ok b /\
     length b = 8%nat /\
     be_decode (take 6 b) = t mod 2 ^ 48 /\
     be_decode (drop 6 b) = fudge rdata).
Proof.
  split.
  - unfold _digest. cbv beta zeta iota delta [bind lift].
    now rewrite time_upper_shift, time_lower_shift.
  - intros Hf. rewrite pack_HIH_time by assumption.
    exists (timestamp_block t (fudge rdata)).
    split; [reflexivity|]. split; [reflexivity|].
    pose proof (land_ones_range (Z.shiftr t 32) 16 ltac:(lia)) as Hu.
    pose proof (land_ones_range t 32 ltac:(lia)) as Hl.
    change (Z.ones 16) with 65535 in Hu.
    change (Z.ones 32) with 4294967295 in Hl.
    change (2 ^ 16) with 65536 in Hu. change (2 ^ 32) with 4294967296 in Hl.
    unfold timestamp_block. split.
    + change (take 6 (be16 (Z.land (Z.shiftr t 32) 65535)
                      ++ be32 (Z.land t 4294967295) ++ be16 (fudge rdata)))
        with (be16 (Z.land (Z.shiftr t 32) 65535)
              ++ be32 (Z.land t 4294967295)).
      rewrite be_decode_app, be_decode_be16, be_decode_be32 by lia.
      change (len (be32 (Z.land t 4294967295))) with 4.
      change 65535 with (Z.ones 16). change 4294967295 with (Z.ones 32).
      rewrite !Z.land_ones, Z.shiftr_div_pow2 by lia.
      change (2 ^ 48) with (2 ^ 32 * 2 ^ 16).
      rewrite Z.rem_mul_r by lia. change (256 ^ 4) with (2 ^ 32). lia.
    + change (drop 6 (be16 (Z.land (Z.shiftr t 32) 65535)
                      ++ be32 (Z.land t 4294967295) ++ be16 (fudge rdata)))
        with (be16 (fudge rdata)).
      now apply be_decode_be16.
Qed.

(** ** The wire that [validate] reads *)

Lemma unpack_H_length (b : bytes) :
  length b <> 2%nat -> unpack_H b = Err StructError.
Proof.
  destruct b as [|x [|y [|z b]]]; simpl; intros H; try reflexivity.
  now contradiction H.
Qed.

Lemma slice_app_in_range (w x : bytes) (lo hi : Z) :
  0 <= lo <= hi -> hi <= len w -> slice (w ++ x) lo hi = slice w lo hi.
Proof.
  intros Hlo Hhi.
  rewrite !slice_in_range
    by (try assumption; unfold len in *; rewrite ?length_app; lia).
  rewrite drop_app_le by (unfold len in *; lia).
  rewrite take_app_le; [reflexivity|].
  rewrite length_drop. unfold len in *. lia.
Qed.

(** [validate] on a wire shorter than the DNS header: fewer than 12 bytes
    make it raise struct.error before any check, whatever the other
    arguments are, and no engine is touched.  On a wire of 12 bytes or
    more the count of additional records is always read, as bytes 10 and
    11 in network order. *)
Theorem validate_short_wire
    (hmac_digest : HashAlg -> bytes -> bytes -> bytes) (wire : bytes)
    (key : Key) (owner : Name) (rdata : TSIG) (now : Z)
    (rm : option bytes) (tsig_start : Z) (ctx : option nat)
    (multi : bool) (s : list Engine) :
  (len wire < 12 ->
   validate hmac_digest wire key owner rdata now rm tsig_start ctx multi s
   = (s, Err StructError)) /\
  (12 <= len wire ->
   exists hi lo,
     wire !! 10%nat = Some hi /\ wire !! 11%nat = Some lo /\
     unpack_H (slice wire 10 12) = Ok (Z_of_byte hi * 256 + Z_of_byte lo)).
Proof.
  split.
  - intros Hlen. unfold validate, bind, lift.
    rewrite unpack_H_length; [reflexivity|].
    unfold slice, slice_index. simpl.
    rewrite length_take, length_drop. unfold len in *. lia.
  - intros Hlen. unfold len in Hlen.
    destruct (lookup_lt_is_Some_2 wire 10%nat ltac:(lia)) as [hi Hhi].
    destruct (lookup_lt_is_Some_2 wire 11%nat ltac:(lia)) as [lo Hlo].
    exists hi, lo. split; [exact Hhi|]. split; [exact Hlo|].
    rewrite slice_in_range by (unfold len; lia).
    change (Z.to_nat (12 - 10)) with 2%nat.
    change (Z.to_nat 10) with 10%nat.
    rewrite (drop_S wire hi 10 Hhi).
    rewrite (drop_S wire lo 11 Hlo). reflexivity.
Qed.

(** [validate] digests nothing from [tsig_start] on: two wires that
    agree up to that offset, which lies behind the header, are validated
    with the same outcome, whatever follows the offset in either. *)
Theorem bytes_from_tsig_start_not_digested
    (hmac_digest : HashAlg -> bytes -> bytes -> bytes) (w x y : bytes)
    (key : Key) (owner : Name) (rdata : TSIG) (now : Z)
    (rm : option bytes) (ctx : option nat) (multi : bool)
    (s : list Engine) :
  12 <= len w ->
  validate hmac_digest (w ++ x) key owner rdata now rm (len w) ctx multi s
  = validate hmac_digest (w ++ y) key owner rdata now rm (len w) ctx
      multi s.
Proof.
  intros Hlen.
  assert (Hs : forall z lo hi, 0 <= lo <= hi -> hi <= len w ->
                 slice (w ++ z) lo hi = slice w lo hi)
    by (intros; now apply slice_app_in_range).
  unfold validate.
  rewrite !(Hs x), !(Hs y) by lia. reflexivity.
Qed.

(** ** What [sign] and [validate] leave alone *)

Lemma keeps_ret {A} (n : nat) (sp : option nat) (Q : A -> Prop) (a : A) :
  Q a -> keeps n sp Q (ret a).
Proof.
  intros Ha s Hs. unfold ret, final, result. simpl.
  repeat split; auto. intros b H. now injection H as <-.
Qed.

Lemma keeps_ret_True {A} (n : nat) (sp : option nat) (a : A) :
  keeps n sp (fun _ => True) (ret a).
Proof. now apply keeps_ret. Qed.

Lemma keeps_raise {A} (n : nat) (sp : option nat) (Q : A -> Prop)
    (e : Exn) :
  keeps n sp Q (raise e).
Proof.
  intros s Hs. unfold raise, final, result. simpl.
  repeat split; auto. discriminate.
Qed.

Lemma keeps_lift_True {A} (n : nat) (sp : option nat) (r : Res A) :
  keeps n sp (fun _ => True) (lift r).
Proof. intros s Hs. unfold lift, final, result. simpl. auto. Qed.

Lemma keeps_bind {A B} (n : nat) (sp : option nat) (Q : A -> Prop)
    (R : B -> Prop) (m : M A) (k : A -> M B) :
  keeps n sp Q m -> (forall a, Q a -> keeps n sp R (k a)) ->
  keeps n sp R (bind m k).
Proof.
  intros Hm Hk s Hs. specialize (Hm s Hs). unfold bind, final, result in *.
  destruct (m s) as [s' [a|x]]; simpl in *.
  - destruct Hm as (Hlen & Hkeep & HQ).
    specialize (Hk a (HQ a eq_refl) s' Hlen). unfold final, result in Hk.
    destruct (k a s') as [s'' r]; simpl in *.
    destruct Hk as (Hlen' & Hkeep' & HR).
    repeat split; auto. intros i Hi Hsp.
    rewrite Hkeep' by assumption. now apply Hkeep.
  - destruct Hm as (Hlen & Hkeep & _). repeat split; auto. discriminate.
Qed.

Lemma keeps_weaken {A} (n : nat) (sp : option nat) (Q R : A -> Prop)
    (m : M A) :
  (forall a, Q a -> R a) -> keeps n sp Q m -> keeps n sp R m.
Proof.
  intros H Hm s Hs. destruct (Hm s Hs) as (H1 & H2 & H3).
  repeat split; auto.
Qed.

Lemma keeps_ctx_update (n : nat) (sp : option nat) (r : nat) (d : bytes) :
  (n <= r)%nat \/ sp = Some r ->
  keeps n sp (fun _ => True) (ctx_update r d).
Proof.
  intros Hr s Hs. unfold ctx_update, final, result.
  destruct (s !! r) as [e|]; simpl; [|auto].
  rewrite length_insert. repeat split; auto.
  intros i Hi Hsp. apply list_lookup_insert_ne.
  destruct Hr as [Hr| ->]; [lia|congruence].
Qed.

Lemma keeps_get_context (n : nat) (sp : option nat) (key : Key) :
  keeps n sp (fun r => (n <= r)%nat) (get_context key).
Proof.
  intros s Hs. rewrite get_context_new. unfold final, result.
  destruct (new_engine key) as [e|x]; simpl.
  - rewrite length_app. repeat split; [lia| |].
    + intros i Hi _. apply lookup_app_l. lia.
    + intros a H. injection H as <-. exact Hs.
  - repeat split; auto. discriminate.
Qed.

Ltac keeps_step :=
  first
    [ apply keeps_ret_True
    | apply keeps_lift_True
    | apply keeps_raise
    | apply keeps_ctx_update; tauto
    | match goal with
      | |- keeps _ _ _ (if ?b then _ else _) => destruct b
      end
    | eapply keeps_bind; [|intros ? ?] ].

Lemma keeps__digest_start (n : nat) (sp : option nat) (key : Key)
    (rm : option bytes) :
  keeps n sp (fun r => (n <= r)%nat) (_digest_start key rm).
Proof.
  unfold _digest_start.
  eapply keeps_bind; [apply keeps_get_context|]. intros r Hr.
  eapply keeps_bind; [|intros ? ?; now apply keeps_ret].
  repeat keeps_step.
Qed.

Lemma keeps__digest (n : nat) (wire : bytes) (key : Key) (rdata : TSIG)
    (time : option Z) (rm : option bytes) (ctx : option nat)
    (multi : bool) :
  keeps n (fed_context ctx multi)
    (fun r => (n <= r)%nat \/ fed_context ctx multi = Some r)
    (_digest wire key rdata time rm ctx multi).
Proof.
  unfold _digest. cbv zeta.
  eapply keeps_bind.
  - instantiate (1 := fun r => (n <= r)%nat
                               \/ fed_context ctx multi = Some r).
    destruct ctx as [c|]; [destruct multi|].
    + apply keeps_ret. now right.
    + eapply keeps_weaken; [|apply keeps__digest_start]. tauto.
    + eapply keeps_weaken; [|apply keeps__digest_start]. tauto.
  - intros r Hr.
    eapply keeps_bind; [apply keeps_lift_True|]. intros id _.
    eapply keeps_bind; [now apply keeps_ctx_update|]. intros _ _.
    eapply keeps_bind; [now apply keeps_ctx_update|]. intros _ _.
    eapply keeps_bind; [repeat keeps_step|]. intros _ _.
    eapply keeps_bind; [apply keeps_lift_True|]. intros t _.
    eapply keeps_bind; [apply keeps_lift_True|]. intros te _.
    eapply keeps_bind; [repeat keeps_step|]. intros _ _.
    eapply keeps_bind; [repeat keeps_step|]. intros _ _.
    now apply keeps_ret.
Qed.

Lemma keeps__maybe_start_digest (n : nat) (sp : option nat) (key : Key)
    (m : bytes) (multi : bool) :
  keeps n sp (fun _ => True) (_maybe_start_digest key m multi).
Proof.
  unfold _maybe_start_digest. destruct multi; [|apply keeps_ret_True].
  eapply keeps_bind; [apply keeps_get_context|]. intros r Hr.
  repeat keeps_step.
Qed.

Section Untouched.

Context (hmac_digest : HashAlg -> bytes -> bytes -> bytes).

Lemma keeps_ctx_sign (n : nat) (sp : option nat) (r : nat) :
  keeps n sp (fun _ => True) (ctx_sign hmac_digest r).
Proof.
  intros s Hs. unfold ctx_sign, final, result.
  destruct (s !! r); simpl; auto.
Qed.

Lemma keeps_ctx_verify (n : nat) (sp : option nat) (r : nat)
    (expected : bytes) :
  keeps n sp (fun _ => True) (ctx_verify hmac_digest r expected).
Proof.
  intros s Hs. unfold ctx_verify, final, result.
  destruct (s !! r); simpl; auto.
Qed.

Lemma keeps_sign (n : nat) (wire : bytes) (key : Key) (rdata : TSIG)
    (time : option Z) (rm : option bytes) (ctx : option nat)
    (multi : bool) :
  keeps n (fed_context ctx multi) (fun _ => True)
    (sign hmac_digest wire key rdata time rm ctx multi).
Proof.
  unfold sign.
  eapply keeps_bind; [apply keeps__digest|]. intros r Hr.
  eapply keeps_bind; [apply keeps_ctx_sign|]. intros m _.
  eapply keeps_bind; [apply keeps__maybe_start_digest|]. intros c _.
  apply keeps_ret_True.
Qed.

Lemma keeps_validate (n : nat) (wire : bytes) (key : Key) (owner : Name)
    (rdata : TSIG) (now : Z) (rm : option bytes) (tsig_start : Z)
    (ctx : option nat) (multi : bool) :
  keeps n (fed_context ctx multi) (fun _ => True)
    (validate hmac_digest wire key owner rdata now rm tsig_start ctx multi).
Proof.
  unfold validate.
  eapply keeps_bind; [apply keeps_lift_True|]. intros adcount _.
  eapply keeps_bind; [repeat keeps_step|]. intros _ _.
  eapply keeps_bind; [apply keeps_lift_True|]. intros count _.
  eapply keeps_bind; [repeat keeps_step|]. intros _ _.
  eapply keeps_bind; [apply keeps_lift_True|]. intros signed _.
  eapply keeps_bind; [repeat keeps_step|]. intros _ _.
  eapply keeps_bind; [repeat keeps_step|]. intros _ _.
  eapply keeps_bind; [repeat keeps_step|]. intros _ _.
  eapply keeps_bind; [apply keeps__digest|]. intros r Hr.
  eapply keeps_bind; [apply keeps_ctx_verify|]. intros v _.
  apply keeps__maybe_start_digest.
Qed.

(** Whatever their arguments and whatever their outcome, [sign] and
    [validate] remove no engine from the store and change the state of no
    engine that was in it, except the context that was passed when it is
    passed together with [multi]; a context passed without [multi] is
    among those left as they were. *)
Theorem sign_validate_leave_engines (wire : bytes) (key : Key)
    (owner : Name) (rdata : TSIG) (time : option Z) (now : Z)
    (rm : option bytes) (tsig_start : Z) (ctx : option nat)
    (multi : bool) (s : list Engine) :
  untouched (fed_context ctx multi) s
    (final (sign hmac_digest wire key rdata time rm ctx multi s)) /\
  untouched (fed_context ctx multi) s
    (final (validate hmac_digest wire key owner rdata now rm tsig_start
              ctx multi s)).
Proof.
  split.
  - destruct (keeps_sign (length s) wire key rdata time rm ctx multi s
                (le_n _)) as (H1 & H2 & _). now split.
  - destruct (keeps_validate (length s) wire key owner rdata now rm
                tsig_start ctx multi s (le_n _)) as (H1 & H2 & _).
    now split.
Qed.

End Untouched.

(** ** The further properties on the sample messages *)

Lemma maybe_start_digest_seeds_witness :
  new_engine sample_key = Ok (EHMAC sample_hmac_engine) /\
  len [x01; x02] < 65536 /\
  exists e',
    _maybe_start_digest sample_key [x01; x02] true [sample_engine]
    = ([sample_engine; e'], Ok (Some 1%nat)) /\
    fed e' = be16 (len [x01; x02]) ++ [x01; x02].
Proof.
  split; [reflexivity|]. split; [unfold len; simpl; lia|].
  destruct (maybe_start_digest_seeds sample_key [x01; x02] [sample_engine])
    as (_ & H & _).
  destruct (H (EHMAC sample_hmac_engine) eq_refl) as [H' _].
  destruct (H' ltac:(unfold len; simpl; lia)) as (e' & H1 & H2 & _).
  exists e'. split; [exact H1|exact H2].
Defined.

Lemma sign_returns_witness :
  exists s2 tsig r e,
    sign checksum_mac sample_wire sample_key sample_rdata
      (Some 1600000005) None None true [] = (s2, Ok (tsig, Some r)) /\
    time_signed tsig = Some 1600000005 /\
    s2 !! r = Some e /\
    fed e = be16 (len (mac tsig)) ++ mac tsig.
Proof.
  destruct (sign checksum_mac sample_wire sample_key sample_rdata
              (Some 1600000005) None None true []) as [s2 [[tsig c]|x]]
    eqn:Hs; [|vm_compute in Hs; discriminate Hs].
  destruct (sign_returns checksum_mac sample_wire sample_key sample_rdata
              (Some 1600000005) None None true [] s2 tsig c Hs)
    as (_ & Ht & _ & _ & _ & _ & _ & H).
  destruct (H eq_refl) as (r & e & -> & _ & Hr & Hfed).
  exists s2, tsig, r, e. auto.
Defined.

Lemma sign_sequence_macs_witness :
  (forall h k d, length (checksum_mac h k d) = digest_size h) /\
  new_engine sample_key = Ok (EHMAC sample_hmac_engine) /\
  packable sample_rdata /\
  exists tsig1 c1 s1 tsig2 c2 s2,
    sign checksum_mac sample_wire sample_key sample_rdata
      (Some 1600000000) None None true [] = (s1, Ok (tsig1, Some c1)) /\
    sign checksum_mac sample_wire2 sample_key sample_rdata
      (Some 1600000001) None (Some c1) true s1 = (s2, Ok (tsig2, Some c2)) /\
    mac tsig2
    = HMACTSig_sign checksum_mac
        (HMACTSig_update sample_hmac_engine
           ((be16 (len (mac tsig1)) ++ mac tsig1)
            ++ (be16 (original_id sample_rdata) ++ slice_from sample_wire2 2)
            ++ timestamp_block 1600000001 (fudge sample_rdata))).
Proof.
  assert (Hp : packable sample_rdata)
    by (unfold packable, len; simpl; lia).
  split; [exact checksum_mac_length|]. split; [reflexivity|].
  split; [exact Hp|].
  destruct (sign_sequence_macs checksum_mac checksum_mac_length
              sample_wire sample_wire2 sample_key sample_rdata sample_rdata
              1600000000 1600000001 None None [] sample_hmac_engine
              eq_refl ltac:(unfold len; simpl; lia) Hp
              ltac:(simpl; lia) ltac:(simpl; lia)
              ltac:(unfold len; simpl; lia))
    as (tsig1 & c1 & s1 & tsig2 & c2 & s2 & H1 & _ & H2 & H3).
  exists tsig1, c1, s1, tsig2, c2, s2. auto.
Defined.

Lemma first_exchange_in_sync_witness :
  (forall h k d, length (checksum_mac h k d) = digest_size h) /\
  new_engine sample_key = Ok (EHMAC sample_hmac_engine) /\
  unpack_H (slice sample_wire 10 12) = Ok 0 /\
  Z.abs (1600000000 - 1600000010) <= fudge sample_rdata /\
  exists tsig c s1 signed_wire c' s2 next,
    sign checksum_mac sample_wire sample_key sample_rdata
      (Some 1600000000) None None true [] = (s1, Ok (tsig, Some c)) /\
    wire_with_tsig sample_wire [xff] = Ok signed_wire /\
    validate checksum_mac signed_wire sample_key (key_name sample_key)
      tsig 1600000010 None (len sample_wire) None true [sample_engine]
    = (s2, Ok (Some c')) /\
    s1 !! c = Some next /\ s2 !! c' = Some next.
Proof.
  split; [exact checksum_mac_length|]. split; [reflexivity|].
  split; [reflexivity|]. split; [simpl; lia|].
  destruct (first_exchange_in_sync checksum_mac checksum_mac_length
              sample_wire [xff] sample_key sample_rdata
              1600000000 1600000010 None [] [sample_engine]
              sample_hmac_engine 0
              eq_refl ltac:(unfold len; simpl; lia) eq_refl ltac:(lia)
              eq_refl ltac:(simpl; lia) ltac:(simpl; lia)
              ltac:(unfold len; simpl; lia) ltac:(unfold len; simpl; lia)
              ltac:(simpl; lia))
    as (tsig & c & s1 & w & c' & s2 & next & H1 & H2 & H3 & H4 & H5 & _).
  exists tsig, c, s1, w, c', s2, next. auto.
Defined.


Lemma validate_accepts_exactly_witness :
  let h1 := HMACTSig_update sample_hmac_engine
              (first_stream (stripped_wire sample_signed_wire 1 21)
                 sample_key sample_rdata 1600000000 None) in
  let expected := HMACTSig_sign checksum_mac h1 in
  (forall h k d, length (checksum_mac h k d) = digest_size h) /\
  unpack_H (slice sample_signed_wire 10 12) = Ok 1 /\
  checks_pass sample_key (key_name sample_key) sample_rdata 1600000100 1 /\
  (5 < length expected)%nat /\
  validate checksum_mac sample_signed_wire sample_key (key_name sample_key)
    (with_mac sample_rdata (flip_bit_at 5 2 expected)) 1600000100 None 21
    None false []
  = ([EHMAC h1], Err BadSignature).
Proof.
  intros h1 expected.
  assert (Hchk : checks_pass sample_key (key_name sample_key) sample_rdata
                   1600000100 1).
  { unfold checks_pass. split; [lia|]. split; [reflexivity|].
    split; [exists 1600000000; split; [reflexivity|simpl; lia]|].
    split; reflexivity. }
  assert (Hlen : (5 < length expected)%nat).
  { unfold expected. unfold HMACTSig_sign. simpl size. cbv iota.
    rewrite checksum_mac_length. simpl. lia. }
  split; [exact checksum_mac_length|]. split; [reflexivity|].
  split; [exact Hchk|]. split; [exact Hlen|].
  destruct (validate_accepts_exactly checksum_mac checksum_mac_length
              sample_signed_wire sample_key (key_name sample_key)
              sample_rdata 1600000100 None 21 None false [] 1 1600000000
              sample_hmac_engine eq_refl Hchk eq_refl eq_refl eq_refl
              ltac:(unfold len; simpl; lia)
              ltac:(unfold packable, len; simpl; lia))
    as (_ & _ & H).
  exact (H 5%nat 2%nat Hlen ltac:(lia)).
Defined.


Lemma validate_raises_only_witness :
  result (validate checksum_mac sample_signed_wire sample_gss_key
            (key_name sample_gss_key)
            (with_algorithm sample_rdata GSS_TSIG) 1600000000 None 21
            None false [])
  = Err BadSignature /\
  validate_error BadSignature.
Proof.
  split; [reflexivity|].
  apply (validate_raises_only checksum_mac sample_signed_wire
           sample_gss_key (key_name sample_gss_key)
           (with_algorithm sample_rdata GSS_TSIG) 1600000000 None 21
           None false []).
  reflexivity.
Defined.

Lemma message_id_not_digested_witness :
  length [x12; x34] = 2%nat /\ length [xab; xcd] = 2%nat /\
  sign checksum_mac ([x12; x34] ++ skipn 2 sample_wire) sample_key
    sample_rdata (Some 1600000000) None None false []
  = sign checksum_mac ([xab; xcd] ++ skipn 2 sample_wire) sample_key
      sample_rdata (Some 1600000000) None None false [].
Proof.
  split; [reflexivity|]. split; [reflexivity|].
  apply (message_id_not_digested checksum_mac [x12; x34] [xab; xcd]
           (skipn 2 sample_wire) sample_key [] sample_rdata
           (Some 1600000000) 0 None 0 None false [] eq_refl eq_refl).
Defined.

Lemma equal_keys_interchangeable_witness :
  (forall a b,
      bytes_secret_eq (SecretBytes a) (SecretBytes b) = bytes_eqb a b) /\
  Key_eq bytes_secret_eq sample_key sample_key_upper = true /\
  new_engine sample_key = Ok (EHMAC sample_hmac_engine) /\
  validate checksum_mac sample_signed_wire sample_key_upper
    (key_name sample_key) sample_rdata 1600000000 None 21 None false []
  = validate checksum_mac sample_signed_wire sample_key
      (key_name sample_key) sample_rdata 1600000000 None 21 None false [].
Proof.
  split; [reflexivity|]. split; [reflexivity|]. split; [reflexivity|].
  destruct (equal_keys_interchangeable checksum_mac bytes_secret_eq
              sample_key sample_key_upper [x01; x02; x03] [x01; x02; x03]
              (EHMAC sample_hmac_engine) (fun a b => eq_refl)
              eq_refl eq_refl) as [_ H].
  destruct (H eq_refl eq_refl) as (_ & _ & Hv).
  apply Hv.
Defined.

Lemma gss_engine_passes_fed_bytes_witness :
  GSSTSig_sign
    (fold_left GSSTSig_update [[x01]; [x02; x03]]
       (GSSTSig_init (SecretContext fixed_context)))
  = get_signature fixed_context [x01; x02; x03] /\
  GSSTSig_verify
    (fold_left GSSTSig_update [[x01]; [x02; x03]]
       (GSSTSig_init (SecretBytes [x09]))) [x2a]
  = Err BadSignature.
Proof.
  destruct (gss_engine_passes_fed_bytes (SecretContext fixed_context)
              [[x01]; [x02; x03]] [x2a]) as [H _].
  destruct (gss_engine_passes_fed_bytes (SecretBytes [x09])
              [[x01]; [x02; x03]] [x2a]) as [_ H'].
  split.
  - exact (proj1 (H fixed_context eq_refl)).
  - exact (proj2 (H' [x09] eq_refl)).
Defined.

Lemma get_context_outcomes_witness :
  name_eqb (key_algorithm sample_gss_key) GSS_TSIG = true /\
  get_context sample_gss_key [sample_engine]
  = ([sample_engine;
      EGSS {| gssapi_context := SecretContext fixed_context; data := [] |}],
     Ok 1%nat) /\
  name_eqb HMAC_SHA256 GSS_TSIG = false /\
  dict_get _hashes HMAC_SHA256 = Some (Plain sha256) /\
  get_context
    {| key_name := [label "k"]; key_secret := SecretContext fixed_context;
       key_algorithm := HMAC_SHA256 |} [sample_engine]
  = ([sample_engine], Err TypeError).
Proof.
  split; [reflexivity|]. split.
  - exact (proj1 (get_context_outcomes sample_gss_key [sample_engine])
             eq_refl).
  - split; [reflexivity|]. split; [reflexivity|].
    destruct (get_context_outcomes
                {| key_name := [label "k"];
                   key_secret := SecretContext fixed_context;
                   key_algorithm := HMAC_SHA256 |} [sample_engine])
      as (_ & H & _).
    exact (proj2 (H (Plain sha256) eq_refl eq_refl) fixed_context eq_refl).
Defined.

Lemma gss_key_sign_validate_witness :
  name_eqb (key_algorithm sample_gss_key) GSS_TSIG = true /\
  key_secret sample_gss_key = SecretContext fixed_context /\
  packable sample_rdata /\
  get_signature fixed_context
    (first_stream sample_wire sample_gss_key sample_rdata 1600000000 None)
  = Ok [x2a] /\
  sign checksum_mac sample_wire sample_gss_key sample_rdata None None None
    false []
  = ([engine_update (EGSS (GSSTSig_init (SecretContext fixed_context)))
        (first_stream sample_wire sample_gss_key sample_rdata 1600000000
           None)],
     Ok (TSIG_init rdataclass_ANY rdatatype_TSIG GSS_TSIG None 300 [x2a]
           4660 0 [], None)).
Proof.
  assert (Hp : packable sample_rdata)
    by (unfold packable, len; simpl; lia).
  split; [reflexivity|]. split; [reflexivity|]. split; [exact Hp|].
  split; [reflexivity|].
  destruct (gss_key_sign_validate checksum_mac sample_wire sample_gss_key
              [] sample_rdata None 0 None 0 None [] fixed_context
              1600000000 0 eq_refl eq_refl
              ltac:(unfold len; simpl; lia) Hp) as [H _].
  destruct (H eq_refl) as [H' _].
  exact (H' [x2a] eq_refl).
Defined.

Lemma adapter_returns_entry_witness :
  dict_get sample_keyring [label "GSS"; label "Example"]
  = Some (EntryKey sample_gss_key) /\
  name_eqb (key_algorithm sample_gss_key) GSS_TSIG = true /\
  sample_find_rrset [] [label "GSS"; label "Example"] = FoundKeyError /\
  GSSTSigAdapter_call (list (Name * list bytes)) sample_find_rrset
    sample_step sample_keyring (Some []) [label "GSS"; label "Example"]
  = ([], Ok (Some (EntryKey sample_gss_key))).
Proof.
  split; [reflexivity|]. split; [reflexivity|]. split; [reflexivity|].
  destruct (adapter_returns_entry (list (Name * list bytes))
              sample_find_rrset sample_step sample_keyring (Some [])
              [label "GSS"; label "Example"]) as (_ & _ & H).
  exact (proj1 (H sample_gss_key [] eq_refl eq_refl eq_refl) eq_refl).
Defined.

Lemma adapter_steps_once_witness :
  dict_get sample_keyring [label "gss"; label "example"]
  = Some (EntryKey sample_gss_key) /\
  sample_find_rrset sample_message [label "gss"; label "example"]
  = FoundRRset [[x0a; x0b]; [x0c]] /\
  fst (GSSTSigAdapter_call (list (Name * list bytes)) sample_find_rrset
         sample_step sample_keyring (Some sample_message)
         [label "gss"; label "example"])
  = [[x0a; x0b]].
Proof.
  split; [reflexivity|]. split; [reflexivity|].
  destruct (adapter_steps_once (list (Name * list bytes))
              sample_find_rrset sample_step sample_keyring
              (Some sample_message) [label "gss"; label "example"])
    as [_ H].
  apply (H [x0a; x0b]).
  exists sample_gss_key, sample_message, [[x0c]].
  repeat split; reflexivity.
Defined.

Lemma signing_time_modulo_2_48_witness :
  0 <= fudge sample_rdata < 65536 /\
  exists b,
    pack_HIH (Z.land (Z.shiftr (2 ^ 48 + 5) 32) 65535)
      (Z.land (2 ^ 48 + 5) 4294967295) (fudge sample_rdata) = Ok b /\
    be_decode (take 6 b) = (2 ^ 48 + 5) mod 2 ^ 48.
Proof.
  split; [simpl; lia|].
  destruct (proj2 (signing_time_modulo_2_48 sample_wire sample_key
                     sample_rdata (2 ^ 48 + 5) 0 None None false)
              ltac:(simpl; lia)) as (b & H1 & _ & H2 & _).
  exists b. split; [exact H1|exact H2].
Defined.

Lemma validate_short_wire_witness :
  len [x12; x34; x01; x00; x00; x01; x00; x00; x00; x00; x00] < 12 /\
  validate checksum_mac
    [x12; x34; x01; x00; x00; x01; x00; x00; x00; x00; x00] sample_key
    (key_name sample_key) sample_peer_rdata 1600000000 None 11 None false
    [sample_engine]
  = ([sample_engine], Err StructError).
Proof.
  split; [unfold len; simpl; lia|].
  apply (validate_short_wire checksum_mac
           [x12; x34; x01; x00; x00; x01; x00; x00; x00; x00; x00]
           sample_key (key_name sample_key) sample_peer_rdata 1600000000
           None 11 None false [sample_engine]).
  unfold len. simpl. lia.
Defined.

Lemma bytes_from_tsig_start_not_digested_witness :
  12 <= len sample_wire /\
  validate checksum_mac (sample_wire ++ [xff]) sample_key
    (key_name sample_key) sample_rdata 1600000000 None (len sample_wire)
    None false []
  = validate checksum_mac (sample_wire ++ [x00; x01; x02]) sample_key
      (key_name sample_key) sample_rdata 1600000000 None (len sample_wire)
      None false [].
Proof.
  split; [unfold len; simpl; lia|].
  apply (bytes_from_tsig_start_not_digested checksum_mac sample_wire [xff]
           [x00; x01; x02] sample_key (key_name sample_key) sample_rdata
           1600000000 None None false []).
  unfold len. simpl. lia.
Defined.

Lemma sign_validate_leave_engines_witness :
  final (sign checksum_mac sample_wire sample_key sample_rdata
           (Some 1600000000) None (Some 0%nat) false
           [sample_engine; sample_engine]) !! 0%nat
  = Some sample_engine.
Proof.
  destruct (sign_validate_leave_engines checksum_mac sample_wire sample_key
              [] sample_rdata (Some 1600000000) 0 None 0 (Some 0%nat) false
              [sample_engine; sample_engine]) as [[_ H] _].
  rewrite (H 0%nat ltac:(simpl; lia) ltac:(discriminate)). reflexivity.
Defined.

(** ** A context passed without [multi], and the omitted signing time *)

Lemma first_without_multi (ctx : option nat) (multi : bool) :
  multi = false \/ ctx = None -> is_first ctx multi = true.
Proof. intros [-> | ->]; [now destruct ctx|reflexivity]. Qed.

Lemma _digest_engine_error (wire : bytes) (key : Key) (rdata : TSIG)
    (time : option Z) (rm : option bytes) (ctx : option nat)
    (multi : bool) (s : list Engine) (x : Exn) :
  is_first ctx multi = true ->
  new_engine key = Err x ->
  _digest wire key rdata time rm ctx multi s = (s, Err x).
Proof.
  intros Hf Hx.
  assert (Hst : _digest_start key rm s = (s, Err x)).
  { unfold _digest_start. apply bind_err.
    now rewrite get_context_new, Hx. }
  unfold _digest. apply bind_err.
  unfold is_first in Hf. destruct ctx as [c|]; [|exact Hst].
  destruct multi; [discriminate|exact Hst].
Qed.

Section ContextUse.

Context (hmac_digest : HashAlg -> bytes -> bytes -> bytes).

Lemma signed_outcome_store (key : Key) (rdata : TSIG) (time : option Z)
    (multi : bool) (s1 : list Engine) (e1 : Engine) :
  exists ext,
    final (signed_outcome hmac_digest key rdata time multi s1 e1)
    = s1 ++ ext.
Proof.
  unfold signed_outcome, next_context.
  destruct (engine_sign hmac_digest e1) as [m|x];
    [|exists []; now rewrite app_nil_r].
  destruct multi; [|exists []; now rewrite app_nil_r].
  destruct (new_engine key) as [e|x];
    [|exists []; now rewrite app_nil_r].
  destruct (in_range (len m) 65536); eexists; reflexivity.
Qed.

Lemma verified_outcome_store (key : Key) (rdata : TSIG) (multi : bool)
    (s1 : list Engine) (e1 : Engine) :
  exists ext,
    final (verified_outcome hmac_digest key rdata multi s1 e1) = s1 ++ ext.
Proof.
  unfold verified_outcome, next_context.
  destruct (engine_verify hmac_digest e1 (mac rdata)) as [v|x];
    [|exists []; now rewrite app_nil_r].
  destruct multi; [|exists []; now rewrite app_nil_r].
  destruct (new_engine key) as [e|x];
    [|exists []; now rewrite app_nil_r].
  destruct (in_range (len (mac rdata)) 65536); eexists; reflexivity.
Qed.

(** C10.  In every call of [sign] or [validate] with [multi] false, or
    with no context, a context that was passed is ignored: the call does
    what the call without a context does, and on every outcome every
    engine that was in the store, the passed context among them, is in
    the state it had.  The call creates a new engine for the key (when
    none can be created the call raises that error) and digests the
    message into it as a first message: the new engine is put behind the
    store and is fed the length-prefixed request MAC, the original ID and
    the wire from offset 2, the key name, class ANY, a zero TTL, the
    algorithm name, the timestamp block, the error code, the length of
    the other data and the other data.  The MAC of the record that [sign]
    returns is what that engine signs, and [validate], once its checks
    before the digest have passed, returns or raises as that engine
    verifies the MAC of the rdata. *)
Theorem context_ignored_without_multi (wire : bytes) (key : Key)
    (owner : Name) (rdata : TSIG) (time : option Z) (now : Z)
    (rm : option bytes) (tsig_start : Z) (ctx : option nat)
    (multi : bool) (s : list Engine) :
  multi = false \/ ctx = None ->
  let signed := sign hmac_digest wire key rdata time rm ctx multi s in
  let validated :=
    validate hmac_digest wire key owner rdata now rm tsig_start ctx multi s
  in
  (_digest wire key rdata time rm ctx multi s
   = _digest wire key rdata time rm None multi s /\
   signed = sign hmac_digest wire key rdata time rm None multi s /\
   validated
   = validate hmac_digest wire key owner rdata now rm tsig_start None
       multi s /\
   untouched None s (final signed) /\
   untouched None s (final validated)) /\
  (forall x, new_engine key = Err x -> signed = (s, Err x)) /\
  (forall e t,
      new_engine key = Ok e ->
      effective_time time rdata = Some t ->
      len (bytes_of rm) < 65536 ->
      packable rdata ->
      let e1 := engine_update e (first_stream wire key rdata t rm) in
      fed e1 = length_prefixed_mac rm
               ++ (be16 (original_id rdata) ++ slice_from wire 2)
               ++ to_digestable (key_name key)
               ++ be16 rdataclass_ANY
               ++ be32 0
               ++ to_digestable (key_algorithm key)
               ++ timestamp_block t (fudge rdata)
               ++ be16 (error rdata)
               ++ be16 (len (other rdata))
               ++ other rdata /\
      _digest wire key rdata time rm ctx multi s
      = (s ++ [e1], Ok (length s)) /\
      (exists ext, final signed = s ++ [e1] ++ ext) /\
      (forall x, engine_sign hmac_digest e1 = Err x ->
                 signed = (s ++ [e1], Err x)) /\
      (forall s2 tsig c, signed = (s2, Ok (tsig, c)) ->
                         engine_sign hmac_digest e1 = Ok (mac tsig)) /\
      (forall m,
          engine_sign hmac_digest e1 = Ok m ->
          multi = false ->
          signed
          = (s ++ [e1],
             Ok (TSIG_init rdataclass_ANY rdatatype_TSIG
                   (key_algorithm key) time (fudge rdata) m
                   (original_id rdata) (error rdata) (other rdata),
                 None))) /\
      signed
      = signed_outcome hmac_digest key rdata time multi (s ++ [e1]) e1) /\
  (forall adcount,
      unpack_H (slice wire 10 12) = Ok adcount ->
      checks_pass key owner rdata now adcount ->
      (forall x, new_engine key = Err x -> validated = (s, Err x)) /\
      (forall e t,
          new_engine key = Ok e ->
          time_signed rdata = Some t ->
          len (bytes_of rm) < 65536 ->
          packable rdata ->
          let new_wire := stripped_wire wire adcount tsig_start in
          let e1 := engine_update e (first_stream new_wire key rdata t rm) in
          fed e1 = length_prefixed_mac rm
                   ++ (be16 (original_id rdata) ++ slice_from new_wire 2)
                   ++ to_digestable (key_name key)
                   ++ be16 rdataclass_ANY
                   ++ be32 0
                   ++ to_digestable (key_algorithm key)
                   ++ timestamp_block t (fudge rdata)
                   ++ be16 (error rdata)
                   ++ be16 (len (other rdata))
                   ++ other rdata /\
          (exists ext, final validated = s ++ [e1] ++ ext) /\
          (forall x, engine_verify hmac_digest e1 (mac rdata) = Err x ->
                     validated = (s ++ [e1], Err x)) /\
          (forall s2 c, validated = (s2, Ok c) ->
                        exists v,
                          engine_verify hmac_digest e1 (mac rdata)
                          = Ok v) /\
          (forall v,
              engine_verify hmac_digest e1 (mac rdata) = Ok v ->
              multi = false ->
              validated = (s ++ [e1], Ok None)) /\
          validated
          = verified_outcome hmac_digest key rdata multi (s ++ [e1]) e1)).
Proof.
  intros Hm signed validated.
  pose proof (first_without_multi ctx multi Hm) as Hf.
  assert (Hspare : fed_context ctx multi = None)
    by (unfold fed_context; now rewrite Hf).
  split; [|split; [|split]].
  - split; [|split; [|split; [|split]]].
    + destruct Hm as [-> | ->]; [now destruct ctx|reflexivity].
    + unfold signed. destruct Hm as [-> | ->]; [now destruct ctx|reflexivity].
    + unfold validated.
      destruct Hm as [-> | ->]; [now destruct ctx|reflexivity].
    + destruct (keeps_sign hmac_digest (length s) wire key rdata time rm
                  ctx multi s (le_n _)) as (H1 & H2 & _).
      rewrite Hspare in H2. now split.
    + destruct (keeps_validate hmac_digest (length s) wire key owner rdata
                  now rm tsig_start ctx multi s (le_n _)) as (H1 & H2 & _).
      rewrite Hspare in H2. now split.
  - intros x Hx. unfold signed, sign. apply bind_err.
    now apply _digest_engine_error.
  - intros e t He Ht Hrm Hp e1.
    assert (Hs : signed
                 = signed_outcome hmac_digest key rdata time multi
                     (s ++ [e1]) e1)
      by exact (sign_first_eq hmac_digest wire key rdata time rm ctx multi
                  s e t Hf He Ht Hrm Hp).
    split; [|split; [|split; [|split; [|split; [|split]]]]].
    7: exact Hs.
    6: { intros m Hm' ->. rewrite Hs. unfold signed_outcome, next_context.
         now rewrite Hm'. }
    + unfold e1. rewrite fed_engine_update, (new_engine_fed key e He).
      rewrite app_nil_l. reflexivity.
    + apply _digest_first; auto. unfold is_first in Hf.
      now destruct ctx, multi.
    + rewrite Hs.
      destruct (signed_outcome_store key rdata time multi (s ++ [e1]) e1)
        as [ext Hext].
      exists ext. now rewrite Hext, <- app_assoc.
    + intros x Hx. rewrite Hs. unfold signed_outcome. now rewrite Hx.
    + intros s2 tsig c. rewrite Hs. unfold signed_outcome.
      destruct (engine_sign hmac_digest e1) as [m|x]; [|discriminate].
      destruct (next_context key m multi (s ++ [e1])) as [s3 [c3|x]];
        [|discriminate].
      intros H. now injection H as _ <- _.
  - intros adcount Hu Hchk.
    assert (Hv : validated
                 = verification hmac_digest
                     (stripped_wire wire adcount tsig_start) key rdata rm
                     ctx multi s)
      by exact (validate_checks_pass hmac_digest wire key owner rdata now
                  rm tsig_start ctx multi s adcount Hu Hchk).
    split.
    + intros x Hx. rewrite Hv. unfold verification. apply bind_err.
      now apply _digest_engine_error.
    + intros e t He Ht Hrm Hp new_wire e1.
      assert (Hs : validated
                   = verified_outcome hmac_digest key rdata multi
                       (s ++ [e1]) e1).
      { rewrite Hv.
        exact (verification_first_eq hmac_digest new_wire key rdata rm ctx
                 multi s e t Hf He Ht Hrm Hp). }
      split; [|split; [|split; [|split; [|split]]]].
      6: exact Hs.
      5: { intros v Hv' ->. rewrite Hs. unfold verified_outcome, next_context.
           now rewrite Hv'. }
      * unfold e1. rewrite fed_engine_update, (new_engine_fed key e He).
        rewrite app_nil_l. reflexivity.
      * rewrite Hs.
        destruct (verified_outcome_store key rdata multi (s ++ [e1]) e1)
          as [ext Hext].
        exists ext. now rewrite Hext, <- app_assoc.
      * intros x Hx. rewrite Hs. unfold verified_outcome. now rewrite Hx.
      * intros s2 c. rewrite Hs. unfold verified_outcome.
        destruct (engine_verify hmac_digest e1 (mac rdata)) as [v|x];
          [eauto|discriminate].
Qed.

(** C5 on the default call.  When [sign] is called without a signing
    time and returns, its record carries no time, and [validate] accepts
    that record on no wire, under no key and at no [now]; on a message
    with a TSIG record behind it and error code 0 it raises TypeError on
    the missing time. *)
Theorem sign_default_time_never_validates (wire : bytes) (key : Key)
    (rdata : TSIG) (rm : option bytes) (ctx : option nat) (multi : bool)
    (s s1 : list Engine) (tsig : TSIG) (c : option nat) :
  sign hmac_digest wire key rdata None rm ctx multi s = (s1, Ok (tsig, c)) ->
  time_signed tsig = None /\
  forall wire' key' owner now rm' tsig_start ctx' multi' s',
    let validated :=
      validate hmac_digest wire' key' owner tsig now rm' tsig_start
        ctx' multi' s' in
    (forall r, result validated <> Ok r) /\
    (forall adcount,
        unpack_H (slice wire' 10 12) = Ok adcount ->
        1 <= adcount ->
        error rdata = 0 ->
        validated = (s', Err TypeError)).
Proof.
  intros Hs.
  assert (Hrec : time_signed tsig = None /\ error tsig = error rdata).
  { revert Hs. unfold sign, bind, ret.
    destruct (_digest _ _ _ _ _ _ _ _) as [s0 [r0|x]]; [|discriminate].
    destruct (ctx_sign _ _ _) as [s2 [m|x]]; [|discriminate].
    destruct (_maybe_start_digest _ _ _ _) as [s3 [c3|x]]; [|discriminate].
    intros H. injection H as _ <- _. split; reflexivity. }
  destruct Hrec as [Ht He]. split; [exact Ht|].
  intros wire' key' owner now rm' tsig_start ctx' multi' s' validated.
  destruct (unpack_H (slice wire' 10 12)) as [adcount|x] eqn:Hu.
  - assert (Hv : validated = _)
      by exact (validate_unfold hmac_digest wire' key' owner tsig now rm'
                  tsig_start ctx' multi' s' adcount Hu).
    rewrite Ht in Hv. split.
    + intros r. rewrite Hv.
      destruct (adcount =? 0); [discriminate|].
      destruct (negb (error tsig =? 0)); discriminate.
    + intros adcount' Ha Hge Herr. injection Ha as <-. rewrite Hv.
      replace (adcount =? 0) with false
        by (symmetry; apply Z.eqb_neq; lia).
      now rewrite He, Herr.
  - split; [|discriminate].
    intros r. unfold validated, validate, result, bind, lift.
    rewrite Hu. discriminate.
Qed.

End ContextUse.

Lemma context_ignored_without_multi_witness :
  new_engine sample_key = Ok (EHMAC sample_hmac_engine) /\
  effective_time None sample_rdata = Some 1600000000 /\
  packable sample_rdata /\
  let e1 := engine_update (EHMAC sample_hmac_engine)
              (first_stream sample_wire sample_key sample_rdata
                 1600000000 None) in
  untouched None [sample_engine]
    (final (sign checksum_mac sample_wire sample_key sample_rdata None
              None (Some 0%nat) false [sample_engine])) /\
  _digest sample_wire sample_key sample_rdata None None (Some 0%nat) false
    [sample_engine]
  = ([sample_engine; e1], Ok 1%nat) /\
  exists ext,
    final (sign checksum_mac sample_wire sample_key sample_rdata None None
             (Some 0%nat) false [sample_engine])
    = [sample_engine] ++ [e1] ++ ext.
Proof.
  assert (Hp : packable sample_rdata)
    by (unfold packable, len; simpl; lia).
  split; [reflexivity|]. split; [reflexivity|]. split; [exact Hp|].
  intros e1.
  destruct (context_ignored_without_multi checksum_mac sample_wire
              sample_key (key_name sample_key) sample_rdata None 0 None 0
              (Some 0%nat) false [sample_engine] (or_introl eq_refl))
    as ((_ & _ & _ & Hu & _) & _ & H & _).
  destruct (H (EHMAC sample_hmac_engine) 1600000000 eq_refl eq_refl
              ltac:(unfold len; simpl; lia) Hp)
    as (_ & Hd & Hext & _).
  split; [exact Hu|]. split; [exact Hd|exact Hext].
Defined.

Lemma sign_default_time_never_validates_witness :
  exists tsig s1 signed_wire,
    sign checksum_mac sample_wire sample_key sample_rdata None None None
      false [] = (s1, Ok (tsig, None)) /\
    wire_with_tsig sample_wire [xff] = Ok signed_wire /\
    unpack_H (slice signed_wire 10 12) = Ok 1 /\
    error sample_rdata = 0 /\
    validate checksum_mac signed_wire sample_key (key_name sample_key) tsig
      1600000000 None (len sample_wire) None false []
    = ([], Err TypeError).
Proof.
  destruct (sign checksum_mac sample_wire sample_key sample_rdata None None
              None false []) as [s1 [[tsig c]|x]] eqn:Hs;
    [|vm_compute in Hs; discriminate Hs].
  assert (Hc : c = None)
    by (vm_compute in Hs; now injection Hs as _ _ <-).
  subst c.
  exists tsig, s1, sample_signed_wire.
  split; [reflexivity|]. split; [reflexivity|]. split; [reflexivity|].
  split; [reflexivity|].
  destruct (sign_default_time_never_validates checksum_mac sample_wire
              sample_key sample_rdata None None false [] s1 tsig None Hs)
    as [_ H].
  exact (proj2 (H sample_signed_wire sample_key (key_name sample_key)
                  1600000000 None (len sample_wire) None false [])
           1 eq_refl ltac:(lia) eq_refl).
Defined.
